(** * better-elysia: the annotation layer over the HTTP engine

    A shallow embedding of the decorator registry, the dependency-injection
    map, the controller and websocket initializers, the parameter binding and
    handler wrapping code, the authentication hook, the exception hierarchy
    and the two cache providers, followed by the properties proved about
    them. *)

From Stdlib Require Import ZArith String List Bool Lia.
From stdpp Require Import base strings gmap list.

Set Warnings "-register-all".
Open Scope string_scope.
Open Scope list_scope.

(** ** JavaScript values *)

(** The values that flow through a request: [undefined], [null], booleans,
    integral numbers, strings and plain objects (property lists). *)
Inductive Value :=
| VUndefined
| VNull
| VBool (b : bool)
| VNum (z : Z)
| VStr (s : string)
| VObj (fields : list (string * Value)).

(** How a call ends: it returns (or its promise resolves) with a value, or
    it throws (its promise rejects) with one. *)
Inductive Completion (A : Type) :=
| Normal (a : A)
| Throw (e : Value).
Arguments Normal {A} a.
Arguments Throw {A} e.

(** ** HttpStatus and the exception hierarchy *)

(** A JavaScript number as far as a status code or a delay needs it: an
    integer, an infinity, or NaN. *)
Inductive JsNumber :=
| Num (z : Z)
| Infinity (negative : bool)
| NaN.

(** Truthiness of a number: [0] and [NaN] are falsy. *)
Definition number_truthy (n : JsNumber) : bool :=
  match n with
  | Num z => negb (z =? 0)%Z
  | Infinity _ => true
  | NaN => false
  end.

Definition FORBIDDEN : Z := 403.
Definition BAD_REQUEST : Z := 400.
Definition UNAUTHORIZED : Z := 401.
Definition NOT_FOUND : Z := 404.
Definition METHOD_NOT_ALLOWED : Z := 405.
Definition INTERNAL_SERVER_ERROR : Z := 500.
Definition FORBIDDEN_MESSAGE_TEXT : string := "Forbidden".
Definition BAD_REQUEST_MESSAGE : string := "Bad Request".
Definition UNAUTHORIZED_MESSAGE_TEXT : string := "Unauthorized".
Definition NOT_FOUND_MESSAGE : string := "Not Found".
Definition METHOD_NOT_ALLOWED_MESSAGE : string := "Method Not Allowed".

(** An instance of [HttpException] or of one of its subclasses: [name] is
    [this.constructor.name]. *)
Record HttpExceptionObject := {
  name : string;
  message : string;
  status : JsNumber;
}.

(** [status || HttpStatus.INTERNAL_SERVER_ERROR]; [None] is an argument left
    [undefined]. *)
Definition status_or_default (st : option JsNumber) : JsNumber :=
  match st with
  | Some n => if number_truthy n then n else Num INTERNAL_SERVER_ERROR
  | None => Num INTERNAL_SERVER_ERROR
  end.

(** The constructor of [HttpException]; [cls] is the class being
    instantiated ([this.constructor]). *)
Definition HttpException_ctor (cls : string) (msg : string)
    (st : option JsNumber) : HttpExceptionObject :=
  {| name := cls; message := msg; status := status_or_default st |}.

Definition HttpException (msg : string) (st : option JsNumber) :=
  HttpException_ctor "HttpException" msg st.

(** A parameter with a default: the default is taken when the argument is
    [undefined]. *)
Definition with_default (dflt : string) (arg : option string) : string :=
  match arg with Some s => s | None => dflt end.

Definition ForbiddenException (msg : option string) :=
  HttpException_ctor "ForbiddenException"
    (with_default FORBIDDEN_MESSAGE_TEXT msg) (Some (Num FORBIDDEN)).
Definition BadRequestException (msg : option string) :=
  HttpException_ctor "BadRequestException"
    (with_default BAD_REQUEST_MESSAGE msg) (Some (Num BAD_REQUEST)).
Definition UnauthorizedException (msg : option string) :=
  HttpException_ctor "UnauthorizedException"
    (with_default UNAUTHORIZED_MESSAGE_TEXT msg) (Some (Num UNAUTHORIZED)).
Definition NotFoundException (msg : option string) :=
  HttpException_ctor "NotFoundException"
    (with_default NOT_FOUND_MESSAGE msg) (Some (Num NOT_FOUND)).
Definition MethodNotAllowedException (msg : option string) :=
  HttpException_ctor "MethodNotAllowedException"
    (with_default METHOD_NOT_ALLOWED_MESSAGE msg) (Some (Num METHOD_NOT_ALLOWED)).

(** ** The request context *)

Record JwtPayload := {
  payload_id : option string;
  payload_email : option string;
  payload_role : option string;
  payload_iat : option Z;
  payload_exp : option Z;
}.

(** The part of the engine's context the code touches.  [authorization] is
    what [c.request.headers.get("Authorization")] returns ([None] for
    [null]); [jwt] is [Some verify] exactly when ["jwt" in c], [verify]
    receiving [None] for an [undefined] token and answering [None] for a
    falsy result; [set_status] is [c.set.status] and [store_user] is
    [c.store.user]. *)
Record Context := {
  body : Value;
  query : Value;
  params : option (gmap string Value);
  authorization : option string;
  jwt : option (option string -> option JwtPayload);
  set_status : option Z;
  store_user : option JwtPayload;
}.

Definition with_status (code : Z) (c : Context) : Context :=
  {| body := body c; query := query c; params := params c;
     authorization := authorization c; jwt := jwt c;
     set_status := Some code; store_user := store_user c |}.

Definition with_user (u : JwtPayload) (c : Context) : Context :=
  {| body := body c; query := query c; params := params c;
     authorization := authorization c; jwt := jwt c;
     set_status := set_status c; store_user := Some u |}.

(** A request-handling function of the engine ([Handler]): it may write to
    the context, and returns or throws. *)
Definition Handler : Type := Context -> Context * Completion Value.

(** ** String.prototype.split with a non-empty separator *)

(** [split_go sep s skip acc]: [acc] is the piece being accumulated, [skip]
    the number of characters of a matched separator still to drop. *)
Fixpoint split_go (sep s : string) (skip : nat) (acc : string) : list string :=
  match s with
  | EmptyString => [acc]
  | String ch rest =>
      match skip with
      | S k => split_go sep rest k acc
      | O =>
          if String.prefix sep s
          then acc :: split_go sep rest (String.length sep - 1) ""
          else split_go sep rest 0 (acc +:+ String ch "")
      end
  end.

Definition split (sep s : string) : list string := split_go sep s 0 "".

(** ** The authentication hook *)

Definition UNAUTHORIZED_MESSAGE : Value :=
  VObj [("message", VStr "Unauthorized"); ("success", VBool false)].

Definition FORBIDDEN_MESSAGE : Value :=
  VObj [("message", VStr "Forbidden"); ("success", VBool false)].

(** [c.store.user!.role === role] *)
Definition role_is (u : JwtPayload) (r : string) : bool :=
  match payload_role u with
  | Some r' => String.eqb r' r
  | None => false
  end.

(** [!token] for [string | null]: [null] and the empty string are falsy. *)
Definition token_missing (t : option string) : bool :=
  match t with
  | None => true
  | Some s => String.eqb s ""
  end.

Definition onHandleAuthentication (roles : option (list string)) : Handler :=
  fun c =>
    match jwt c with
    | Some verify =>
        let token := authorization c in
        if token_missing token then (with_status 401 c, Normal UNAUTHORIZED_MESSAGE)
        else
          match verify (nth_error (split "Bearer " (default "" token)) 1) with
          | None => (with_status 401 c, Normal UNAUTHORIZED_MESSAGE)
          | Some jwtVerifyResult =>
              let c1 := with_user jwtVerifyResult c in
              match roles with
              | Some rs =>
                  let hasPermission := existsb (role_is jwtVerifyResult) rs in
                  if negb hasPermission
                  then (with_status 403 c1, Throw FORBIDDEN_MESSAGE)
                  else (c1, Normal VUndefined)
              | None => (c1, Normal VUndefined)
              end
          end
    | None => (c, Normal VUndefined)
    end.

(** ** Route metadata *)

(** Schemas are referenced, never interpreted. *)
Inductive TSchema := SchemaRef (ref : string).

Inductive HttpMethods := get | post | put | delete | patch.

(** The method as the string the union type [HttpMethods] stands for. *)
Definition method_string (m : HttpMethods) : string :=
  match m with
  | get => "get"
  | post => "post"
  | put => "put"
  | delete => "delete"
  | patch => "patch"
  end.

Record OpenApiDetailMetadata := {
  summary : string;
  description : string;
  detail_tags : option (list string);
}.

Definition OpenApiResponseMetadata : Type := list (Z * TSchema).

Record OpenApiMetadata := {
  openapi_detail : OpenApiDetailMetadata;
  openapi_response : OpenApiResponseMetadata;
}.

(** An argument of a route handler: the request's context object itself
    (a reference: the handler sees whatever the context holds when it
    reads it), or a value. *)
Inductive Arg :=
| ArgContext
| ArgValue (v : Value).

(** A class (constructor function): its identity as an object and its
    [name] property. *)
Record ClassLike := {
  class_id : nat;
  class_name : string;
}.

(** What [new target(...services)] builds. *)
Inductive Instance := NewInstance (target : ClassLike) (services : list Instance).

(** One step of a generator's iteration. *)
Inductive GenStep (S : Type) :=
| GYield (v : Value) (s : S)
| GReturn
| GThrow (e : Value).
Arguments GYield {S} v s.
Arguments GReturn {S}.
Arguments GThrow {S} e.

(** A generator object: a state and what [next()] does in it. *)
Record Generator := {
  gen_state : Type;
  gen_start : gen_state;
  gen_next : gen_state -> GenStep gen_state;
}.

(** The body of a route method, called with [this] and the argument list
    (a hole is an argument left [undefined]): an ordinary (possibly async)
    function, or a generator function. *)
Inductive MethodBody :=
| PlainFunction (f : Instance -> list (option Arg) -> Handler)
| GeneratorFunction (g : Instance -> list (option Arg) -> Context -> Generator).

(** A method as a function object: identity and body. *)
Record Method := {
  fn_id : nat;
  fn_body : MethodBody;
}.

(** [{ schema?, index }] *)
Record SchemaAt := {
  schema : option TSchema;
  index : nat;
}.

(** [{ slug, index }] *)
Record SlugAt := {
  slug : string;
  slug_index : nat;
}.

(** [{ handler, index }] *)
Record CustomDecorator := {
  custom_handler : Handler;
  custom_index : nat;
}.

Record Metadata := {
  path : string;
  method : HttpMethods;
  handler : Method;
  bodySchema : option SchemaAt;
  querySchema : option SchemaAt;
  paramSlug : option SlugAt;
  rawContext : option nat;
  isPublic : bool;
  detailSchema : option OpenApiDetailMetadata;
  responseSchema : option OpenApiResponseMetadata;
  customDecorators : list CustomDecorator;
}.

(** ** Arrays with holes *)

(** [parameters[i] = v] on an array: in range the slot is replaced, out of
    range the array grows to length [i + 1], the slots in between being
    holes. *)
Definition array_set (a : list (option Arg)) (i : nat) (v : Arg) : list (option Arg) :=
  if decide (i < length a) then <[i := Some v]> a
  else a ++ replicate (i - length a) None ++ [Some v].

(** The element at [i], [None] for a hole or an index past the end. *)
Definition array_get (a : list (option Arg)) (i : nat) : option Arg :=
  match a !! i with
  | Some (Some v) => Some v
  | _ => None
  end.

(** ** getParameters *)

(** [c.params?.[slug]] *)
Definition params_lookup (c : Context) (s : string) : Value :=
  match params c with
  | Some ps => default VUndefined (ps !! s)
  | None => VUndefined
  end.

(** The loop over the custom decorators: each extractor is called with the
    context (as the previous ones left it), awaited, and its result
    written at its index; a throw ends the loop. *)
Fixpoint runCustomDecorators (ds : list CustomDecorator)
    (parameters : list (option Arg)) (c : Context)
    : Context * Completion (list (option Arg)) :=
  match ds with
  | [] => (c, Normal parameters)
  | eachCustomDecorator :: ds' =>
      match custom_handler eachCustomDecorator c with
      | (c', Normal v) =>
          runCustomDecorators ds'
            (array_set parameters (custom_index eachCustomDecorator) (ArgValue v)) c'
      | (c', Throw e) => (c', Throw e)
      end
  end.

Definition getParameters (eachMetadata : Metadata) (c : Context)
    : Context * Completion (list (option Arg)) :=
  let parameters := [] in
  let parameters :=
    match rawContext eachMetadata with
    | Some i => array_set parameters i ArgContext
    | None => parameters
    end in
  let parameters :=
    match bodySchema eachMetadata with
    | Some b => array_set parameters (index b) (ArgValue (body c))
    | None => parameters
    end in
  let parameters :=
    match querySchema eachMetadata with
    | Some q => array_set parameters (index q) (ArgValue (query c))
    | None => parameters
    end in
  let parameters :=
    match paramSlug eachMetadata with
    | Some p => array_set parameters (slug_index p) (ArgValue (params_lookup c (slug p)))
    | None => parameters
    end in
  runCustomDecorators (customDecorators eachMetadata) parameters c.

(** ** getHandler *)

(** [eachMetadata.handler.bind(controller)]: the method with [this] fixed. *)
Inductive BoundFunction :=
| BoundPlain (f : list (option Arg) -> Handler)
| BoundGenerator (g : list (option Arg) -> Context -> Generator).

Definition bind (h : Method) (controller : Instance) : BoundFunction :=
  match fn_body h with
  | PlainFunction f => BoundPlain (f controller)
  | GeneratorFunction g => BoundGenerator (g controller)
  end.

(** [bondedHandler.constructor.name.includes("GeneratorFunction")]: a bound
    function has the prototype of its target. *)
Definition isGenerator (bondedHandler : BoundFunction) : bool :=
  match bondedHandler with
  | BoundPlain _ => false
  | BoundGenerator _ => true
  end.

(** What [getHandler()] returns: an async function, or an async generator
    function. *)
Inductive WrappedHandler :=
| AsyncFunction (h : Handler)
| AsyncGeneratorFunction (w : Context -> Generator).

(** The loop [for await (const eachValue of inner) yield eachValue] inside
    [try], with [catch (error) { yield error }]: [Some s] is the loop at
    state [s] of the inner generator, [None] is the point after the
    [yield] of the catch block. *)
Definition forward (inner : Generator) : Generator :=
  {| gen_state := option (gen_state inner);
     gen_start := Some (gen_start inner);
     gen_next := fun w =>
       match w with
       | Some s =>
           match gen_next inner s with
           | GYield eachValue s' => GYield eachValue (Some s')
           | GReturn => GReturn
           | GThrow error => GYield error None
           end
       | None => GReturn
       end |}.

(** The same body when [getParameters] itself throws inside the [try]: the
    error is yielded, then the generator returns. *)
Definition yield_error (error : Value) : Generator :=
  {| gen_state := bool;
     gen_start := true;
     gen_next := fun fresh => if fresh then GYield error false else GReturn |}.

(** The arguments are spread into the call; the context the handler runs
    against is the one [getParameters] left. *)
Definition getHandler (eachMetadata : Metadata) (bondedHandler : BoundFunction)
    : WrappedHandler :=
  match bondedHandler with
  | BoundGenerator g =>
      AsyncGeneratorFunction (fun c =>
        match getParameters eachMetadata c with
        | (c', Normal args) => forward (g args c')
        | (_, Throw error) => yield_error error
        end)
  | BoundPlain f =>
      AsyncFunction (fun c =>
        match getParameters eachMetadata c with
        | (c', Normal args) => f args c'
        | (c', Throw error) => (c', Throw error)
        end)
  end.

(** How a consumer of a generator sees it end. *)
Inductive Ending :=
| Finished
| Raised (e : Value)
| Pending.

(** A consumer calling [next()] at most [fuel] times: the units received
    and how the iteration stood then ([Pending]: not over yet). *)
Fixpoint consume_from (G : Generator) (fuel : nat) (s : gen_state G)
    : list Value * Ending :=
  match fuel with
  | O => ([], Pending)
  | S n =>
      match gen_next G s with
      | GYield v s' => let (vs, e) := consume_from G n s' in (v :: vs, e)
      | GReturn => ([], Finished)
      | GThrow e => ([], Raised e)
      end
  end.

Definition consume (G : Generator) (fuel : nat) : list Value * Ending :=
  consume_from G fuel (gen_start G).

(** ** The engine's application object *)

(** The [detail] of a route: the documented one, or a security
    requirement list ([[]] or [[{ BearerAuth: [] }]]). *)
Inductive Detail :=
| Documented (d : OpenApiDetailMetadata)
| Security (schemes : list string).

(** The hooks object passed to [app.route]; a field left [undefined] is
    [None]. *)
Record RouteHooks := {
  afterHandle : option Handler;
  beforeHandle : option Handler;
  tags : list string;
  hooks_body : option TSchema;
  hooks_query : option TSchema;
  detail : Detail;
  response : option OpenApiResponseMetadata;
}.

Record Route := {
  route_method : string;
  route_path : string;
  route_handler : WrappedHandler;
  route_hooks : RouteHooks;
}.

(** The value of [!isPublic && options?.auth]. *)
Inductive Guard :=
| GuardFalse
| GuardUndefined
| GuardHandler (h : Handler).

(** A lifecycle method of a socket class bound to its instance. *)
Record SocketHook := {
  hook_fn : nat;
  hook_this : Instance;
}.

Record WsRoute := {
  ws_path : string;
  ws_beforeHandle : Guard;
  ws_open : option SocketHook;
  ws_close : option SocketHook;
  ws_message : option SocketHook;
  ws_body : option TSchema;
}.

(** Middleware installed with [app.use]; plugins are opaque. *)
Inductive Middleware :=
| CorsMiddleware
| SwaggerMiddleware
| Plugin (id : nat).

Record Elysia := {
  middleware : list Middleware;
  errorHandlers : list Handler;
  routes : list Route;
  sockets : list WsRoute;
}.

Definition new_Elysia : Elysia :=
  {| middleware := []; errorHandlers := []; routes := []; sockets := [] |}.

Definition app_use (m : Middleware) (app : Elysia) : Elysia :=
  {| middleware := middleware app ++ [m]; errorHandlers := errorHandlers app;
     routes := routes app; sockets := sockets app |}.

Definition app_onError (h : Handler) (app : Elysia) : Elysia :=
  {| middleware := middleware app; errorHandlers := errorHandlers app ++ [h];
     routes := routes app; sockets := sockets app |}.

Definition app_route (m : string) (p : string) (h : WrappedHandler)
    (hooks : RouteHooks) (app : Elysia) : Elysia :=
  {| middleware := middleware app; errorHandlers := errorHandlers app;
     routes := routes app ++
       [{| route_method := m; route_path := p; route_handler := h;
           route_hooks := hooks |}];
     sockets := sockets app |}.

Definition app_ws (r : WsRoute) (app : Elysia) : Elysia :=
  {| middleware := middleware app; errorHandlers := errorHandlers app;
     routes := routes app; sockets := sockets app ++ [r] |}.

(** ** The engine's request life cycle *)

Inductive Phase :=
| PreHandler
| HandlerBody
| PostHandler
| OpenHook.

Inductive Response :=
| Single (v : Value)
| Stream (g : Generator)
| Failed (e : Value).

(** Modelled from the spec: the engine is an external collaborator, absent
    from the sources; this is the order in which it runs what a route was
    registered with.  [run_handler] is the part after the pre-handler: the
    handler runs, then the post-handler if there is one, whose defined
    result replaces the response; a streaming handler's generator is handed
    to the caller.  The list records which phases ran, in order. *)
Definition run_handler (r : Route) (c : Context) : list Phase * Context * Response :=
  match route_handler r with
  | AsyncGeneratorFunction w => ([HandlerBody], c, Stream (w c))
  | AsyncFunction h =>
      match h c with
      | (c2, Throw e) => ([HandlerBody], c2, Failed e)
      | (c2, Normal v) =>
          match afterHandle (route_hooks r) with
          | None => ([HandlerBody], c2, Single v)
          | Some a =>
              match a c2 with
              | (c3, Normal VUndefined) => ([HandlerBody; PostHandler], c3, Single v)
              | (c3, Normal v') => ([HandlerBody; PostHandler], c3, Single v')
              | (c3, Throw e) => ([HandlerBody; PostHandler], c3, Failed e)
              end
          end
      end
  end.

(** Modelled from the spec: a request to a route.  The pre-handler, if one
    is installed, runs first, on the incoming context; when it returns a
    value other than [undefined] that value is the response and the handler
    is skipped, when it throws the error goes to the error hook; otherwise
    the handler runs on the context the pre-handler left. *)
Definition handle_request (r : Route) (c : Context) : list Phase * Context * Response :=
  match beforeHandle (route_hooks r) with
  | Some h =>
      match h c with
      | (c1, Normal VUndefined) =>
          let '(ran, c2, resp) := run_handler r c1 in (PreHandler :: ran, c2, resp)
      | (c1, Normal v) => ([PreHandler], c1, Single v)
      | (c1, Throw e) => ([PreHandler], c1, Failed e)
      end
  | None => run_handler r c
  end.

(** Modelled from the spec: a socket connection, the open hook gated behind
    the pre-handler when one is installed ([false] and [undefined] install
    none). *)
Definition ws_connect (r : WsRoute) (c : Context) : list Phase * Context * Completion Value :=
  let opened := match ws_open r with Some _ => [OpenHook] | None => [] end in
  match ws_beforeHandle r with
  | GuardHandler h =>
      match h c with
      | (c1, Normal VUndefined) => (PreHandler :: opened, c1, Normal VUndefined)
      | (c1, other) => ([PreHandler], c1, other)
      end
  | GuardFalse | GuardUndefined => (opened, c, Normal VUndefined)
  end.

(** ** The metadata registry, the services map and the tick queue *)

(** [{ open, close, message, body }] on a socket class; the hooks are
    methods, kept by identity. *)
Record SocketMetadata := {
  socket_open : option nat;
  socket_close : option nat;
  socket_message : option nat;
  socket_body : option TSchema;
}.

(** The closure [initializeController] a class decorator stores under
    ["initialize"]: which of the two it is, and the variables it captured. *)
Inductive Initializer :=
| ControllerInitializer (prefix : string) (target : ClassLike)
| WebsocketInitializer (wspath : string) (isPublic : bool) (target : ClassLike).

(** The object stored under ["metadata"]: created as [[]] by
    [httpMethodMetadataSetter] or as [{}] by a socket decorator, and from
    then on changed in place.  [elements] is [Some l] for an array holding
    [l] and [None] for a plain object; the properties [open], [close],
    [message] and [body] can be set on either. *)
Record MetadataObject := {
  elements : option (list Metadata);
  properties : SocketMetadata;
}.

(** A value stored with [Reflect.defineMetadata].  [MObject o] is a
    reference to the metadata object [o]: the object itself lives in the
    store of objects, so that a change made in place is seen through every
    reference to it.  A reader that finds a value of another shape than the
    one its key's writers store treats it as absent. *)
Inductive MetaValue :=
| MSchemaAt (b : SchemaAt)
| MSlugAt (p : SlugAt)
| MIndex (i : nat)
| MCustom (l : list CustomDecorator)
| MTrue
| MObject (o : nat)
| MClasses (l : list ClassLike)
| MInitialize (i : Initializer)
| MString (s : string).

Record HttpMethodMetadataSetterProps := {
  props_path : string;
  props_method : HttpMethods;
  props_handler : Method;
  controllerClass : ClassLike;
  openapi : option OpenApiMetadata;
}.

(** A callback waiting in the [process.nextTick] queue: a deferred call of
    [httpMethodMetadataSetter], or the [resolve] of a [nextTick()] promise. *)
Inductive Task :=
| SetterTask (props : HttpMethodMetadataSetterProps)
| ResolveTask.

(** What happened, in order (a ghost log: nothing reads it). *)
Inductive Event :=
| ParameterAnnotation (cls fn : nat)
| MethodAnnotation (cls fn : nat)
| ClassAnnotation (cls : nat)
| Publish (cls fn : nat)
| InitializerRead (cls : nat).

(** The process-wide state: the Reflect metadata store, which holds the
    own metadata of each target by identity and key; the metadata objects,
    each named after the class whose decorator created it (a class creates
    at most one: from then on it has a ["metadata"] of its own); the
    prototype chain of every class that extends another one, as the
    identities of its superclasses, nearest first; [ServicesMap]; the
    [process.nextTick] queue; the lines written with [console.error]; and
    the ghost log. *)
Record State := {
  registry : gmap (nat * string) MetaValue;
  objects : gmap nat MetadataObject;
  prototypes : gmap nat (list nat);
  ServicesMap : gmap string Instance;
  tickQueue : list Task;
  console : list string;
  trace : list Event;
}.

Definition initial_state : State :=
  {| registry := ∅; objects := ∅; prototypes := ∅; ServicesMap := ∅; tickQueue := [];
     console := []; trace := [] |}.

Definition set_registry (r : gmap (nat * string) MetaValue) (st : State) : State :=
  {| registry := r; objects := objects st; prototypes := prototypes st;
     ServicesMap := ServicesMap st; tickQueue := tickQueue st;
     console := console st; trace := trace st |}.

Definition set_objects (h : gmap nat MetadataObject) (st : State) : State :=
  {| registry := registry st; objects := h; prototypes := prototypes st;
     ServicesMap := ServicesMap st; tickQueue := tickQueue st;
     console := console st; trace := trace st |}.

Definition set_prototypes (p : gmap nat (list nat)) (st : State) : State :=
  {| registry := registry st; objects := objects st; prototypes := p;
     ServicesMap := ServicesMap st; tickQueue := tickQueue st;
     console := console st; trace := trace st |}.

Definition set_services (m : gmap string Instance) (st : State) : State :=
  {| registry := registry st; objects := objects st; prototypes := prototypes st;
     ServicesMap := m; tickQueue := tickQueue st;
     console := console st; trace := trace st |}.

Definition set_queue (q : list Task) (st : State) : State :=
  {| registry := registry st; objects := objects st; prototypes := prototypes st;
     ServicesMap := ServicesMap st; tickQueue := q;
     console := console st; trace := trace st |}.

Definition console_error (line : string) (st : State) : State :=
  {| registry := registry st; objects := objects st; prototypes := prototypes st;
     ServicesMap := ServicesMap st; tickQueue := tickQueue st;
     console := console st ++ [line]; trace := trace st |}.

Definition record (e : Event) (st : State) : State :=
  {| registry := registry st; objects := objects st; prototypes := prototypes st;
     ServicesMap := ServicesMap st; tickQueue := tickQueue st;
     console := console st; trace := trace st ++ [e] |}.

(** The superclasses of a class, nearest first; none for an object that
    extends nothing. *)
Definition prototype_chain (target : nat) (st : State) : list nat :=
  default [] (prototypes st !! target).

(** The metadata under [key] of the first object of [chain] that has one
    of its own. *)
Fixpoint inherited (r : gmap (nat * string) MetaValue) (key : string) (chain : list nat)
    : option MetaValue :=
  match chain with
  | [] => None
  | o :: rest =>
      match r !! (o, key) with
      | Some v => Some v
      | None => inherited r key rest
      end
  end.

(** [Reflect.getMetadata(key, target)]: the target's own metadata, or else
    what the nearest object of its prototype chain has under the key. *)
Definition Reflect_getMetadata (key : string) (target : nat) (st : State) : option MetaValue :=
  inherited (registry st) key (target :: prototype_chain target st).

Definition Reflect_defineMetadata (key : string) (v : MetaValue) (target : nat)
    (st : State) : State :=
  set_registry (<[(target, key) := v]> (registry st)) st.

(** [process.nextTick(callback)] *)
Definition process_nextTick (t : Task) (st : State) : State :=
  set_queue (tickQueue st ++ [t]) st.

(** A computation of the boot phase: it returns with a new state, the
    process exits, or an exception escapes (a promise is rejected, or a
    queued callback throws, and nothing catches it). *)
Inductive Outcome (A : Type) :=
| Returned (a : A) (st : State)
| Exited (code : Z) (st : State)
| Threw (e : Value) (st : State).
Arguments Returned {A} a st.
Arguments Exited {A} code st.
Arguments Threw {A} e st.

Definition Boot (A : Type) : Type := State -> Outcome A.

#[global] Instance boot_ret : MRet Boot := fun A a st => Returned a st.

#[global] Instance boot_bind : MBind Boot := fun A B k m st =>
  match m st with
  | Returned a st' => k a st'
  | Exited code st' => Exited code st'
  | Threw e st' => Threw e st'
  end.

(** A step that only changes the state. *)
Definition modify (f : State -> State) : Boot unit := fun st => Returned tt (f st).

(** Reading something off the state. *)
Definition gets {A} (f : State -> A) : Boot A := fun st => Returned (f st) st.

(** [process.exit(code)] *)
Definition process_exit {A} (code : Z) : Boot A := fun st => Exited code st.

(** [throw e] *)
Definition throw {A} (e : Value) : Boot A := fun st => Threw e st.

(** A [TypeError], as far as the language fixes it: its name. *)
Definition TypeError : Value := VObj [("name", VStr "TypeError")].

(** Exposing the steps of a boot computation in a goal. *)
Ltac boot_steps := unfold mbind, boot_bind, modify, gets, mret, boot_ret.

(** ** httpMethodMetadataSetter *)

(** [s.startsWith(p)] *)
Definition startsWith (s p : string) : bool := String.prefix p s.

(** The object [httpMethodMetadataSetter] pushes: what the decorators of
    the handler have stored by now, the path made to begin with a slash,
    and the rest of [props]. *)
Definition route_metadata (props : HttpMethodMetadataSetterProps) (st : State) : Metadata :=
  let h := fn_id (props_handler props) in
  let bodySchema :=
    match Reflect_getMetadata "body" h st with Some (MSchemaAt b) => Some b | _ => None end in
  let paramSlug :=
    match Reflect_getMetadata "param" h st with Some (MSlugAt p) => Some p | _ => None end in
  let querySchema :=
    match Reflect_getMetadata "query" h st with Some (MSchemaAt q) => Some q | _ => None end in
  let rawContext :=
    match Reflect_getMetadata "rawContext" h st with Some (MIndex i) => Some i | _ => None end in
  let customDecorators :=
    match Reflect_getMetadata "customDecorators" h st with Some (MCustom l) => l | _ => [] end in
  let isPublic :=
    match Reflect_getMetadata "public" h st with Some MTrue => true | _ => false end in
  let path :=
    if startsWith (props_path props) "/" then props_path props
    else "/" +:+ props_path props in
  {| path := path;
     method := props_method props;
     bodySchema := bodySchema;
     paramSlug := paramSlug;
     querySchema := querySchema;
     customDecorators := customDecorators;
     rawContext := rawContext;
     isPublic := isPublic;
     detailSchema := openapi_detail <$> openapi props;
     responseSchema := openapi_response <$> openapi props;
     handler := props_handler props |}.

(** [Reflect.getMetadata("metadata", target)] followed to the object: the
    name of the object found, the target's own or an inherited one, and
    the object as it stands. *)
Definition metadata_object (target : nat) (st : State) : option (nat * MetadataObject) :=
  match Reflect_getMetadata "metadata" target st with
  | Some (MObject o) => (fun obj => (o, obj)) <$> objects st !! o
  | _ => None
  end.

Definition no_properties : SocketMetadata :=
  {| socket_open := None; socket_close := None; socket_message := None;
     socket_body := None |}.

(** A change made in place to the object [o]. *)
Definition set_object (o : nat) (obj : MetadataObject) (st : State) : State :=
  set_objects (<[o := obj]> (objects st)) st.

(** The entry is pushed onto the array found for the class, its own or the
    one it inherits, or onto a new array when there is none; [push] on a
    plain object, as the socket decorators leave one, is a [TypeError]. *)
Definition httpMethodMetadataSetter (props : HttpMethodMetadataSetterProps) : Boot unit :=
  fun st =>
    let cls := class_id (controllerClass props) in
    let entry := route_metadata props st in
    match metadata_object cls st with
    | Some (o, metadata) =>
        match elements metadata with
        | Some l =>
            Returned tt
              (Reflect_defineMetadata "metadata" (MObject o) cls
                 (set_object o {| elements := Some (l ++ [entry]);
                                  properties := properties metadata |} st))
        | None => Threw TypeError st
        end
    | None =>
        Returned tt
          (Reflect_defineMetadata "metadata" (MObject cls) cls
             (set_object cls {| elements := Some [entry];
                                properties := no_properties |} st))
    end.

(** ** The decorators *)

(** The parameter decorators, as applied to [(target, propertyKey,
    parameterIndex)]; [target[propertyKey]] is the method. *)
Inductive ParameterDecorator :=
| RawContext
| Body (schema : option TSchema)
| Param (slug : string)
| Query (schema : option TSchema)
| createCustomParameterDecorator (handler : Handler).

Definition apply_parameter_decorator (d : ParameterDecorator) (fn : Method)
    (parameterIndex : nat) (st : State) : State :=
  match d with
  | RawContext =>
      Reflect_defineMetadata "rawContext" (MIndex parameterIndex) (fn_id fn) st
  | Body schema =>
      Reflect_defineMetadata "body"
        (MSchemaAt {| schema := schema; index := parameterIndex |}) (fn_id fn) st
  | Param slug =>
      Reflect_defineMetadata "param"
        (MSlugAt {| slug := slug; slug_index := parameterIndex |}) (fn_id fn) st
  | Query schema =>
      Reflect_defineMetadata "query"
        (MSchemaAt {| schema := schema; index := parameterIndex |}) (fn_id fn) st
  | createCustomParameterDecorator handler =>
      let customDecorators :=
        match Reflect_getMetadata "customDecorators" (fn_id fn) st with
        | Some (MCustom l) => l
        | _ => []
        end in
      let customDecorators := customDecorators ++
        [{| custom_handler := handler; custom_index := parameterIndex |}] in
      Reflect_defineMetadata "customDecorators" (MCustom customDecorators) (fn_id fn) st
  end.

(** The method decorators, as applied to [(target, _, desc)];
    [target.constructor] is the class and [desc.value] the method.  A path
    left out is [None]. *)
Inductive MethodDecorator :=
| Get (path : option string) (openapi : option OpenApiMetadata)
| Post (path : option string) (openapi : option OpenApiMetadata)
| Put (path : option string) (openapi : option OpenApiMetadata)
| Delete (path : option string) (openapi : option OpenApiMetadata)
| Patch (path : option string) (openapi : option OpenApiMetadata)
| Public
| Open
| Close
| Message (schema : option TSchema).

(** The call a route decorator defers. *)
Definition route_props (target : ClassLike) (fn : Method) (m : HttpMethods)
    (path : option string) (openapi : option OpenApiMetadata)
    : HttpMethodMetadataSetterProps :=
  {| controllerClass := target;
     props_path := default "/" path;
     props_method := m;
     props_handler := fn;
     openapi := openapi |}.

(** The properties of [Reflect.getMetadata("metadata", target) || {}], as
    the socket initializer reads them. *)
Definition socket_metadata (target : ClassLike) (st : State) : SocketMetadata :=
  match metadata_object (class_id target) st with
  | Some (_, metadata) => properties metadata
  | None => no_properties
  end.

(** What a socket decorator does with
    [Reflect.getMetadata("metadata", target.constructor) ?? {}]: the object
    found, the class's own or an inherited one, array or not, has its
    properties changed in place by [change] and becomes the class's own
    metadata; when there is none a new plain object does. *)
Definition set_socket_property (change : SocketMetadata -> SocketMetadata)
    (target : ClassLike) (st : State) : State :=
  let cls := class_id target in
  match metadata_object cls st with
  | Some (o, metadata) =>
      Reflect_defineMetadata "metadata" (MObject o) cls
        (set_object o {| elements := elements metadata;
                         properties := change (properties metadata) |} st)
  | None =>
      Reflect_defineMetadata "metadata" (MObject cls) cls
        (set_object cls {| elements := None; properties := change no_properties |} st)
  end.

Definition apply_method_decorator (d : MethodDecorator) (target : ClassLike)
    (fn : Method) (st : State) : State :=
  match d with
  | Get path openapi =>
      process_nextTick (SetterTask (route_props target fn get path openapi)) st
  | Post path openapi =>
      process_nextTick (SetterTask (route_props target fn post path openapi)) st
  | Put path openapi =>
      process_nextTick (SetterTask (route_props target fn put path openapi)) st
  | Delete path openapi =>
      process_nextTick (SetterTask (route_props target fn delete path openapi)) st
  | Patch path openapi =>
      process_nextTick (SetterTask (route_props target fn patch path openapi)) st
  | Public => Reflect_defineMetadata "public" MTrue (fn_id fn) st
  | Open =>
      set_socket_property
        (fun metadata =>
           {| socket_open := Some (fn_id fn);
              socket_close := socket_close metadata;
              socket_message := socket_message metadata;
              socket_body := socket_body metadata |}) target st
  | Close =>
      set_socket_property
        (fun metadata =>
           {| socket_open := socket_open metadata;
              socket_close := Some (fn_id fn);
              socket_message := socket_message metadata;
              socket_body := socket_body metadata |}) target st
  | Message schema =>
      set_socket_property
        (fun metadata =>
           {| socket_open := socket_open metadata;
              socket_close := socket_close metadata;
              socket_message := Some (fn_id fn);
              socket_body := schema |}) target st
  end.

(** The class decorators, as applied to [target].  [Websocket]'s options
    are [None] when left out, and so is their [public] field. *)
Inductive ClassDecorator :=
| Module_ (controllers : list ClassLike)
| Controller (prefix : string)
| Websocket (wspath : string) (options : option (option bool))
| ApiTag (tag : string)
| Service.

Definition apply_Service (target : ClassLike) : Boot unit :=
  let classname := class_name target in
  has ← gets (fun st => bool_decide (is_Some (ServicesMap st !! classname)));
  if (has : bool) then
    modify (console_error ("Service " +:+ classname +:+ " already exists"));;
    process_exit (-1)
  else
    modify (fun st => set_services (<[classname := NewInstance target []]> (ServicesMap st)) st).

Definition apply_class_decorator (d : ClassDecorator) (target : ClassLike) : Boot unit :=
  match d with
  | Module_ controllers =>
      modify (Reflect_defineMetadata "controllers" (MClasses controllers) (class_id target))
  | Controller prefix =>
      let prefix := if negb (startsWith prefix "/") then "/" +:+ prefix else prefix in
      modify (Reflect_defineMetadata "initialize"
                (MInitialize (ControllerInitializer prefix target)) (class_id target))
  | Websocket wspath options =>
      let isPublic :=
        match options with Some (Some true) => true | _ => false end in
      modify (Reflect_defineMetadata "initialize"
                (MInitialize (WebsocketInitializer wspath isPublic target)) (class_id target))
  | ApiTag tag =>
      modify (Reflect_defineMetadata "tag" (MString tag) (class_id target))
  | Service => apply_Service target
  end.

(** ** The tick queue *)

(** One deferred callback runs. *)
Definition run_task (props : HttpMethodMetadataSetterProps) : Boot unit :=
  httpMethodMetadataSetter props;;
  modify (record (Publish (class_id (controllerClass props)) (fn_id (props_handler props)))).

(** The queue [q] is run first in, first out, up to and including the first
    [ResolveTask]; what is behind it stays queued.  (No callback of this
    code schedules another one.)  A callback that throws ends the run:
    nothing catches what a queued callback throws. *)
Fixpoint run_ticks (q : list Task) : Boot unit :=
  match q with
  | [] => modify (set_queue [])
  | ResolveTask :: q' => modify (set_queue q')
  | SetterTask props :: q' => run_task props;; run_ticks q'
  end.

(** [await nextTick()]: [resolve] is queued behind the callbacks already
    waiting, and the caller resumes once it has run. *)
Definition nextTick : Boot unit :=
  fun st => run_ticks (tickQueue (process_nextTick ResolveTask st)) st.

(** The end of a synchronous run: the event loop runs the whole queue. *)
Definition end_of_turn : Boot unit := fun st => run_ticks (tickQueue st) st.

(** ** The initializers *)

(** [options?: { auth?, response? }] *)
Record InitializeOptions := {
  auth : option Handler;
  response_hook : option Handler;
}.

(** [(c) => {}] *)
Definition noop : Handler := fun c => (c, Normal VUndefined).

(** The [.map] over [design:paramtypes]: each service is looked up by its
    class's name; a missing one ends the process. *)
Fixpoint inject (target : ClassLike) (paramtypes : list ClassLike) : Boot (list Instance) :=
  match paramtypes with
  | [] => mret []
  | EachService :: rest =>
      found ← gets (fun st => ServicesMap st !! class_name EachService);
      match found with
      | Some instance =>
          instances ← inject target rest;
          mret (instance :: instances)
      | None =>
          modify (console_error ("Injected service is undefined in " +:+ class_name target));;
          modify (console_error "Make sure injected service has @Service decorator");;
          process_exit (-1)
      end
  end.

Definition paramtypes_of (target : ClassLike) (st : State) : list ClassLike :=
  match Reflect_getMetadata "design:paramtypes" (class_id target) st with
  | Some (MClasses l) => l
  | _ => []
  end.

(** The body of the loop over the controller's metadata: one [app.route]. *)
Definition register_route (prefix tag : string) (options : option InitializeOptions)
    (beforeHandle_ afterHandle_ : Handler) (controller : Instance)
    (app : Elysia) (eachMetadata : Metadata) : Elysia :=
  let bondedHandler := bind (handler eachMetadata) controller in
  let isGenerator_ := isGenerator bondedHandler in
  let getDetail :=
    match detailSchema eachMetadata with
    | Some d => Documented d
    | None =>
        if negb (bool_decide (is_Some (options ≫= auth))) || isPublic eachMetadata
        then Security []
        else Security ["BearerAuth"]
    end in
  app_route (method_string (method eachMetadata)) (prefix +:+ path eachMetadata)
    (getHandler eachMetadata bondedHandler)
    {| afterHandle := if isGenerator_ then None else Some afterHandle_;
       beforeHandle := if isPublic eachMetadata then None else Some beforeHandle_;
       tags := [tag];
       hooks_body := bodySchema eachMetadata ≫= schema;
       hooks_query := querySchema eachMetadata ≫= schema;
       detail := getDetail;
       response := responseSchema eachMetadata |}
    app.

(** [initializeController] of [Controller(prefix)(target)].  The loop
    [for...of] runs over the elements of the array found under
    ["metadata"], or over [[]] when nothing is found; a plain object is not
    iterable, and the loop over it a [TypeError]. *)
Definition Controller_initializeController (prefix : string) (target : ClassLike)
    (app : Elysia) (options : option InitializeOptions) : Boot Elysia :=
  nextTick;;
  tag ← gets (fun st =>
    match Reflect_getMetadata "tag" (class_id target) st with
    | Some (MString t) => t
    | _ => "default"
    end);
  let beforeHandle_ := default noop (options ≫= auth) in
  let afterHandle_ := default noop (options ≫= response_hook) in
  paramtypes ← gets (paramtypes_of target);
  services ← inject target paramtypes;
  let controller := NewInstance target services in
  modify (record (InitializerRead (class_id target)));;
  metadata ← gets (metadata_object (class_id target));
  match metadata with
  | Some (_, metadata) =>
      match elements metadata with
      | Some l =>
          mret (foldl (register_route prefix tag options beforeHandle_ afterHandle_
                         controller) app l)
      | None => throw TypeError
      end
  | None => mret app
  end.

(** [initializeController] of [Websocket(path, options)(target)]. *)
Definition Websocket_initializeController (wspath : string) (isPublic_ : bool)
    (target : ClassLike) (app : Elysia) (options : option InitializeOptions)
    : Boot Elysia :=
  nextTick;;
  paramtypes ← gets (paramtypes_of target);
  services ← inject target paramtypes;
  modify (record (InitializerRead (class_id target)));;
  metadata ← gets (socket_metadata target);
  let controller := NewInstance target services in
  let bound := fun fn => {| hook_fn := fn; hook_this := controller |} in
  mret (app_ws
          {| ws_path := wspath;
             ws_beforeHandle :=
               if negb isPublic_
               then match options ≫= auth with
                    | Some h => GuardHandler h
                    | None => GuardUndefined
                    end
               else GuardFalse;
             ws_open := bound <$> socket_open metadata;
             ws_close := bound <$> socket_close metadata;
             ws_message := bound <$> socket_message metadata;
             ws_body := socket_body metadata |}
          app).

(** Calling the function stored under ["initialize"]. *)
Definition run_initializer (i : Initializer) (app : Elysia)
    (options : option InitializeOptions) : Boot Elysia :=
  match i with
  | ControllerInitializer prefix target =>
      Controller_initializeController prefix target app options
  | WebsocketInitializer wspath isPublic_ target =>
      Websocket_initializeController wspath isPublic_ target app options
  end.

(** ** ElysiaFactory.create *)

(** The options of [create]: [cors] and [swagger] by their truthiness,
    plugins by identity, the boot callbacks as computations. *)
Record ElysiaCreateOptions := {
  cors : bool;
  swagger : bool;
  create_auth : option Handler;
  create_response : option Handler;
  error : option Handler;
  plugins : option (list nat);
  beforeStart : option (list (Boot unit));
}.

(** The loop over the module's controllers. *)
Fixpoint initialize_all (controllers : list ClassLike) (app : Elysia)
    (options : option ElysiaCreateOptions) : Boot Elysia :=
  match controllers with
  | [] => mret app
  | eachControllerClass :: rest =>
      initializeController ← gets (Reflect_getMetadata "initialize" (class_id eachControllerClass));
      match initializeController with
      | Some (MInitialize i) =>
          app' ← run_initializer i app
                   (Some {| auth := options ≫= create_auth;
                            response_hook := options ≫= create_response |});
          initialize_all rest app' options
      | _ =>
          modify (console_error "Invalid class module");;
          process_exit (-1)
      end
  end.

(** Each boot callback is awaited before the next one starts. *)
Fixpoint run_beforeStart (callbacks : list (Boot unit)) : Boot unit :=
  match callbacks with
  | [] => mret tt
  | eachBeforeStart :: rest => eachBeforeStart;; run_beforeStart rest
  end.

Definition ElysiaFactory_create (module : ClassLike)
    (options : option ElysiaCreateOptions) : Boot Elysia :=
  let app := new_Elysia in
  run_beforeStart (default [] (options ≫= beforeStart));;
  let app := if default false (cors <$> options) then app_use CorsMiddleware app else app in
  let app := foldl (fun a p => app_use (Plugin p) a) app (default [] (options ≫= plugins)) in
  let app := if default false (swagger <$> options) then app_use SwaggerMiddleware app else app in
  let app := match options ≫= error with Some h => app_onError h app | None => app end in
  controllers ← gets (Reflect_getMetadata "controllers" (class_id module));
  match controllers with
  | Some (MClasses controllers) => initialize_all controllers app options
  | _ =>
      modify (console_error "Invalid class module");;
      process_exit (-1)
  end.

(** ** Class declarations *)

(** A method of a class with its decorators, each list in the order the
    language applies them: the parameter decorators from the last
    parameter to the first, then the method decorators from the one
    nearest to the method outwards. *)
Record MethodDeclaration := {
  method_fn : Method;
  parameter_decorators : list (nat * ParameterDecorator);
  method_decorators : list MethodDecorator;
}.

(** A decorated class: the class it extends, if any, its methods in
    textual order, the constructor parameter types the compiler records
    under ["design:paramtypes"], and its class decorators in application
    order. *)
Record ClassDeclaration := {
  declared_class : ClassLike;
  superclass : option ClassLike;
  methods : list MethodDeclaration;
  paramtypes : option (list ClassLike);
  class_decorators : list ClassDecorator;
}.

(** [class target extends parent]: the prototype of the new class is its
    superclass. *)
Definition extend (target : ClassLike) (parent : option ClassLike) (st : State) : State :=
  match parent with
  | Some p =>
      set_prototypes
        (<[class_id target := class_id p :: prototype_chain (class_id p) st]> (prototypes st))
        st
  | None => st
  end.

Definition declare_method (target : ClassLike) (st : State) (md : MethodDeclaration)
    : State :=
  let fn := method_fn md in
  let st :=
    foldl (fun st '(i, d) =>
             record (ParameterAnnotation (class_id target) (fn_id fn))
               (apply_parameter_decorator d fn i st))
          st (parameter_decorators md) in
  foldl (fun st d =>
           record (MethodAnnotation (class_id target) (fn_id fn))
             (apply_method_decorator d target fn st))
        st (method_decorators md).

Fixpoint declare_class_decorators (target : ClassLike) (ds : list ClassDecorator)
    : Boot unit :=
  match ds with
  | [] => mret tt
  | d :: rest =>
      apply_class_decorator d target;;
      modify (record (ClassAnnotation (class_id target)));;
      declare_class_decorators target rest
  end.

(** Evaluating a class definition, in the order the language fixes: one
    synchronous run, the class created on top of its superclass, then the
    parameter and method decorators of each member, then the constructor's
    parameter types, the class decorators last. *)
Definition declare_class (d : ClassDeclaration) : Boot unit :=
  let target := declared_class d in
  modify (extend target (superclass d));;
  modify (fun st => foldl (declare_method target) st (methods d));;
  modify (fun st =>
    match paramtypes d with
    | Some l => Reflect_defineMetadata "design:paramtypes" (MClasses l) (class_id target) st
    | None => st
    end);;
  declare_class_decorators target (class_decorators d).

(** ** The cache providers *)

(** What the two cache providers share with the runtime: the [redis]
    client, an external collaborator whose calls are recorded, and the
    timers of [setTimeout]. *)
Module CacheRuntime.

(** A call made on the [redis] client. *)
Inductive RedisCommand :=
| RedisGet (key : string)
| RedisSet (key : string) (value : Value)
| RedisSetex (key : string) (seconds : JsNumber) (value : Value)
| RedisDel (key : string).

(** A callback waiting in [setTimeout]: it deletes [timer_key] from the
    memory cache, [timer_delay] milliseconds after it was scheduled. *)
Record Timer := {
  timer_key : string;
  timer_delay : JsNumber;
}.

(** [n > 0] *)
Definition greater_than_zero (n : JsNumber) : bool :=
  match n with
  | Num z => (0 <? z)%Z
  | Infinity negative => negb negative
  | NaN => false
  end.

(** The double nearest to an integer, a tie going to the even mantissa:
    an integer below [2 ^ 53] in absolute value is a double, a larger one
    keeps its 53 leading bits, rounded, and one beyond the largest double
    becomes an infinity. *)
Definition to_double (z : Z) : JsNumber :=
  let a := Z.abs z in
  if (a <? 2 ^ 53)%Z then Num z
  else
    let e := (Z.log2 a - 52)%Z in
    let q := Z.shiftr a e in
    let r := Z.land a (Z.ones e) in
    let half := Z.shiftl 1 (e - 1) in
    let q := if (half <? r)%Z || ((r =? half)%Z && Z.odd q) then (q + 1)%Z else q in
    let m := Z.shiftl q e in
    if (m <? 2 ^ 1024)%Z then Num (Z.sgn z * m) else Infinity (z <? 0)%Z.

(** [n * k], the product of two doubles: the exact product, rounded. *)
Definition times (n : JsNumber) (k : Z) : JsNumber :=
  match n with
  | Num z => to_double (z * k)
  | Infinity negative =>
      if (k =? 0)%Z then NaN else Infinity (xorb negative (k <? 0)%Z)
  | NaN => NaN
  end.

(** A string that may be [undefined], as a value. *)
Definition string_or_undefined (s : option string) : Value :=
  match s with
  | Some s => VStr s
  | None => VUndefined
  end.

(** What [redis.get] resolves to: the stored string, or [null]. *)
Definition string_or_null (s : option string) : Value :=
  match s with
  | Some s => VStr s
  | None => VNull
  end.

(** Truthiness of [string | undefined]. *)
Definition string_truthy (s : option string) : bool :=
  match s with
  | Some s => negb (String.eqb s "")
  | None => false
  end.

End CacheRuntime.

(** The provider that chooses redis by the environment ([REDIS_URL]) and
    keeps serialized values. *)
Module EnvCache.
Import CacheRuntime.

(** The fields of the one [CacheProvider] object. *)
Record CacheProvider := {
  memoryCache : gmap string Value;
  isRedis : bool;
  ttlSeconds : JsNumber;
}.

(** [process.env] as far as the constructor reads it. *)
Record Env := {
  REDIS_URL : option string;
  REDIS_TTL : option string;
}.

(** The provider, the pending timers and the calls made on redis so far. *)
Record World := {
  this : CacheProvider;
  timers : list Timer;
  sent : list RedisCommand;
}.

Definition with_memory (m : gmap string Value) (w : World) : World :=
  {| this := {| memoryCache := m; isRedis := isRedis (this w);
                ttlSeconds := ttlSeconds (this w) |};
     timers := timers w; sent := sent w |}.

Definition setTimeout (t : Timer) (w : World) : World :=
  {| this := this w; timers := timers w ++ [t]; sent := sent w |}.

Definition send (c : RedisCommand) (w : World) : World :=
  {| this := this w; timers := timers w; sent := sent w ++ [c] |}.

Section Methods.

(** The built-ins [parseInt] and [JSON.stringify] (which gives [undefined]
    for a value that has no JSON text). *)
Variable parseInt : string -> JsNumber.
Variable JSON_stringify : Value -> option string.

(** [new CacheProvider()], [_instance] being the static field. *)
Definition constructor (env : Env) (_instance : option CacheProvider) : CacheProvider :=
  match _instance with
  | Some existing => existing
  | None =>
      {| isRedis := string_truthy (REDIS_URL env);
         ttlSeconds :=
           if string_truthy (REDIS_TTL env) then parseInt (default "" (REDIS_TTL env))
           else Num 60;
         memoryCache := ∅ |}
  end.

(** [redis_get] is what the server answers to this call. *)
Definition get (redis_get : string -> option string) (key : string) (w : World)
    : Value * World :=
  if isRedis (this w) then (string_or_null (redis_get key), send (RedisGet key) w)
  else (default VUndefined (memoryCache (this w) !! key), w).

(** The third argument is [None] when left out. *)
Definition set (key : string) (value : Value) (ttl : option JsNumber) (w : World) : World :=
  let ttl := default (ttlSeconds (this w)) ttl in
  let serialized := string_or_undefined (JSON_stringify value) in
  if isRedis (this w) then
    if greater_than_zero ttl then send (RedisSetex key ttl serialized) w
    else send (RedisSet key serialized) w
  else
    let w := with_memory (<[key := serialized]> (memoryCache (this w))) w in
    if greater_than_zero ttl
    then setTimeout {| timer_key := key; timer_delay := times ttl 1000 |} w
    else w.

Definition del (key : string) (w : World) : World :=
  if isRedis (this w) then send (RedisDel key) w
  else with_memory (base.delete key (memoryCache (this w))) w.

(** A call of one of the three methods; a [get] comes with what redis
    would answer to it. *)
Inductive Call :=
| CallGet (redis_get : string -> option string) (key : string)
| CallSet (key : string) (value : Value) (ttl : option JsNumber)
| CallDel (key : string).

Definition call (w : World) (c : Call) : World :=
  match c with
  | CallGet redis_get key => snd (get redis_get key w)
  | CallSet key value ttl => set key value ttl w
  | CallDel key => del key w
  end.

(** Calls made one after the other, each awaited. *)
Definition calls (cs : list Call) (w : World) : World := foldl call w cs.

End Methods.

(** The [n]-th pending timer comes due: its callback runs. *)
Definition fire (n : nat) (w : World) : World :=
  match timers w !! n with
  | Some t =>
      {| this := {| memoryCache := base.delete (timer_key t) (memoryCache (this w));
                    isRedis := isRedis (this w); ttlSeconds := ttlSeconds (this w) |};
         timers := base.delete n (timers w); sent := sent w |}
  | None => w
  end.

End EnvCache.

(** The provider that asks the client whether it is connected, at every
    call, and keeps the values themselves. *)
Module ConnectedCache.
Import CacheRuntime.

Record CacheProvider := {
  memoryCache : gmap string Value;
}.

Record World := {
  this : CacheProvider;
  timers : list Timer;
  sent : list RedisCommand;
}.

Definition with_memory (m : gmap string Value) (w : World) : World :=
  {| this := {| memoryCache := m |}; timers := timers w; sent := sent w |}.

Definition setTimeout (t : Timer) (w : World) : World :=
  {| this := this w; timers := timers w ++ [t]; sent := sent w |}.

Definition send (c : RedisCommand) (w : World) : World :=
  {| this := this w; timers := timers w; sent := sent w ++ [c] |}.

Definition constructor (_instance : option CacheProvider) : CacheProvider :=
  match _instance with
  | Some existing => existing
  | None => {| memoryCache := ∅ |}
  end.

Section Methods.

Variable JSON_stringify : Value -> option string.

(** [connected] is [redis.connected] as read by this call. *)
Definition get (connected : bool) (redis_get : string -> option string)
    (key : string) (w : World) : Value * World :=
  if connected then (string_or_null (redis_get key), send (RedisGet key) w)
  else (default VUndefined (memoryCache (this w) !! key), w).

Definition set (connected : bool) (key : string) (value : Value)
    (ttl : option JsNumber) (w : World) : World :=
  let ttlSeconds := default (Num 0) ttl in
  let serialized := string_or_undefined (JSON_stringify value) in
  if connected then
    if greater_than_zero ttlSeconds then send (RedisSetex key ttlSeconds serialized) w
    else send (RedisSet key serialized) w
  else
    let w := with_memory (<[key := value]> (memoryCache (this w))) w in
    if greater_than_zero ttlSeconds
    then setTimeout {| timer_key := key; timer_delay := times ttlSeconds 1000 |} w
    else w.

Definition del (connected : bool) (key : string) (w : World) : World :=
  if connected then send (RedisDel key) w
  else with_memory (base.delete key (memoryCache (this w))) w.

End Methods.

Definition fire (n : nat) (w : World) : World :=
  match timers w !! n with
  | Some t =>
      {| this := {| memoryCache := base.delete (timer_key t) (memoryCache (this w)) |};
         timers := base.delete n (timers w); sent := sent w |}
  | None => w
  end.

End ConnectedCache.

(** * Vocabulary of the properties *)

(** ** Exceptions and the authentication hook *)

(** A status argument is falsy: left [undefined], [0], or [NaN]. *)
Definition falsy_status (st : option JsNumber) : Prop :=
  st = None \/ st = Some (Num 0) \/ st = Some NaN.

(** [token.split("Bearer ")[1]] *)
Definition bearer (token : string) : option string :=
  nth_error (split "Bearer " token) 1.

(** The pre-handler answered with the unauthorized response: status 401
    set, the structured object returned (not thrown). *)
Definition answers_unauthorized (c : Context) (out : Context * Completion Value) : Prop :=
  out = (with_status 401 c, Normal UNAUTHORIZED_MESSAGE).

(** A context with neither a token verifier nor an Authorization header. *)
Definition bare_context : Context :=
  {| body := VUndefined; query := VUndefined; params := None;
     authorization := None; jwt := None; set_status := None; store_user := None |}.

(** A verifier that accepts the token ["good"] only, for a user of role
    [user], and a request presenting token [t]. *)
Definition sample_verify (t : option string) : option JwtPayload :=
  match t with
  | Some "good" =>
      Some {| payload_id := Some "1"; payload_email := None;
              payload_role := Some "user"; payload_iat := None; payload_exp := None |}
  | _ => None
  end.

Definition bearer_request (t : string) : Context :=
  {| body := VUndefined; query := VUndefined; params := None;
     authorization := Some ("Bearer " +:+ t); jwt := Some sample_verify;
     set_status := None; store_user := None |}.

(** ** Parameter extraction *)

(** The writes [getParameters] makes for the fixed bindings, in the order
    of its statements: raw context, body, query, path segment. *)
Definition static_writes (m : Metadata) (c : Context) : list (nat * Arg) :=
  match rawContext m with Some i => [(i, ArgContext)] | None => [] end ++
  match bodySchema m with Some b => [(index b, ArgValue (body c))] | None => [] end ++
  match querySchema m with Some q => [(index q, ArgValue (query c))] | None => [] end ++
  match paramSlug m with
  | Some p => [(slug_index p, ArgValue (params_lookup c (slug p)))]
  | None => []
  end.

(** The writes of the custom extractors, in the order of the list: each
    extractor runs on the context the previous one left and its result is
    the value written.  A throw ends the run. *)
Fixpoint custom_writes (ds : list CustomDecorator) (c : Context)
    : Context * Completion (list (nat * Arg)) :=
  match ds with
  | [] => (c, Normal [])
  | d :: ds' =>
      match custom_handler d c with
      | (c', Normal v) =>
          match custom_writes ds' c' with
          | (c'', Normal ws) => (c'', Normal ((custom_index d, ArgValue v) :: ws))
          | (c'', Throw e) => (c'', Throw e)
          end
      | (c', Throw e) => (c', Throw e)
      end
  end.

(** A sequence of writes done one after the other. *)
Definition apply_writes (a : list (option Arg)) (ws : list (nat * Arg)) : list (option Arg) :=
  foldl (fun a '(i, v) => array_set a i v) a ws.

(** The value of the last write to index [i] in a sequence of writes. *)
Fixpoint last_write (ws : list (nat * Arg)) (i : nat) : option Arg :=
  match ws with
  | [] => None
  | (j, v) :: ws' =>
      match last_write ws' i with
      | Some v' => Some v'
      | None => if decide (j = i) then Some v else None
      end
  end.

(** The indices the bindings of a handler claim. *)
Definition binding_indices (m : Metadata) : list nat :=
  match rawContext m with Some i => [i] | None => [] end ++
  match bodySchema m with Some b => [index b] | None => [] end ++
  match querySchema m with Some q => [index q] | None => [] end ++
  match paramSlug m with Some p => [slug_index p] | None => [] end ++
  map custom_index (customDecorators m).



(** A method whose body is never run. *)
Definition idle_method (id : nat) : Method :=
  {| fn_id := id; fn_body := PlainFunction (fun _ _ c => (c, Normal VUndefined)) |}.

(** An extractor that returns a constant. *)
Definition constant_extractor (v : Value) : Handler := fun c => (c, Normal v).

(** A handler with the given bindings and nothing else. *)
Definition metadata_with (raw : option nat) (b q : option SchemaAt) (p : option SlugAt)
    (ds : list CustomDecorator) : Metadata :=
  {| path := "/"; method := get; handler := idle_method 0;
     bodySchema := b; querySchema := q; paramSlug := p; rawContext := raw;
     isPublic := false; detailSchema := None; responseSchema := None;
     customDecorators := ds |}.

(** A body binding and a custom extractor both at index 0. *)
Definition clashing_metadata : Metadata :=
  metadata_with None (Some {| schema := None; index := 0 |}) None None
    [{| custom_handler := constant_extractor (VStr "custom"); custom_index := 0 |}].

(** Bindings at positions 0 (body), 2 (path segment ["id"]) and 3 (a
    custom extractor). *)
Definition sparse_metadata : Metadata :=
  metadata_with None (Some {| schema := None; index := 0 |}) None
    (Some {| slug := "id"; slug_index := 2 |})
    [{| custom_handler := constant_extractor (VStr "custom"); custom_index := 3 |}].

Definition sample_request : Context :=
  {| body := VStr "body"; query := VStr "query";
     params := Some {[ "id" := VStr "42" ]};
     authorization := None; jwt := None; set_status := None; store_user := None |}.

(** ** Streaming *)

(** A generator that yields ["first"] and throws ["boom"] while producing
    its second value. *)
Definition failing_stream : Generator :=
  {| gen_state := nat;
     gen_start := 0;
     gen_next := fun s =>
       match s with
       | 0 => GYield (VStr "first") 1
       | _ => GThrow (VStr "boom")
       end |}.

(** A route without bindings whose method is that generator function. *)
Definition streaming_metadata : Metadata :=
  {| path := "/stream"; method := get;
     handler := {| fn_id := 1; fn_body := GeneratorFunction (fun _ _ _ => failing_stream) |};
     bodySchema := None; querySchema := None; paramSlug := None; rawContext := None;
     isPublic := false; detailSchema := None; responseSchema := None;
     customDecorators := [] |}.

Definition sample_controller : Instance :=
  NewInstance {| class_id := 7; class_name := "StreamController" |} [].

(** ** Programs: class definitions, then initialization *)

(** The class definitions of a program are evaluated one after the other. *)
Fixpoint declare_all (ds : list ClassDeclaration) : Boot unit :=
  match ds with
  | [] => mret tt
  | d :: rest => declare_class d;; declare_all rest
  end.

(** A program: its class definitions are evaluated, then [create] is
    called on the root module. *)
Definition boot (ds : list ClassDeclaration) (module : ClassLike)
    (options : option ElysiaCreateOptions) : Boot Elysia :=
  declare_all ds;; ElysiaFactory_create module options.

Definition outcome_app (o : Outcome Elysia) : Elysia :=
  match o with
  | Returned app _ => app
  | Exited _ _ | Threw _ _ => new_Elysia
  end.

Definition outcome_state {A} (o : Outcome A) : State :=
  match o with
  | Returned _ st | Exited _ st | Threw _ st => st
  end.

(** A string made to begin with ["/"]. *)
Definition slash (s : string) : string := if startsWith s "/" then s else "/" +:+ s.

(** The call a method decorator defers, if it is a route decorator. *)
Definition deferred (target : ClassLike) (fn : Method) (d : MethodDecorator)
    : option HttpMethodMetadataSetterProps :=
  match d with
  | Get p o => Some (route_props target fn get p o)
  | Post p o => Some (route_props target fn post p o)
  | Put p o => Some (route_props target fn put p o)
  | Delete p o => Some (route_props target fn delete p o)
  | Patch p o => Some (route_props target fn patch p o)
  | Public | Open | Close | Message _ => None
  end.

Definition deferred_by_method (target : ClassLike) (md : MethodDeclaration)
    : list HttpMethodMetadataSetterProps :=
  omap (deferred target (method_fn md)) (method_decorators md).

(** The calls the route decorators of a class defer, in the order the
    decorators are applied. *)
Definition deferred_by_class (d : ClassDeclaration) : list HttpMethodMetadataSetterProps :=
  flat_map (deferred_by_method (declared_class d)) (methods d).

(** The route a method decorator declares, if it is a route decorator: the
    HTTP method string and the path (["/"] when left out). *)
Definition declared_route (x : MethodDecorator) : option (string * string) :=
  match x with
  | Get p _ => Some ("get", default "/" p)
  | Post p _ => Some ("post", default "/" p)
  | Put p _ => Some ("put", default "/" p)
  | Delete p _ => Some ("delete", default "/" p)
  | Patch p _ => Some ("patch", default "/" p)
  | Public | Open | Close | Message _ => None
  end.

(** The routes a class declares, in the order its route decorators are
    applied: its methods in textual order, and the route decorators
    stacked on one method from the one nearest to the method outwards. *)
Definition declared_routes (d : ClassDeclaration) : list (string * string) :=
  flat_map (fun md => omap declared_route (method_decorators md)) (methods d).

(** The same routes in the order of the text: the decorators stacked on
    one method from the top one down to the one nearest to the method. *)
Definition routes_in_textual_order (d : ClassDeclaration) : list (string * string) :=
  flat_map (fun md => omap declared_route (rev (method_decorators md))) (methods d).


Definition socket_decorator (d : MethodDecorator) : bool :=
  match d with
  | Open | Close | Message _ => true
  | _ => false
  end.

(** A controller class: it extends no class, it has no socket lifecycle
    decorator on its methods, and as class decorators one
    [Controller(prefix)], possibly with [ApiTag]s applied before or after
    it. *)
Definition controller_declaration (prefix : string) (d : ClassDeclaration) : Prop :=
  superclass d = None /\
  Forall (fun md => Forall (fun x => socket_decorator x = false) (method_decorators md))
    (methods d) /\
  exists before after,
    class_decorators d = map ApiTag before ++ Controller prefix :: map ApiTag after.

Definition task_class (t : Task) : option nat :=
  match t with
  | SetterTask p => Some (class_id (controllerClass p))
  | ResolveTask => None
  end.

Definition event_class (e : Event) : nat :=
  match e with
  | ParameterAnnotation cls _ | MethodAnnotation cls _ | ClassAnnotation cls
  | Publish cls _ | InitializerRead cls => cls
  end.

(** A route can be published for the class: what is found under
    ["metadata"] for it is an array, or nothing. *)
Definition routable (cls : nat) (st : State) : bool :=
  match metadata_object cls st with
  | Some (_, metadata) => bool_decide (is_Some (elements metadata))
  | None => true
  end.

(** The class is about to be created: no prototype chain and no metadata
    is recorded for it, the callbacks waiting in the tick queue are routes
    of other classes that can be published (none is the [resolve] of a
    suspended initializer), and nothing happened to the class yet. *)
Definition fresh_class (target : ClassLike) (st : State) : Prop :=
  prototypes st !! class_id target = None /\
  (forall key, Reflect_getMetadata key (class_id target) st = None) /\
  Forall (fun t => exists cls, task_class t = Some cls /\ cls <> class_id target /\
                               routable cls st = true)
    (tickQueue st) /\
  Forall (fun e => event_class e <> class_id target) (trace st).

(** Every constructor dependency of the class is a registered service. *)
Definition dependencies_registered (d : ClassDeclaration) (st : State) : Prop :=
  Forall (fun s => is_Some (ServicesMap st !! class_name s)) (default [] (paramtypes d)).

(** What the initializer reads under ["metadata"]: the elements of the
    array found there. *)
Definition published (cls : nat) (st : State) : list Metadata :=
  match metadata_object cls st with
  | Some (_, metadata) => default [] (elements metadata)
  | None => []
  end.

(** Method and path of a published route. *)
Definition route_key (m : Metadata) : HttpMethods * string := (method m, path m).

(** Method and path of a registration. *)
Definition registration (r : Route) : string * string := (route_method r, route_path r).

(** What a program sees of a run: the registrations and the log. *)
Definition observe (o : Outcome Elysia) : option (list (string * string) * list Event) :=
  match o with
  | Returned app st => Some (map registration (routes app), trace st)
  | Exited _ _ | Threw _ _ => None
  end.

(** The waiting callbacks run, in order. *)
Fixpoint publish_all (ps : list HttpMethodMetadataSetterProps) : Boot unit :=
  match ps with
  | [] => mret tt
  | p :: rest => run_task p;; publish_all rest
  end.

(** Between the definition of a class and its initialization the turn may
    end, or not. *)
Definition settle (turn_ended : bool) : Boot unit :=
  if turn_ended then end_of_turn else mret tt.

Definition setters (q : list Task) : list HttpMethodMetadataSetterProps :=
  omap (fun t => match t with SetterTask p => Some p | ResolveTask => None end) q.

(** The keys the decorators of methods and parameters write under. *)
Definition function_keys : list string :=
  ["rawContext"; "body"; "param"; "query"; "customDecorators"; "public"].

(** The routes one pass of the loop registers. *)
Definition registered_by (prefix tag : string) (options : option InitializeOptions)
    (controller : Instance) (m : Metadata) : list Route :=
  routes (register_route prefix tag options (default noop (options ≫= auth))
            (default noop (options ≫= response_hook)) controller new_Elysia m).

(** The custom extractors stored for a method. *)
Definition custom_decorators_of (fn : nat) (st : State) : list CustomDecorator :=
  match Reflect_getMetadata "customDecorators" fn st with
  | Some (MCustom l) => l
  | _ => []
  end.

(** The binding a parameter decorator declares, if it is a custom one. *)
Definition custom_binding (x : nat * ParameterDecorator) : option CustomDecorator :=
  match x with
  | (i, createCustomParameterDecorator h) =>
      Some {| custom_handler := h; custom_index := i |}
  | _ => None
  end.

Definition is_Public (d : MethodDecorator) : bool :=
  match d with
  | Public => true
  | _ => false
  end.

(** The methods of the class are new function objects: they extend
    nothing, and no decorator has run on them yet. *)
Definition fresh_methods (d : ClassDeclaration) (st : State) : Prop :=
  forall md, In md (methods d) ->
    prototypes st !! fn_id (method_fn md) = None /\
    forall key, Reflect_getMetadata key (fn_id (method_fn md)) st = None.

(** ** The order of events *)

(** What happens while a method's decorators are applied. *)
Definition method_events (target : ClassLike) (md : MethodDeclaration) : list Event :=
  map (fun _ => ParameterAnnotation (class_id target) (fn_id (method_fn md)))
      (parameter_decorators md) ++
  map (fun _ => MethodAnnotation (class_id target) (fn_id (method_fn md)))
      (method_decorators md).

Definition publish_event (p : HttpMethodMetadataSetterProps) : Event :=
  Publish (class_id (controllerClass p)) (fn_id (props_handler p)).

(** Every event satisfying [P] comes before every event satisfying [Q]. *)
Definition precedes (P Q : Event -> Prop) (tr : list Event) : Prop :=
  forall i j e1 e2, tr !! i = Some e1 -> tr !! j = Some e2 -> P e1 -> Q e2 -> i < j.

(** A parameter or method annotation of the class. *)
Definition member_annotation (cls : nat) (e : Event) : Prop :=
  match e with
  | ParameterAnnotation c _ | MethodAnnotation c _ => c = cls
  | _ => False
  end.

Definition class_annotation (cls : nat) (e : Event) : Prop :=
  match e with
  | ClassAnnotation c => c = cls
  | _ => False
  end.

(** The publication of a route of the class. *)
Definition publication (cls : nat) (e : Event) : Prop :=
  match e with
  | Publish c _ => c = cls
  | _ => False
  end.

(** The initializer of the class reading its route metadata. *)
Definition initializer_read (cls : nat) (e : Event) : Prop :=
  match e with
  | InitializerRead c => c = cls
  | _ => False
  end.

(** ** Requests *)

(** The phases that ran for a request. *)
Definition phases {A} (x : list Phase * Context * A) : list Phase := fst (fst x).

(** The hook [a] runs first, on the incoming context, and the handler only
    after it, on the context it left, and only when it returned
    [undefined]. *)
Definition pre_handler_first (a : Handler) (r : Route) (c : Context) : Prop :=
  match a c with
  | (c1, Normal VUndefined) =>
      handle_request r c =
        (let '(ran, c2, resp) := run_handler r c1 in (PreHandler :: ran, c2, resp)) /\
      exists rest, phases (handle_request r c) = PreHandler :: HandlerBody :: rest
  | (c1, Normal v) => handle_request r c = ([PreHandler], c1, Single v)
  | (c1, Throw e) => handle_request r c = ([PreHandler], c1, Failed e)
  end.

(** The rule of a route registered for the metadata entry [m] when the
    initializer was given [options]. *)
Definition http_rule (options : option InitializeOptions) (m : Metadata) (r : Route) : Prop :=
  (isPublic m = true ->
     beforeHandle (route_hooks r) = None /\
     forall c, handle_request r c = run_handler r c /\
               ~ In PreHandler (phases (handle_request r c))) /\
  (isPublic m = false ->
     forall a, options ≫= auth = Some a ->
       beforeHandle (route_hooks r) = Some a /\
       forall c, pre_handler_first a r c).

(** The same rule for a socket registered by a class declared public or
    not. *)
Definition ws_rule (options : option InitializeOptions) (isPublic_ : bool) (r : WsRoute) : Prop :=
  (isPublic_ = true ->
     ws_beforeHandle r = GuardFalse /\
     forall c, ~ In PreHandler (phases (ws_connect r c))) /\
  (isPublic_ = false ->
     forall a, options ≫= auth = Some a ->
       ws_beforeHandle r = GuardHandler a /\
       forall c, exists rest, phases (ws_connect r c) = PreHandler :: rest /\
                 (In OpenHook rest -> snd (a c) = Normal VUndefined)).

(** What a request to the route registered at [path] gives: the phases
    that ran, the status set, and the response, returned or handed to the
    error hook, when it is not a stream. *)
Definition request_to (app : Elysia) (p : string) (c : Context)
    : option (list Phase * option Z * option (Completion Value)) :=
  match filter (fun r => route_path r = p) (routes app) with
  | r :: _ =>
      let '(ran, c', resp) := handle_request r c in
      Some (ran, set_status c',
            match resp with
            | Single v => Some (Normal v)
            | Failed e => Some (Throw e)
            | Stream _ => None
            end)
  | [] => None
  end.

(** ** Services *)

(** The services map holds an instance of the class. *)
Definition holds_instance_of (st : State) (target : ClassLike) : Prop :=
  exists key services, ServicesMap st !! key = Some (NewInstance target services).

(** Two different classes with the same name. *)
Definition first_service : ClassLike := {| class_id := 1; class_name := "UserService" |}.

Definition namesake_service : ClassLike := {| class_id := 2; class_name := "UserService" |}.

Definition one_service_state : State :=
  set_services {[ "UserService" := NewInstance first_service [] ]} initial_state.

(** A service class, declared with [@Service()] only. *)
Definition service_declaration (target : ClassLike) : ClassDeclaration :=
  {| declared_class := target; superclass := None; methods := []; paramtypes := None;
     class_decorators := [Service] |}.

(** The state after one service class was defined. *)
Definition one_service_declared : State :=
  outcome_state (declare_all [service_declaration first_service] initial_state).

Definition sample_module : ClassLike := {| class_id := 20; class_name := "AppModule" |}.

(** ** A sample controller *)

(** A controller class under prefix ["users"]: a public GET ["/a"] taking
    the body, and a POST ["b"]. *)
Definition sample_class : ClassLike := {| class_id := 10; class_name := "UserController" |}.

Definition sample_declaration : ClassDeclaration :=
  {| declared_class := sample_class;
     superclass := None;
     methods :=
       [{| method_fn := idle_method 11;
           parameter_decorators := [(0, Body None)];
           method_decorators := [Get (Some "/a") None; Public] |};
        {| method_fn := idle_method 12;
           parameter_decorators := [];
           method_decorators := [Post (Some "b") None] |}];
     paramtypes := None;
     class_decorators := [Controller "users"] |}.

(** A controller class under prefix ["base"] with one route, GET ["/a"],
    and a controller class under prefix ["sub"] that extends it and
    declares one route of its own, GET ["/b"]. *)
Definition base_class : ClassLike := {| class_id := 50; class_name := "BaseController" |}.

Definition derived_class : ClassLike := {| class_id := 60; class_name := "SubController" |}.

Definition base_declaration : ClassDeclaration :=
  {| declared_class := base_class;
     superclass := None;
     methods :=
       [{| method_fn := idle_method 51;
           parameter_decorators := [];
           method_decorators := [Get (Some "/a") None] |}];
     paramtypes := None;
     class_decorators := [Controller "base"] |}.

Definition derived_declaration : ClassDeclaration :=
  {| declared_class := derived_class;
     superclass := Some base_class;
     methods :=
       [{| method_fn := idle_method 61;
           parameter_decorators := [];
           method_decorators := [Get (Some "/b") None] |}];
     paramtypes := None;
     class_decorators := [Controller "sub"] |}.

(** A controller class with one method under two route decorators: in
    the text [@Get("/a")] stands above [@Post("/b")], which is therefore
    applied first. *)
Definition stacked_declaration : ClassDeclaration :=
  {| declared_class := sample_class;
     superclass := None;
     methods :=
       [{| method_fn := idle_method 11;
           parameter_decorators := [];
           method_decorators := [Post (Some "/b") None; Get (Some "/a") None] |}];
     paramtypes := None;
     class_decorators := [Controller "users"] |}.

(** The state after the sample class was defined and the turn ended. *)
Definition sample_published_state : State :=
  outcome_state ((declare_class sample_declaration;; end_of_turn) initial_state).

(** Options carrying the authentication hook, requiring the given roles. *)
Definition sample_options_for (roles : option (list string)) : option InitializeOptions :=
  Some {| auth := Some (onHandleAuthentication roles); response_hook := None |}.

Definition sample_options : option InitializeOptions := sample_options_for None.

(** The application the sample class gives with the authentication hook
    configured. *)
Definition sample_app_for (roles : option (list string)) : Elysia :=
  outcome_app
    (Controller_initializeController "/users" sample_class new_Elysia
       (sample_options_for roles) sample_published_state).

Definition sample_app : Elysia := sample_app_for None.

(** ** The bearer token *)

(** [s.includes(sep)] *)
Fixpoint includes (sep s : string) : bool :=
  String.prefix sep s ||
  match s with
  | EmptyString => false
  | String _ rest => includes sep rest
  end.

(** What the hook answers once the verifier has said [verdict], when no
    role is required. *)
Definition verdict_outcome (c : Context) (verdict : option JwtPayload)
    : Context * Completion Value :=
  match verdict with
  | Some user => (with_user user c, Normal VUndefined)
  | None => (with_status 401 c, Normal UNAUTHORIZED_MESSAGE)
  end.

(** ** The length of an argument list *)

(** One more than the largest index a binding of the handler claims, [0]
    when there is no binding. *)
Definition arity (m : Metadata) : nat := list_max (map S (binding_indices m)).

(** An extractor that refuses the request, between two that would not. *)
Definition rejecting_extractor : Handler :=
  fun c => (with_status 400 c, Throw (VStr "bad")).

Definition failing_metadata : Metadata :=
  metadata_with None None None None
    [{| custom_handler := constant_extractor (VStr "first"); custom_index := 0 |};
     {| custom_handler := rejecting_extractor; custom_index := 1 |};
     {| custom_handler := constant_extractor (VStr "third"); custom_index := 2 |}].

(** ** Dependency injection *)

(** The service registered under the name of class [s] is [i]. *)
Definition resolves_to (st : State) (s : ClassLike) (i : Instance) : Prop :=
  ServicesMap st !! class_name s = Some i.

Definition registered (st : State) (s : ClassLike) : Prop :=
  is_Some (ServicesMap st !! class_name s).

(** The instance an initializer builds for a class whose dependencies are
    all registered: the registered instances, in the order of the
    constructor's parameter types. *)
Definition controller_instance (target : ClassLike) (st : State) : Instance :=
  NewInstance target
    (omap (fun s => ServicesMap st !! class_name s) (paramtypes_of target st)).

(** The label the controller initializer reads. *)
Definition tag_of (cls : nat) (st : State) : string :=
  match Reflect_getMetadata "tag" cls st with
  | Some (MString t) => t
  | _ => "default"
  end.

(** Nothing but route callbacks waits in the tick queue, each of a class
    for which a route can be published. *)
Definition only_setters (st : State) : Prop :=
  Forall (fun t => exists cls, task_class t = Some cls /\ routable cls st = true)
    (tickQueue st).

(** The state once the callbacks waiting in the tick queue have run. *)
Definition after_ticks (st : State) : State :=
  outcome_state (publish_all (setters (tickQueue st)) st).

(** ** What [create] builds *)

(** The options [create] hands to every initializer. *)
Definition initialize_options (options : option ElysiaCreateOptions)
    : option InitializeOptions :=
  Some {| auth := options ≫= create_auth; response_hook := options ≫= create_response |}.

(** The middleware the options ask for, in the order [create] installs it. *)
Definition installed_middleware (options : option ElysiaCreateOptions) : list Middleware :=
  (if default false (cors <$> options) then [CorsMiddleware] else []) ++
  map Plugin (default [] (options ≫= plugins)) ++
  (if default false (swagger <$> options) then [SwaggerMiddleware] else []).

Definition initializer_target (i : Initializer) : ClassLike :=
  match i with
  | ControllerInitializer _ target | WebsocketInitializer _ _ target => target
  end.

(** The initializer finds something it can loop over: a controller's,
    an array or nothing under ["metadata"]; a socket's reads properties
    only. *)
Definition readable (i : Initializer) (st : State) : Prop :=
  match i with
  | ControllerInitializer _ target => routable (class_id target) st = true
  | WebsocketInitializer _ _ _ => True
  end.

(** The class carries an initializer whose dependencies are registered
    and which finds something it can loop over. *)
Definition initializable (st : State) (c : ClassLike) : Prop :=
  exists i,
    Reflect_getMetadata "initialize" (class_id c) st = Some (MInitialize i) /\
    Forall (registered st) (paramtypes_of (initializer_target i) st) /\
    readable i st.

(** The routes the initializer of a class registers, given what is
    published in [st]: none when the class is a socket class. *)
Definition routes_of (options : option InitializeOptions) (st : State) (c : ClassLike)
    : list Route :=
  match Reflect_getMetadata "initialize" (class_id c) st with
  | Some (MInitialize (ControllerInitializer prefix target)) =>
      flat_map (registered_by prefix (tag_of (class_id target) st) options
                  (controller_instance target st))
        (published (class_id target) st)
  | _ => []
  end.

(** The path of the socket the initializer of a class registers. *)
Definition socket_paths_of (st : State) (c : ClassLike) : list string :=
  match Reflect_getMetadata "initialize" (class_id c) st with
  | Some (MInitialize (WebsocketInitializer wspath _ _)) => [wspath]
  | _ => []
  end.

(** A class no decorator was applied to. *)
Definition plain_class : ClassLike := {| class_id := 30; class_name := "Plain" |}.

(** A module class, declared with [@Module({ controllers })] only. *)
Definition module_declaration (m : ClassLike) (controllers : list ClassLike)
    : ClassDeclaration :=
  {| declared_class := m; superclass := None; methods := []; paramtypes := None;
     class_decorators := [Module_ controllers] |}.

(** The sample controller and a module listing it, defined one after the
    other. *)
Definition sample_program : list ClassDeclaration :=
  [sample_declaration; module_declaration sample_module [sample_class]].

Definition sample_program_state : State :=
  outcome_state (declare_all sample_program initial_state).

(** The sample controller, and a module that lists it and then a class no
    decorator was applied to. *)
Definition unfinished_program_state : State :=
  outcome_state
    (declare_all [sample_declaration;
                  module_declaration sample_module [sample_class; plain_class]]
       initial_state).

(** The application [create] has built when it comes to the controllers
    of the module: the middleware and the error hook installed. *)
Definition configured_app (options : option ElysiaCreateOptions) : Elysia :=
  let app := new_Elysia in
  let app := if default false (cors <$> options) then app_use CorsMiddleware app else app in
  let app := foldl (fun a p => app_use (Plugin p) a) app (default [] (options ≫= plugins)) in
  let app := if default false (swagger <$> options) then app_use SwaggerMiddleware app else app in
  match options ≫= error with Some h => app_onError h app | None => app end.

(** Options asking for cors, two plugins and swagger. *)
Definition sample_create_options : option ElysiaCreateOptions :=
  Some {| cors := true; swagger := true; create_auth := None; create_response := None;
          error := None; plugins := Some [1; 2]; beforeStart := None |}.

(** ** How a route is configured *)

(** The method of the route is a generator function. *)
Definition streaming (m : Metadata) : bool :=
  match fn_body (handler m) with
  | GeneratorFunction _ => true
  | PlainFunction _ => false
  end.

(** A streaming route has no post-handler; any other route has the
    configured response hook (a no-op when none is configured), which runs
    after a handler that returned. *)
Definition post_handler_rule (options : option InitializeOptions) (m : Metadata) (r : Route)
    : Prop :=
  (streaming m = true ->
     afterHandle (route_hooks r) = None /\
     (exists w, route_handler r = AsyncGeneratorFunction w) /\
     forall c, ~ In PostHandler (phases (handle_request r c))) /\
  (streaming m = false ->
     afterHandle (route_hooks r) = Some (default noop (options ≫= response_hook)) /\
     exists h, route_handler r = AsyncFunction h /\
       forall c c2 v, h c = (c2, Normal v) ->
         phases (run_handler r c) = [HandlerBody; PostHandler]).

(** The route's documentation asks for a bearer token. *)
Definition announces_bearer (r : Route) : Prop :=
  detail (route_hooks r) = Security ["BearerAuth"].

(** When the documentation of a route asks for a bearer token: exactly
    when the route has no documented detail of its own, is not public, and
    an authentication hook is configured; that hook is then the route's
    pre-handler. *)
Definition security_rule (options : option InitializeOptions) (m : Metadata) (r : Route)
    : Prop :=
  (announces_bearer r <->
   detailSchema m = None /\ isPublic m = false /\ is_Some (options ≫= auth)) /\
  (announces_bearer r ->
   exists a, options ≫= auth = Some a /\ beforeHandle (route_hooks r) = Some a) /\
  (forall d, detailSchema m = Some d -> detail (route_hooks r) = Documented d) /\
  (detailSchema m = None -> ~ announces_bearer r -> detail (route_hooks r) = Security []).

(** ** What the decorators of a method declare *)









(** ** Socket classes *)














(** ** Classes that share nothing *)


(** ** One instance for all the routes of a controller *)

(** The route [r] serves the published entry [m] with the method bound to
    [controller]: the entry's method string, its path under the prefix, the
    wrapped method as handler, the schemas of the entry's body and query
    bindings as validation schemas, and the entry's response schemas. *)
Definition serves (prefix : string) (controller : Instance) (m : Metadata) (r : Route)
    : Prop :=
  route_method r = method_string (method m) /\
  route_path r = prefix +:+ path m /\
  route_handler r = getHandler m (bind (handler m) controller) /\
  hooks_body (route_hooks r) = bodySchema m ≫= schema /\
  hooks_query (route_hooks r) = querySchema m ≫= schema /\
  response (route_hooks r) = responseSchema m.

(** * Properties *)

(** ** The exception hierarchy *)

(** C10: an [HttpException] built with a falsy status ([undefined], [0],
    [NaN]) has status 500, and each subclass built without an argument has
    its fixed status and default message. *)
Theorem HttpException_defaults :
  (forall msg st, falsy_status st -> status (HttpException msg st) = Num 500) /\
  (status (ForbiddenException None) = Num 403 /\
   message (ForbiddenException None) = "Forbidden") /\
  (status (BadRequestException None) = Num 400 /\
   message (BadRequestException None) = "Bad Request") /\
  (status (UnauthorizedException None) = Num 401 /\
   message (UnauthorizedException None) = "Unauthorized") /\
  (status (NotFoundException None) = Num 404 /\
   message (NotFoundException None) = "Not Found") /\
  (status (MethodNotAllowedException None) = Num 405 /\
   message (MethodNotAllowedException None) = "Method Not Allowed").
Proof.
  split; [| repeat split].
  intros msg st [-> | [-> | ->]]; reflexivity.
Qed.

Lemma HttpException_defaults_witness :
  status (HttpException "boom" (Some (Num 0))) = Num 500.
Proof.
  apply (proj1 HttpException_defaults). right; left; reflexivity.
Defined.

(** A truthy status is kept, and a message given to a subclass replaces the
    default one while the status stays fixed. *)
Lemma HttpException_keeps_truthy_status msg z :
  z <> 0%Z -> status (HttpException msg (Some (Num z))) = Num z.
Proof.
  intros Hz. unfold HttpException, HttpException_ctor; simpl.
  destruct (Z.eqb_spec z 0); [contradiction | reflexivity].
Qed.

Lemma subclass_name_and_message msg :
  name (NotFoundException (Some msg)) = "NotFoundException" /\
  message (NotFoundException (Some msg)) = msg /\
  status (NotFoundException (Some msg)) = Num 404.
Proof. repeat split. Qed.

(** ** The authentication hook *)

Example split_bearer : split "Bearer " "Bearer xyz" = [""; "xyz"].
Proof. reflexivity. Qed.

Example split_without_prefix : bearer "xyz" = None.
Proof. reflexivity. Qed.

(** C8: on a context without a [jwt] property the hook checks nothing,
    leaves the context as it is and returns [undefined], whatever the
    Authorization header and the required roles; so a request to a route
    that has the hook as pre-handler goes on to the handler, on the
    unchanged context. *)
Theorem onHandleAuthentication_without_jwt roles c :
  jwt c = None ->
  onHandleAuthentication roles c = (c, Normal VUndefined) /\
  forall r, beforeHandle (route_hooks r) = Some (onHandleAuthentication roles) ->
    handle_request r c =
      (let '(ran, c', resp) := run_handler r c in (PreHandler :: ran, c', resp)).
Proof.
  intros H.
  assert (onHandleAuthentication roles c = (c, Normal VUndefined)) as Hout.
  { unfold onHandleAuthentication. rewrite H. reflexivity. }
  split; [exact Hout |].
  intros r Hr. unfold handle_request. rewrite Hr, Hout. reflexivity.
Qed.

Lemma onHandleAuthentication_without_jwt_witness :
  onHandleAuthentication (Some ["admin"]) bare_context = (bare_context, Normal VUndefined).
Proof.
  apply (onHandleAuthentication_without_jwt (Some ["admin"]) bare_context). reflexivity.
Defined.

(** C7, as stated, fails: a request without an Authorization header is not
    answered with the unauthorized response when the context carries no
    [jwt] verifier. *)
Lemma unauthorized_needs_jwt :
  authorization bare_context = None /\
  ~ answers_unauthorized bare_context (onHandleAuthentication None bare_context).
Proof. split; [reflexivity | intros H; discriminate H]. Qed.

(** C7, amended: on a context that carries a [jwt] verifier, a request
    whose Authorization header is absent or empty, or whose bearer token the
    verifier rejects, is answered by the hook itself with status 401 and
    the unauthorized object; a request whose token is accepted for a user
    whose role is none of the required ones sets status 403 and throws the
    forbidden object. *)
Theorem onHandleAuthentication_with_jwt roles c verify :
  jwt c = Some verify ->
  (token_missing (authorization c) = true ->
   answers_unauthorized c (onHandleAuthentication roles c)) /\
  (forall token, authorization c = Some token -> verify (bearer token) = None ->
   answers_unauthorized c (onHandleAuthentication roles c)) /\
  (forall token user rs,
     authorization c = Some token -> token <> "" ->
     verify (bearer token) = Some user -> roles = Some rs ->
     (forall r, In r rs -> payload_role user <> Some r) ->
     onHandleAuthentication roles c =
       (with_status 403 (with_user user c), Throw FORBIDDEN_MESSAGE)).
Proof.
  intros Hjwt. unfold answers_unauthorized, onHandleAuthentication. rewrite Hjwt.
  split; [| split].
  - intros ->. reflexivity.
  - intros token Ht Hv. rewrite Ht. cbn [token_missing default from_option id].
    destruct (String.eqb token ""); [reflexivity |].
    fold (bearer token). rewrite Hv. reflexivity.
  - intros token user rs Ht Hne Hv -> Hrole. rewrite Ht.
    cbn [token_missing default from_option id].
    destruct (String.eqb_spec token ""); [contradiction |].
    fold (bearer token). rewrite Hv. cbv zeta.
    assert (existsb (role_is user) rs = false) as ->; [| reflexivity].
    apply not_true_is_false. intros Hex.
    apply existsb_exists in Hex as (r & Hin & Hr).
    unfold role_is in Hr. destruct (payload_role user) as [r' |] eqn:E; [| discriminate].
    apply String.eqb_eq in Hr. subst. exact (Hrole r Hin eq_refl).
Qed.

Lemma onHandleAuthentication_with_jwt_witness :
  answers_unauthorized (bearer_request "xyz")
    (onHandleAuthentication None (bearer_request "xyz")) /\
  onHandleAuthentication (Some ["admin"]) (bearer_request "good") =
    (with_status 403
       (with_user {| payload_id := Some "1"; payload_email := None;
                     payload_role := Some "user"; payload_iat := None;
                     payload_exp := None |} (bearer_request "good")),
     Throw FORBIDDEN_MESSAGE).
Proof.
  split.
  - apply (proj1 (proj2 (onHandleAuthentication_with_jwt None (bearer_request "xyz")
                           sample_verify eq_refl)) ("Bearer xyz")); reflexivity.
  - apply (proj2 (proj2 (onHandleAuthentication_with_jwt (Some ["admin"])
                           (bearer_request "good") sample_verify eq_refl))
             "Bearer good" _ ["admin"]); try reflexivity.
    + discriminate.
    + intros r [<- | []]. discriminate.
Defined.

(** An accepted token with one of the required roles, or with no roles
    required, lets the request through with the user stored. *)
Lemma onHandleAuthentication_accepts c verify token user :
  jwt c = Some verify -> authorization c = Some token -> token <> "" ->
  verify (bearer token) = Some user ->
  onHandleAuthentication None c = (with_user user c, Normal VUndefined) /\
  (forall rs r, In r rs -> payload_role user = Some r ->
     onHandleAuthentication (Some rs) c = (with_user user c, Normal VUndefined)).
Proof.
  intros Hjwt Ht Hne Hv. unfold onHandleAuthentication. rewrite Hjwt, Ht.
  cbn [token_missing default from_option id].
  destruct (String.eqb_spec token ""); [contradiction |].
  fold (bearer token). rewrite Hv. split; [reflexivity |].
  intros rs r Hin Hr. cbv zeta.
  assert (existsb (role_is user) rs = true) as ->; [| reflexivity].
  apply existsb_exists. exists r. split; [exact Hin |].
  unfold role_is. rewrite Hr. apply String.eqb_refl.
Qed.

(** ** Arrays with holes *)

Lemma array_get_set_eq a i v : array_get (array_set a i v) i = Some v.
Proof.
  unfold array_get, array_set. case_decide as Hlt.
  - rewrite list_lookup_insert_eq by exact Hlt. reflexivity.
  - rewrite lookup_app_r by lia. rewrite lookup_app_r; rewrite length_replicate; [| lia].
    replace (i - length a - (i - length a)) with 0 by lia. reflexivity.
Qed.

Lemma array_get_set_ne a i j v : i <> j -> array_get (array_set a i v) j = array_get a j.
Proof.
  intros Hne. unfold array_get, array_set. case_decide as Hlt.
  - rewrite list_lookup_insert_ne by exact Hne. reflexivity.
  - destruct (decide (j < length a)) as [Hj | Hj].
    + rewrite lookup_app_l by exact Hj. reflexivity.
    + rewrite (lookup_ge_None_2 a j) by lia.
      rewrite lookup_app_r by lia.
      destruct (decide (j - length a < i - length a)) as [Hk | Hk].
      * rewrite lookup_app_l by (rewrite length_replicate; exact Hk).
        rewrite lookup_replicate_2 by exact Hk. reflexivity.
      * rewrite lookup_app_r; rewrite length_replicate; [| lia].
        destruct (j - length a - (i - length a)) as [| n] eqn:E; [lia | reflexivity].
Qed.

Lemma array_set_length a i v : length (array_set a i v) = Nat.max (length a) (S i).
Proof.
  unfold array_set. case_decide.
  - rewrite length_insert. lia.
  - rewrite !length_app, length_replicate. simpl. lia.
Qed.

Lemma apply_writes_app a ws1 ws2 :
  apply_writes a (ws1 ++ ws2) = apply_writes (apply_writes a ws1) ws2.
Proof. apply foldl_app. Qed.

(** After a sequence of writes a slot holds what was written to it last,
    and what it held before when nothing was. *)
Lemma array_get_apply_writes ws : forall a i,
  array_get (apply_writes a ws) i =
    match last_write ws i with
    | Some v => Some v
    | None => array_get a i
    end.
Proof.
  induction ws as [| [j v] ws IH]; intros a i; [reflexivity |].
  change (apply_writes a ((j, v) :: ws)) with (apply_writes (array_set a j v) ws).
  rewrite IH. simpl. destruct (last_write ws i); [reflexivity |].
  case_decide as E.
  - subst. apply array_get_set_eq.
  - apply array_get_set_ne. exact E.
Qed.




(** ** getParameters *)

(** The loop over the custom decorators makes exactly the custom writes. *)
Lemma runCustomDecorators_writes ds : forall ps c,
  runCustomDecorators ds ps c =
    match custom_writes ds c with
    | (c', Normal ws) => (c', Normal (apply_writes ps ws))
    | (c', Throw e) => (c', Throw e)
    end.
Proof.
  induction ds as [| d ds IH]; intros ps c; simpl; [reflexivity |].
  destruct (custom_handler d c) as [c' [v | e]]; [| reflexivity].
  rewrite IH. destruct (custom_writes ds c') as [c'' [ws | e]]; reflexivity.
Qed.

(** [getParameters] makes the fixed writes, then the custom ones. *)
Lemma getParameters_writes m c :
  getParameters m c =
    match custom_writes (customDecorators m) c with
    | (c', Normal ws) => (c', Normal (apply_writes [] (static_writes m c ++ ws)))
    | (c', Throw e) => (c', Throw e)
    end.
Proof.
  unfold getParameters. rewrite runCustomDecorators_writes.
  destruct (custom_writes (customDecorators m) c) as [c' [ws | e]]; [| reflexivity].
  rewrite apply_writes_app. do 2 f_equal. unfold static_writes.
  destruct (rawContext m), (bodySchema m), (querySchema m), (paramSlug m); reflexivity.
Qed.

Lemma custom_writes_indices ds : forall c c' ws,
  custom_writes ds c = (c', Normal ws) -> map fst ws = map custom_index ds.
Proof.
  induction ds as [| d ds IH]; intros c c' ws; simpl.
  - intros [= <- <-]. reflexivity.
  - destruct (custom_handler d c) as [c1 [v | e]]; [| discriminate].
    destruct (custom_writes ds c1) as [c2 [ws' | e]] eqn:E; [| discriminate].
    intros [= <- <-]. simpl. f_equal. eapply IH, E.
Qed.




(** A body binding and a custom extractor at the same index: the
    extractor's result is what the handler receives. *)
Example getParameters_clash :
  getParameters clashing_metadata sample_request =
    (sample_request, Normal [Some (ArgValue (VStr "custom"))]).
Proof. reflexivity. Qed.

(** Among the fixed bindings the later statement wins: query over body. *)
Example getParameters_query_over_body :
  getParameters
    (metadata_with (Some 0) (Some {| schema := None; index := 0 |})
       (Some {| schema := None; index := 0 |}) None [])
    sample_request =
  (sample_request, Normal [Some (ArgValue (VStr "query"))]).
Proof. reflexivity. Qed.



(** Bindings at positions 0, 2 and 3: position 1 is a hole, the others hold
    the body, the path segment and the extractor's result. *)
Example getParameters_sparse :
  getParameters sparse_metadata sample_request =
    (sample_request,
     Normal [Some (ArgValue (VStr "body")); None;
             Some (ArgValue (VStr "42")); Some (ArgValue (VStr "custom"))]).
Proof. vm_compute. reflexivity. Qed.


(** ** Streaming handlers *)

(** Once a consumer has seen a generator finish, asking more changes
    nothing. *)
Lemma consume_from_finished_more G : forall fuel s vs k,
  consume_from G fuel s = (vs, Finished) ->
  consume_from G (fuel + k) s = (vs, Finished).
Proof.
  induction fuel as [| fuel IH]; intros s vs k; simpl; [discriminate |].
  destruct (gen_next G s) as [v s' | | e]; try discriminate.
  - destruct (consume_from G fuel s') as [vs' e'] eqn:E. intros [= <- ->].
    rewrite (IH _ _ k E). reflexivity.
  - intros [= <-]. reflexivity.
Qed.

Section Forwarding.

Variable inner : Generator.

(** What the consumer of the forwarding loop receives, from what a consumer
    of the inner generator would. *)
Lemma forward_consume_from : forall fuel s vs e,
  consume_from inner fuel s = (vs, e) ->
  match e with
  | Finished => consume_from (forward inner) fuel (Some s) = (vs, Finished)
  | Pending => consume_from (forward inner) fuel (Some s) = (vs, Pending)
  | Raised error =>
      consume_from (forward inner) (S fuel) (Some s) = (vs ++ [error], Finished)
  end.
Proof.
  induction fuel as [| fuel IH]; intros s vs e.
  - simpl. intros [= <- <-]. reflexivity.
  - change (consume_from inner (S fuel) s) with
      (match gen_next inner s with
       | GYield v s' => let (vs, e) := consume_from inner fuel s' in (v :: vs, e)
       | GReturn => ([], Finished)
       | GThrow e => ([], Raised e)
       end).
    assert (forall n, consume_from (forward inner) (S n) (Some s) =
      match gen_next inner s with
      | GYield v s' => let (vs, e) := consume_from (forward inner) n (Some s') in (v :: vs, e)
      | GReturn => ([], Finished)
      | GThrow er => let (vs, e) := consume_from (forward inner) n None in (er :: vs, e)
      end) as Hstep.
    { intros n. simpl. destruct (gen_next inner s); reflexivity. }
    destruct (gen_next inner s) as [v s' | | error] eqn:Hs.
    + destruct (consume_from inner fuel s') as [vs' e'] eqn:E. intros [= <- <-].
      specialize (IH _ _ _ E). destruct e'; rewrite Hstep, IH; reflexivity.
    + intros [= <- <-]. rewrite Hstep. reflexivity.
    + intros [= <- <-]. rewrite Hstep. reflexivity.
Qed.

(** The forwarding loop never ends by raising. *)
Lemma forward_never_raises : forall fuel w vs e,
  consume_from (forward inner) fuel w <> (vs, Raised e).
Proof.
  induction fuel as [| fuel IH]; intros w vs e; [discriminate |].
  destruct w as [s |]; simpl.
  - destruct (gen_next inner s) as [v s' | | error].
    + destruct (consume_from (forward inner) fuel (Some s')) as [vs' e'] eqn:E.
      intros [= <- ->]. exact (IH _ _ _ E).
    + discriminate.
    + destruct (consume_from (forward inner) fuel None) as [vs' e'] eqn:E.
      intros [= <- ->]. exact (IH _ _ _ E).
  - discriminate.
Qed.

End Forwarding.

(** C5: the wrapped streaming handler hands every value of the handler's
    generator on to the caller, one unit each; when the iteration raises,
    the thrown value is the next unit and the sequence then ends normally;
    the wrapped sequence never raises.  A handler that raises while
    producing its second value gives exactly two units, the first value and
    the error. *)
Theorem streaming_handler_forwards m controller g c c1 args :
  fn_body (handler m) = GeneratorFunction g ->
  getParameters m c = (c1, Normal args) ->
  exists w,
    getHandler m (bind (handler m) controller) = AsyncGeneratorFunction w /\
    (forall fuel vs, consume (g controller args c1) fuel = (vs, Finished) ->
       consume (w c) fuel = (vs, Finished)) /\
    (forall fuel vs, consume (g controller args c1) fuel = (vs, Pending) ->
       consume (w c) fuel = (vs, Pending)) /\
    (forall fuel vs error k, consume (g controller args c1) fuel = (vs, Raised error) ->
       consume (w c) (S fuel + k) = (vs ++ [error], Finished)) /\
    (forall fuel vs error, consume (w c) fuel <> (vs, Raised error)) /\
    (forall v s error k,
       gen_next (g controller args c1) (gen_start (g controller args c1)) = GYield v s ->
       gen_next (g controller args c1) s = GThrow error ->
       consume (w c) (3 + k) = ([v; error], Finished)).
Proof.
  intros Hbody Hargs. unfold bind. rewrite Hbody. cbn [getHandler].
  eexists. split; [reflexivity |]. cbv beta. rewrite Hargs.
  set (inner := g controller args c1).
  assert (forall fuel vs error k, consume inner fuel = (vs, Raised error) ->
            consume (forward inner) (S fuel + k) = (vs ++ [error], Finished)) as Hraise.
  { intros fuel vs error k H. apply consume_from_finished_more.
    exact (forward_consume_from inner _ _ _ _ H). }
  repeat split.
  - intros fuel vs H. exact (forward_consume_from inner _ _ _ _ H).
  - intros fuel vs H. exact (forward_consume_from inner _ _ _ _ H).
  - exact Hraise.
  - intros fuel vs error. apply forward_never_raises.
  - intros v s error k Hfirst Hsecond.
    apply (Hraise 2 [v] error k). unfold consume. simpl. rewrite Hfirst, Hsecond.
    reflexivity.
Qed.

Lemma streaming_handler_forwards_witness :
  exists w,
    getHandler streaming_metadata (bind (handler streaming_metadata) sample_controller) =
      AsyncGeneratorFunction w /\
    consume (w sample_request) 3 = ([VStr "first"; VStr "boom"], Finished).
Proof.
  destruct (streaming_handler_forwards streaming_metadata sample_controller
              (fun _ _ _ => failing_stream) sample_request sample_request []
              eq_refl eq_refl) as (w & Hw & _ & _ & _ & _ & Htwo).
  exists w. split; [exact Hw |].
  exact (Htwo (VStr "first") 1 (VStr "boom") 0 eq_refl eq_refl).
Defined.

(** When a custom extractor throws before the handler is called, the error
    is the only unit. *)
Lemma streaming_handler_extractor_throws m g c c1 error k :
  getParameters m c = (c1, Throw error) ->
  exists w, getHandler m (BoundGenerator g) = AsyncGeneratorFunction w /\
            consume (w c) (2 + k) = ([error], Finished).
Proof.
  intros H. eexists. split; [reflexivity |]. cbv beta. rewrite H. reflexivity.
Qed.

(** A handler that is not a generator is called once with the extracted
    arguments and its result is the result. *)
Lemma plain_handler_calls_once m controller f c c1 args :
  fn_body (handler m) = PlainFunction f ->
  getParameters m c = (c1, Normal args) ->
  exists h, getHandler m (bind (handler m) controller) = AsyncFunction h /\
            h c = f controller args c1.
Proof.
  intros Hbody Hargs. unfold bind. rewrite Hbody. eexists. split; [reflexivity |].
  cbv beta. rewrite Hargs. reflexivity.
Qed.

(** ** Registering a service *)

Lemma apply_Service_fresh target st :
  ServicesMap st !! class_name target = None ->
  apply_Service target st =
    Returned tt (set_services (<[class_name target := NewInstance target []]> (ServicesMap st)) st).
Proof.
  intros H. unfold apply_Service. boot_steps.
  rewrite H. rewrite bool_decide_eq_false_2; [reflexivity |].
  intros [x Hx]. discriminate.
Qed.

Lemma apply_Service_duplicate target st :
  is_Some (ServicesMap st !! class_name target) ->
  apply_Service target st =
    Exited (-1) (console_error ("Service " +:+ class_name target +:+ " already exists") st).
Proof.
  intros H. unfold apply_Service. boot_steps.
  rewrite bool_decide_eq_true_2 by exact H. reflexivity.
Qed.

(** ** Frame properties of the state *)

(** *** Reading along the prototype chain *)

Lemma inherited_other_key r o key' v key chain :
  key <> key' -> inherited (<[(o, key') := v]> r) key chain = inherited r key chain.
Proof.
  intros Hk. induction chain as [| x chain IH]; [reflexivity |].
  simpl. rewrite lookup_insert_ne by (intros [= _ E]; congruence).
  rewrite IH. reflexivity.
Qed.

(** A definition on one object is what a reader finds, or changes nothing
    for that reader. *)
Lemma inherited_insert r c key v chain :
  inherited (<[(c, key) := v]> r) key chain = Some v \/
  inherited (<[(c, key) := v]> r) key chain = inherited r key chain.
Proof.
  induction chain as [| x chain IH]; [right; reflexivity |].
  simpl. destruct (decide (x = c)) as [-> | Hne].
  - rewrite lookup_insert_eq. left. reflexivity.
  - rewrite lookup_insert_ne by (intros [= E]; congruence).
    destruct (r !! (x, key)); [right; reflexivity | exact IH].
Qed.

Lemma getMetadata_define_other_key key key' v id' id st :
  key <> key' ->
  Reflect_getMetadata key id (Reflect_defineMetadata key' v id' st) =
  Reflect_getMetadata key id st.
Proof.
  intros Hk. unfold Reflect_getMetadata, Reflect_defineMetadata, prototype_chain.
  cbn [registry prototypes set_registry]. apply inherited_other_key, Hk.
Qed.

Lemma getMetadata_define_own key v id st :
  Reflect_getMetadata key id (Reflect_defineMetadata key v id st) = Some v.
Proof.
  unfold Reflect_getMetadata, Reflect_defineMetadata. cbn [registry set_registry inherited].
  rewrite lookup_insert_eq. reflexivity.
Qed.

(** An object that extends nothing has its own metadata only. *)
Lemma getMetadata_own key id st :
  prototypes st !! id = None -> Reflect_getMetadata key id st = registry st !! (id, key).
Proof.
  intros H. unfold Reflect_getMetadata, prototype_chain. rewrite H. simpl.
  destruct (registry st !! (id, key)); reflexivity.
Qed.

Lemma getMetadata_define_other key v id' id st :
  prototypes st !! id = None -> id' <> id ->
  Reflect_getMetadata key id (Reflect_defineMetadata key v id' st) =
  Reflect_getMetadata key id st.
Proof.
  intros Hp Hne. rewrite !getMetadata_own by exact Hp.
  unfold Reflect_defineMetadata. cbn [registry set_registry].
  apply lookup_insert_ne. intros [= E]. congruence.
Qed.

Lemma getMetadata_ext key id st st' :
  registry st' = registry st -> prototypes st' = prototypes st ->
  Reflect_getMetadata key id st' = Reflect_getMetadata key id st.
Proof.
  intros Hr Hp. unfold Reflect_getMetadata, prototype_chain. rewrite Hr, Hp. reflexivity.
Qed.

(** *** One callback *)

(** The state a callback that returns leaves: the array found for its
    class, or a new one, holds one more entry and is the class's own
    metadata. *)
Definition pushed (p : HttpMethodMetadataSetterProps) (o : nat) (props : SocketMetadata)
    (st : State) : State :=
  Reflect_defineMetadata "metadata" (MObject o) (class_id (controllerClass p))
    (set_object o
       {| elements := Some (published (class_id (controllerClass p)) st ++
                            [route_metadata p st]);
          properties := props |} st).

Lemma httpMethodMetadataSetter_Returned p st st' :
  httpMethodMetadataSetter p st = Returned tt st' ->
  routable (class_id (controllerClass p)) st = true /\
  exists o props, st' = pushed p o props st.
Proof.
  unfold httpMethodMetadataSetter, pushed, published, routable.
  destruct (metadata_object (class_id (controllerClass p)) st) as [[o obj] |].
  - destruct (elements obj) as [l |]; [| discriminate].
    intros [= <-]. split; [reflexivity |]. eexists _, _. reflexivity.
  - intros [= <-]. split; [reflexivity |]. eexists _, _. reflexivity.
Qed.

Lemma httpMethodMetadataSetter_returns p st :
  routable (class_id (controllerClass p)) st = true ->
  exists st', httpMethodMetadataSetter p st = Returned tt st'.
Proof.
  unfold httpMethodMetadataSetter, routable.
  destruct (metadata_object (class_id (controllerClass p)) st) as [[o obj] |]; [| eauto].
  destruct (elements obj) as [l |]; [eauto |].
  rewrite bool_decide_eq_false_2 by (intros [x Hx]; discriminate). discriminate.
Qed.

(** The class's metadata is a plain object: the callback throws, and
    nothing is stored. *)
Lemma httpMethodMetadataSetter_throws p st :
  routable (class_id (controllerClass p)) st = false ->
  httpMethodMetadataSetter p st = Threw TypeError st.
Proof.
  unfold httpMethodMetadataSetter, routable.
  destruct (metadata_object (class_id (controllerClass p)) st) as [[o obj] |];
    [| discriminate].
  destruct (elements obj) as [l |]; [| reflexivity].
  rewrite bool_decide_eq_true_2 by eauto. discriminate.
Qed.

Lemma run_task_Returned p st st' :
  run_task p st = Returned tt st' ->
  routable (class_id (controllerClass p)) st = true /\
  exists o props, st' = record (publish_event p) (pushed p o props st).
Proof.
  unfold run_task. boot_steps.
  destruct (httpMethodMetadataSetter p st) as [[] st1 | code st1 | e st1] eqn:E;
    try discriminate.
  intros [= <-]. apply httpMethodMetadataSetter_Returned in E as (Hr & o & props & ->).
  split; [exact Hr |]. eexists _, _. reflexivity.
Qed.

Lemma run_task_returns p st :
  routable (class_id (controllerClass p)) st = true ->
  exists st', run_task p st = Returned tt st'.
Proof.
  intros Hr. destruct (httpMethodMetadataSetter_returns p st Hr) as (st1 & H1).
  unfold run_task. boot_steps. rewrite H1. eauto.
Qed.

Lemma run_task_fields p st st' :
  run_task p st = Returned tt st' ->
  ServicesMap st' = ServicesMap st /\
  tickQueue st' = tickQueue st /\
  console st' = console st /\
  prototypes st' = prototypes st /\
  trace st' = trace st ++ [publish_event p].
Proof.
  intros H. apply run_task_Returned in H as (_ & o & props & ->). repeat split.
Qed.

Lemma run_task_other_key p st st' id key :
  run_task p st = Returned tt st' ->
  key <> "metadata" ->
  Reflect_getMetadata key id st' = Reflect_getMetadata key id st.
Proof.
  intros H Hk. apply run_task_Returned in H as (_ & o & props & ->).
  unfold pushed.
  change (Reflect_getMetadata key id (record ?e ?s)) with (Reflect_getMetadata key id s).
  rewrite getMetadata_define_other_key by exact Hk. reflexivity.
Qed.

(** A callback of another class leaves the own metadata of a class. *)
Lemma run_task_registry_other p st st' cls key :
  run_task p st = Returned tt st' ->
  class_id (controllerClass p) <> cls ->
  registry st' !! (cls, key) = registry st !! (cls, key).
Proof.
  intros H Hc. apply run_task_Returned in H as (_ & o & props & ->).
  unfold pushed, Reflect_defineMetadata. cbn [registry record set_registry set_object set_objects].
  apply lookup_insert_ne. intros [= E]. congruence.
Qed.

(** Two states that store the same under every key but ["metadata"] give
    the same pushed object. *)
Lemma route_metadata_ext p st st' :
  (forall key, key <> "metadata" ->
     Reflect_getMetadata key (fn_id (props_handler p)) st' =
     Reflect_getMetadata key (fn_id (props_handler p)) st) ->
  route_metadata p st' = route_metadata p st.
Proof.
  intros H. unfold route_metadata. rewrite !H by discriminate. reflexivity.
Qed.

Lemma metadata_object_pushed p o props st :
  metadata_object (class_id (controllerClass p)) (record (publish_event p) (pushed p o props st)) =
  Some (o, {| elements := Some (published (class_id (controllerClass p)) st ++
                                [route_metadata p st]);
              properties := props |}).
Proof.
  unfold metadata_object, pushed.
  change (Reflect_getMetadata "metadata" ?i (record ?e ?s))
    with (Reflect_getMetadata "metadata" i s).
  rewrite getMetadata_define_own.
  unfold Reflect_defineMetadata, set_object.
  cbn [objects record set_registry set_objects].
  rewrite lookup_insert_eq. reflexivity.
Qed.

(** The callback appends its entry to what is published for its class. *)
Lemma run_task_published p st st' :
  run_task p st = Returned tt st' ->
  published (class_id (controllerClass p)) st' =
    published (class_id (controllerClass p)) st ++ [route_metadata p st].
Proof.
  intros H. apply run_task_Returned in H as (_ & o & props & ->).
  unfold published at 1. rewrite metadata_object_pushed. reflexivity.
Qed.

(** A class for which a route could be published before a callback ran
    is one afterwards: the callback makes or extends an array, and changes
    no other object. *)
Lemma run_task_routable p st st' cls :
  run_task p st = Returned tt st' ->
  routable cls st = true -> routable cls st' = true.
Proof.
  intros H Hr. apply run_task_Returned in H as (_ & o & props & ->).
  unfold routable, metadata_object in *.
  change (Reflect_getMetadata "metadata" cls (record ?e ?s))
    with (Reflect_getMetadata "metadata" cls s).
  unfold pushed at 1. unfold Reflect_getMetadata, Reflect_defineMetadata, prototype_chain in *.
  cbn [registry prototypes objects record set_registry set_object set_objects pushed
       Reflect_defineMetadata] in *.
  destruct (inherited_insert (registry st) (class_id (controllerClass p)) "metadata"
              (MObject o) (cls :: default [] (prototypes st !! cls))) as [E | E];
    rewrite E; clear E.
  - rewrite lookup_insert_eq. reflexivity.
  - destruct (inherited (registry st) "metadata" (cls :: default [] (prototypes st !! cls)))
      as [[| | | | | o' | | |] |]; try reflexivity.
    destruct (decide (o' = o)) as [-> | Hne].
    + rewrite lookup_insert_eq. reflexivity.
    + rewrite lookup_insert_ne by congruence. exact Hr.
Qed.

(** *** The waiting callbacks *)

Lemma publish_all_app ps1 ps2 st :
  publish_all (ps1 ++ ps2) st = (publish_all ps1;; publish_all ps2) st.
Proof.
  revert st. induction ps1 as [| p ps1 IH]; intros st; [reflexivity |].
  simpl. boot_steps. destruct (run_task p st) as [[] st1 | code st1 | e st1]; try reflexivity.
  rewrite IH. reflexivity.
Qed.

Lemma publish_all_cons p ps st st1 :
  run_task p st = Returned tt st1 -> publish_all (p :: ps) st = publish_all ps st1.
Proof. intros H. simpl. boot_steps. rewrite H. reflexivity. Qed.

Lemma publish_all_cons_Returned p ps st st' :
  publish_all (p :: ps) st = Returned tt st' ->
  exists st1, run_task p st = Returned tt st1 /\ publish_all ps st1 = Returned tt st'.
Proof.
  simpl. boot_steps. destruct (run_task p st) as [[] st1 | code st1 | e st1]; try discriminate.
  eauto.
Qed.

(** Callbacks of classes for which a route can be published all return. *)
Lemma publish_all_returns ps : forall st,
  Forall (fun p => routable (class_id (controllerClass p)) st = true) ps ->
  exists st', publish_all ps st = Returned tt st'.
Proof.
  induction ps as [| p ps IH]; intros st Hps; [eexists; reflexivity |].
  apply Forall_cons in Hps as [Hp Hps].
  destruct (run_task_returns p st Hp) as (st1 & H1).
  destruct (IH st1) as (st' & Hst').
  { eapply Forall_impl; [exact Hps |]. intros q Hq. eapply run_task_routable; eassumption. }
  exists st'. rewrite (publish_all_cons _ _ _ _ H1). exact Hst'.
Qed.

Lemma publish_all_fields ps : forall st st',
  publish_all ps st = Returned tt st' ->
  ServicesMap st' = ServicesMap st /\
  tickQueue st' = tickQueue st /\
  console st' = console st /\
  prototypes st' = prototypes st /\
  trace st' = trace st ++ map publish_event ps.
Proof.
  induction ps as [| p ps IH]; intros st st' H.
  - injection H as <-. simpl. rewrite app_nil_r. repeat split.
  - apply publish_all_cons_Returned in H as (st1 & H1 & H).
    destruct (IH _ _ H) as (A1 & A2 & A3 & A4 & A5).
    destruct (run_task_fields _ _ _ H1) as (B1 & B2 & B3 & B4 & B5).
    rewrite A1, A2, A3, A4, A5, B1, B2, B3, B4, B5. simpl. rewrite <- app_assoc.
    repeat split.
Qed.

Lemma publish_all_other_key ps id key : forall st st',
  publish_all ps st = Returned tt st' ->
  key <> "metadata" ->
  Reflect_getMetadata key id st' = Reflect_getMetadata key id st.
Proof.
  induction ps as [| p ps IH]; intros st st' H Hk.
  - injection H as <-. reflexivity.
  - apply publish_all_cons_Returned in H as (st1 & H1 & H).
    rewrite (IH _ _ H Hk). eapply run_task_other_key; eassumption.
Qed.

Lemma publish_all_routable ps cls : forall st st',
  publish_all ps st = Returned tt st' ->
  routable cls st = true -> routable cls st' = true.
Proof.
  induction ps as [| p ps IH]; intros st st' H Hr.
  - injection H as <-. exact Hr.
  - apply publish_all_cons_Returned in H as (st1 & H1 & H).
    eapply IH; [exact H |]. eapply run_task_routable; eassumption.
Qed.

(** Callbacks of other classes leave the own metadata of a class. *)
Lemma publish_all_registry_other ps cls key : forall st st',
  publish_all ps st = Returned tt st' ->
  Forall (fun p => class_id (controllerClass p) <> cls) ps ->
  registry st' !! (cls, key) = registry st !! (cls, key).
Proof.
  induction ps as [| p ps IH]; intros st st' H Hps.
  - injection H as <-. reflexivity.
  - apply publish_all_cons_Returned in H as (st1 & H1 & H).
    apply Forall_cons in Hps as [Hp Hps].
    rewrite (IH _ _ H Hps). eapply run_task_registry_other; eassumption.
Qed.

Lemma route_metadata_after_task p q st st1 :
  run_task p st = Returned tt st1 -> route_metadata q st1 = route_metadata q st.
Proof.
  intros H. apply route_metadata_ext. intros key Hkey.
  eapply run_task_other_key; eassumption.
Qed.

(** Running callbacks of one class appends, to what is published for it,
    the object of each callback, in the order of the queue, as the
    decorators had left things when the callbacks started. *)
Lemma publish_all_entries cls ps : forall st st',
  publish_all ps st = Returned tt st' ->
  Forall (fun p => class_id (controllerClass p) = cls) ps ->
  published cls st' = published cls st ++ map (fun p => route_metadata p st) ps.
Proof.
  induction ps as [| p ps IH]; intros st st' H Hps.
  - injection H as <-. simpl. rewrite app_nil_r. reflexivity.
  - apply publish_all_cons_Returned in H as (st1 & H1 & H).
    apply Forall_cons in Hps as [Hp Hps].
    rewrite (IH _ _ H Hps). subst cls. rewrite (run_task_published _ _ _ H1), <- app_assoc.
    simpl. do 2 f_equal. apply map_ext. intros q.
    eapply route_metadata_after_task, H1.
Qed.

Lemma route_keys_of_entries st l :
  map route_key (map (fun p => route_metadata p st) l) =
  map (fun p => (props_method p, slash (props_path p))) l.
Proof. rewrite map_map. reflexivity. Qed.

Lemma run_ticks_setters q : forall st rest,
  Forall (fun t => is_Some (task_class t)) q ->
  run_ticks (q ++ rest) st = (publish_all (setters q);; run_ticks rest) st.
Proof.
  induction q as [| t q IH]; intros st rest Hq; [reflexivity |].
  apply Forall_cons in Hq as [[cls Ht] Hq]. destruct t as [p |]; [| discriminate].
  simpl. boot_steps. destruct (run_task p st) as [[] st1 | code st1 | e st1]; try reflexivity.
  apply IH, Hq.
Qed.

Lemma parameter_decorators_fields fn cls : forall ds st,
  let st' := foldl (fun st '(i, d) =>
                      record (ParameterAnnotation cls (fn_id fn))
                        (apply_parameter_decorator d fn i st)) st ds in
  ServicesMap st' = ServicesMap st /\
  console st' = console st /\
  tickQueue st' = tickQueue st /\
  trace st' = trace st ++ map (fun _ => ParameterAnnotation cls (fn_id fn)) ds /\
  (forall id key, ~ In key function_keys ->
     Reflect_getMetadata key id st' = Reflect_getMetadata key id st).
Proof.
  induction ds as [| [i d] ds IH]; intros st.
  - simpl. rewrite app_nil_r. repeat split.
  - cbn [foldl]. cbv zeta in IH |- *.
    destruct (IH (record (ParameterAnnotation cls (fn_id fn))
                    (apply_parameter_decorator d fn i st))) as (H1 & H2 & H3 & H4 & H5).
    rewrite H1, H2, H3, H4. clear H1 H2 H3 H4.
    assert (forall id key, ~ In key function_keys ->
              Reflect_getMetadata key id
                (record (ParameterAnnotation cls (fn_id fn))
                   (apply_parameter_decorator d fn i st)) =
              Reflect_getMetadata key id st) as Hreg.
    { intros id key Hk.
      change (Reflect_getMetadata key id (record ?e ?s)) with (Reflect_getMetadata key id s).
      destruct d; cbn [apply_parameter_decorator]; apply getMetadata_define_other_key;
        intros ->; apply Hk; simpl; tauto. }
    repeat split; try (destruct d; reflexivity).
    + destruct d; simpl; rewrite <- app_assoc; reflexivity.
    + intros id key Hk. rewrite H5 by exact Hk. apply Hreg, Hk.
Qed.

Lemma method_decorators_fields target fn : forall ds st,
  Forall (fun x => socket_decorator x = false) ds ->
  let st' := foldl (fun st d =>
                      record (MethodAnnotation (class_id target) (fn_id fn))
                        (apply_method_decorator d target fn st)) st ds in
  ServicesMap st' = ServicesMap st /\
  console st' = console st /\
  tickQueue st' = tickQueue st ++ map SetterTask (omap (deferred target fn) ds) /\
  trace st' = trace st ++ map (fun _ => MethodAnnotation (class_id target) (fn_id fn)) ds /\
  (forall id key, ~ In key function_keys ->
     Reflect_getMetadata key id st' = Reflect_getMetadata key id st).
Proof.
  induction ds as [| d ds IH]; intros st Hds.
  - simpl. rewrite !app_nil_r. repeat split.
  - apply Forall_cons in Hds as [Hd Hds]. cbn [foldl]. cbv zeta in IH |- *.
    destruct (IH (record (MethodAnnotation (class_id target) (fn_id fn))
                    (apply_method_decorator d target fn st)) Hds)
      as (H1 & H2 & H3 & H4 & H5).
    rewrite H1, H2, H3, H4. clear H1 H2 H3 H4.
    split; [| split; [| split; [| split]]].
    + destruct d; try discriminate Hd; reflexivity.
    + destruct d; try discriminate Hd; reflexivity.
    + destruct d; try discriminate Hd; simpl; rewrite <- ?app_assoc; reflexivity.
    + destruct d; try discriminate Hd; simpl; rewrite <- ?app_assoc; reflexivity.
    + intros id key Hk. rewrite H5 by exact Hk.
      change (Reflect_getMetadata key id (record ?e ?s)) with (Reflect_getMetadata key id s).
      destruct d; try discriminate Hd; cbn [apply_method_decorator]; try reflexivity.
      apply getMetadata_define_other_key. intros ->. apply Hk. simpl. tauto.
Qed.

Lemma declare_method_fields target md st :
  Forall (fun x => socket_decorator x = false) (method_decorators md) ->
  let st' := declare_method target st md in
  ServicesMap st' = ServicesMap st /\
  console st' = console st /\
  tickQueue st' = tickQueue st ++ map SetterTask (deferred_by_method target md) /\
  trace st' = trace st ++ method_events target md /\
  (forall id key, ~ In key function_keys ->
     Reflect_getMetadata key id st' = Reflect_getMetadata key id st).
Proof.
  intros Hds. unfold declare_method. cbv zeta.
  pose proof (parameter_decorators_fields (method_fn md) (class_id target)
                (parameter_decorators md) st) as (P1 & P2 & P3 & P4 & P5).
  cbv zeta in P1, P2, P3, P4, P5.
  set (st1 := foldl _ st (parameter_decorators md)) in *.
  pose proof (method_decorators_fields target (method_fn md) (method_decorators md) st1 Hds)
    as (M1 & M2 & M3 & M4 & M5).
  cbv zeta in M1, M2, M3, M4, M5.
  rewrite M1, M2, M3, M4, P1, P2, P3, P4. unfold method_events, deferred_by_method.
  rewrite <- app_assoc. repeat split.
  intros id key Hk. rewrite M5, P5 by exact Hk. reflexivity.
Qed.

Lemma declare_methods_fields target : forall mds st,
  Forall (fun md => Forall (fun x => socket_decorator x = false) (method_decorators md)) mds ->
  let st' := foldl (declare_method target) st mds in
  ServicesMap st' = ServicesMap st /\
  console st' = console st /\
  tickQueue st' = tickQueue st ++
    map SetterTask (flat_map (deferred_by_method target) mds) /\
  trace st' = trace st ++ flat_map (method_events target) mds /\
  (forall id key, ~ In key function_keys ->
     Reflect_getMetadata key id st' = Reflect_getMetadata key id st).
Proof.
  induction mds as [| md mds IH]; intros st Hmds.
  - simpl. rewrite !app_nil_r. repeat split.
  - apply Forall_cons in Hmds as [Hmd Hmds]. cbn [foldl flat_map]. cbv zeta in IH |- *.
    destruct (IH (declare_method target st md) Hmds) as (H1 & H2 & H3 & H4 & H5).
    destruct (declare_method_fields target md st Hmd) as (D1 & D2 & D3 & D4 & D5).
    rewrite H1, H2, H3, H4, D1, D2, D3, D4. rewrite map_app, <- !app_assoc.
    repeat split. intros id key Hk. rewrite H5, D5 by exact Hk. reflexivity.
Qed.

Lemma declare_tags_fields target : forall labels st,
  exists st',
    declare_class_decorators target (map ApiTag labels) st = Returned tt st' /\
    ServicesMap st' = ServicesMap st /\
    console st' = console st /\
    tickQueue st' = tickQueue st /\
    trace st' = trace st ++ map (fun _ => ClassAnnotation (class_id target)) labels /\
    (forall id key, key <> "tag" ->
       Reflect_getMetadata key id st' = Reflect_getMetadata key id st).
Proof.
  induction labels as [| t labels IH]; intros st.
  - exists st. simpl. rewrite app_nil_r. repeat split.
  - set (st1 := record (ClassAnnotation (class_id target))
                  (Reflect_defineMetadata "tag" (MString t) (class_id target) st)).
    destruct (IH st1) as (st' & Hrun & H1 & H2 & H3 & H4 & H5).
    exists st'. split; [exact Hrun |]. rewrite H1, H2, H3, H4.
    repeat split.
    + simpl. rewrite <- app_assoc. reflexivity.
    + intros id key Hk. rewrite H5 by exact Hk. unfold st1.
      change (Reflect_getMetadata key id (record ?e ?s)) with (Reflect_getMetadata key id s).
      apply getMetadata_define_other_key, Hk.
Qed.

(** [slash] prepends a slash when there is none and changes nothing
    otherwise: its result begins with a slash. *)
Lemma slash_begins_with_slash s :
  startsWith (slash s) "/" = true /\
  (startsWith s "/" = true -> slash s = s) /\
  (startsWith s "/" = false -> slash s = "/" +:+ s).
Proof.
  unfold slash. destruct (startsWith s "/") eqn:E.
  - repeat split; [exact E | discriminate].
  - repeat split; [| discriminate]. unfold startsWith. simpl.
    destruct s; reflexivity.
Qed.

Lemma slash_negb prefix :
  (if negb (startsWith prefix "/") then "/" +:+ prefix else prefix) = slash prefix.
Proof. unfold slash. destruct (startsWith prefix "/"); reflexivity. Qed.

Lemma declare_class_decorators_app target ds1 ds2 : forall st st1,
  declare_class_decorators target ds1 st = Returned tt st1 ->
  declare_class_decorators target (ds1 ++ ds2) st = declare_class_decorators target ds2 st1.
Proof.
  induction ds1 as [| d ds1 IH]; intros st st1.
  - simpl. intros [= <-]. reflexivity.
  - simpl. unfold mbind, boot_bind.
    destruct (apply_class_decorator d target st) as [[] st' | code st' | err st']; [| discriminate | discriminate].
    simpl. apply IH.
Qed.

Lemma declare_controller_decorators target prefix before after st :
  exists st',
    declare_class_decorators target
      (map ApiTag before ++ Controller prefix :: map ApiTag after) st = Returned tt st' /\
    ServicesMap st' = ServicesMap st /\
    console st' = console st /\
    tickQueue st' = tickQueue st /\
    trace st' = trace st ++
      map (fun _ => ClassAnnotation (class_id target))
          (map ApiTag before ++ Controller prefix :: map ApiTag after) /\
    Reflect_getMetadata "initialize" (class_id target) st' =
      Some (MInitialize (ControllerInitializer (slash prefix) target)) /\
    (forall id key, key <> "tag" -> key <> "initialize" ->
       Reflect_getMetadata key id st' = Reflect_getMetadata key id st).
Proof.
  destruct (declare_tags_fields target before st) as (stc & Hc & C1 & C2 & C3 & C4 & C5).
  set (std := record (ClassAnnotation (class_id target))
                (Reflect_defineMetadata "initialize"
                   (MInitialize (ControllerInitializer (slash prefix) target))
                   (class_id target) stc)).
  destruct (declare_tags_fields target after std) as (ste & He & E1 & E2 & E3 & E4 & E5).
  exists ste. split.
  { rewrite (declare_class_decorators_app _ _ _ _ _ Hc). simpl.
    boot_steps. simpl. rewrite slash_negb. exact He. }
  rewrite E1, E2, E3, E4. unfold std at 1 2 3 4. simpl. rewrite C1, C2, C3, C4.
  repeat split.
  - rewrite !map_app, !map_map. simpl. rewrite map_map, <- !app_assoc. reflexivity.
  - rewrite E5 by discriminate. unfold std.
    change (Reflect_getMetadata ?k ?i (record ?e ?s)) with (Reflect_getMetadata k i s).
    apply getMetadata_define_own.
  - intros id key Ht Hi. rewrite E5 by exact Ht. unfold std.
    change (Reflect_getMetadata ?k ?i (record ?e ?s)) with (Reflect_getMetadata k i s).
    rewrite getMetadata_define_other_key by exact Hi.
    apply C5, Ht.
Qed.

(** Evaluating the definition of a controller class: nothing is published,
    the route callbacks are queued, the initializer is stored. *)
Lemma declare_controller_class prefix d st :
  controller_declaration prefix d ->
  exists st1,
    declare_class d st = Returned tt st1 /\
    ServicesMap st1 = ServicesMap st /\
    console st1 = console st /\
    tickQueue st1 = tickQueue st ++ map SetterTask (deferred_by_class d) /\
    trace st1 = trace st ++ flat_map (method_events (declared_class d)) (methods d) ++
                map (fun _ => ClassAnnotation (class_id (declared_class d)))
                    (class_decorators d) /\
    Reflect_getMetadata "initialize" (class_id (declared_class d)) st1 =
      Some (MInitialize (ControllerInitializer (slash prefix) (declared_class d))) /\
    Reflect_getMetadata "metadata" (class_id (declared_class d)) st1 =
      Reflect_getMetadata "metadata" (class_id (declared_class d)) st /\
    paramtypes_of (declared_class d) st1 =
      match paramtypes d with
      | Some l => l
      | None => paramtypes_of (declared_class d) st
      end.
Proof.
  intros (Hsuper & Hmethods & before & after & Hds).
  set (target := declared_class d).
  destruct (declare_methods_fields target (methods d) st Hmethods)
    as (A1 & A2 & A3 & A4 & A5). cbv zeta in A1, A2, A3, A4, A5.
  set (sta := foldl (declare_method target) st (methods d)) in *.
  set (stb := match paramtypes d with
              | Some l => Reflect_defineMetadata "design:paramtypes" (MClasses l)
                            (class_id target) sta
              | None => sta
              end).
  destruct (declare_controller_decorators target prefix before after stb)
    as (ste & He & E1 & E2 & E3 & E4 & E5 & E6).
  rewrite <- Hds in He, E4.
  exists ste. split.
  { unfold declare_class. fold target. rewrite Hsuper. boot_steps. exact He. }
  assert (ServicesMap stb = ServicesMap sta /\ console stb = console sta /\
          tickQueue stb = tickQueue sta /\ trace stb = trace sta) as (B1 & B2 & B3 & B4).
  { unfold stb. destruct (paramtypes d); repeat split. }
  rewrite E1, E2, E3, E4, B1, B2, B3, B4, A1, A2, A3, A4.
  unfold deferred_by_class. fold target. rewrite <- app_assoc.
  split; [reflexivity |]. split; [reflexivity |]. split; [reflexivity |].
  split; [reflexivity |]. split; [exact E5 |]. split.
  - rewrite E6 by discriminate. unfold stb. destruct (paramtypes d).
    + rewrite getMetadata_define_other_key by discriminate.
      apply A5. unfold function_keys. simpl. intuition discriminate.
    + apply A5. unfold function_keys. simpl. intuition discriminate.
  - unfold paramtypes_of. rewrite E6 by discriminate. unfold stb.
    destruct (paramtypes d).
    + rewrite getMetadata_define_own. reflexivity.
    + rewrite A5; [reflexivity |]. unfold function_keys. simpl. intuition discriminate.
Qed.

(** ** What the decorators of a method leave for its routes *)

Lemma set_socket_property_other_key change target st key id :
  key <> "metadata" ->
  Reflect_getMetadata key id (set_socket_property change target st) =
  Reflect_getMetadata key id st.
Proof.
  intros Hk. unfold set_socket_property.
  destruct (metadata_object (class_id target) st) as [[o obj] |];
    rewrite getMetadata_define_other_key by exact Hk; reflexivity.
Qed.

Lemma set_socket_property_fields change target st :
  let st' := set_socket_property change target st in
  prototypes st' = prototypes st /\
  ServicesMap st' = ServicesMap st /\
  tickQueue st' = tickQueue st /\
  console st' = console st /\
  trace st' = trace st.
Proof.
  unfold set_socket_property.
  destruct (metadata_object (class_id target) st) as [[o obj] |]; repeat split.
Qed.

Lemma apply_parameter_decorator_prototypes d fn i st :
  prototypes (apply_parameter_decorator d fn i st) = prototypes st.
Proof. destruct d; reflexivity. Qed.

Lemma apply_method_decorator_prototypes d target fn st :
  prototypes (apply_method_decorator d target fn st) = prototypes st.
Proof. destruct d; try reflexivity; apply set_socket_property_fields. Qed.

Lemma parameter_decorators_prototypes fn cls : forall ds st,
  prototypes (foldl (fun st '(i, d) =>
                       record (ParameterAnnotation cls (fn_id fn))
                         (apply_parameter_decorator d fn i st)) st ds) = prototypes st.
Proof.
  induction ds as [| [i d] ds IH]; intros st; [reflexivity |].
  cbn [foldl]. rewrite IH. apply apply_parameter_decorator_prototypes.
Qed.

Lemma method_decorators_prototypes target fn : forall ds st,
  prototypes (foldl (fun st d =>
                       record (MethodAnnotation (class_id target) (fn_id fn))
                         (apply_method_decorator d target fn st)) st ds) = prototypes st.
Proof.
  induction ds as [| d ds IH]; intros st; [reflexivity |].
  cbn [foldl]. rewrite IH. apply apply_method_decorator_prototypes.
Qed.

Lemma declare_method_prototypes target md st :
  prototypes (declare_method target st md) = prototypes st.
Proof.
  unfold declare_method. rewrite method_decorators_prototypes.
  apply parameter_decorators_prototypes.
Qed.

Lemma declare_methods_prototypes target : forall mds st,
  prototypes (foldl (declare_method target) st mds) = prototypes st.
Proof.
  induction mds as [| md mds IH]; intros st; [reflexivity |].
  cbn [foldl]. rewrite IH. apply declare_method_prototypes.
Qed.

Section MethodKeys.

(** [f] is a function object: it extends nothing. *)
Variables (target : ClassLike) (f : nat).

Lemma parameter_decorators_keys fn : forall ds st,
  prototypes st !! f = None ->
  let st' := foldl (fun st '(i, d) =>
                      record (ParameterAnnotation (class_id target) (fn_id fn))
                        (apply_parameter_decorator d fn i st)) st ds in
  custom_decorators_of f st' =
    custom_decorators_of f st ++
    (if decide (f = fn_id fn) then omap custom_binding ds else []) /\
  Reflect_getMetadata "public" f st' = Reflect_getMetadata "public" f st.
Proof.
  induction ds as [| [i d] ds IH]; intros st Hp.
  - simpl. case_decide; rewrite app_nil_r; split; reflexivity.
  - cbn [foldl]. cbv zeta in IH |- *.
    destruct (IH (record (ParameterAnnotation (class_id target) (fn_id fn))
                    (apply_parameter_decorator d fn i st))) as (H1 & H2).
    { cbn [prototypes record]. rewrite apply_parameter_decorator_prototypes. exact Hp. }
    rewrite H1, H2. clear H1 H2 IH. unfold custom_decorators_of.
    change (Reflect_getMetadata ?k ?x (record ?e ?s)) with (Reflect_getMetadata k x s).
    destruct d as [| | | | h]; cbn [apply_parameter_decorator];
      try (rewrite !getMetadata_define_other_key by discriminate; split; reflexivity).
    rewrite (getMetadata_define_other_key "public") by discriminate.
    split; [| reflexivity].
    destruct (decide (f = fn_id fn)) as [-> | Hne].
    + rewrite getMetadata_define_own.
      change (omap custom_binding ((i, createCustomParameterDecorator h) :: ds))
        with ({| custom_handler := h; custom_index := i |} :: omap custom_binding ds).
      rewrite <- app_assoc. reflexivity.
    + rewrite getMetadata_define_other by (exact Hp || congruence). reflexivity.
Qed.

Lemma method_decorators_keys fn : forall ds st,
  prototypes st !! f = None ->
  let st' := foldl (fun st d =>
                      record (MethodAnnotation (class_id target) (fn_id fn))
                        (apply_method_decorator d target fn st)) st ds in
  custom_decorators_of f st' = custom_decorators_of f st /\
  Reflect_getMetadata "public" f st' =
    if bool_decide (f = fn_id fn) && existsb is_Public ds then Some MTrue
    else Reflect_getMetadata "public" f st.
Proof.
  induction ds as [| d ds IH]; intros st Hp.
  - simpl. rewrite andb_false_r. split; reflexivity.
  - cbn [foldl]. cbv zeta in IH |- *.
    destruct (IH (record (MethodAnnotation (class_id target) (fn_id fn))
                    (apply_method_decorator d target fn st))) as (H1 & H2).
    { cbn [prototypes record]. rewrite apply_method_decorator_prototypes. exact Hp. }
    rewrite H1, H2. clear H1 H2 IH. unfold custom_decorators_of.
    change (Reflect_getMetadata ?k ?x (record ?e ?s)) with (Reflect_getMetadata k x s).
    destruct d; cbn [apply_method_decorator existsb is_Public orb];
      try (split; reflexivity);
      try (rewrite !set_socket_property_other_key by discriminate; split; reflexivity).
    rewrite getMetadata_define_other_key by discriminate.
    split; [reflexivity |].
    destruct (decide (f = fn_id fn)) as [Heq | Hne].
    + rewrite bool_decide_eq_true_2 by exact Heq. rewrite Heq, getMetadata_define_own.
      destruct (existsb is_Public ds); reflexivity.
    + rewrite bool_decide_eq_false_2 by exact Hne.
      rewrite getMetadata_define_other by (exact Hp || congruence). reflexivity.
Qed.

Lemma declare_method_keys md st :
  prototypes st !! f = None ->
  custom_decorators_of f (declare_method target st md) =
    custom_decorators_of f st ++
    (if decide (f = fn_id (method_fn md))
     then omap custom_binding (parameter_decorators md) else []) /\
  Reflect_getMetadata "public" f (declare_method target st md) =
    if bool_decide (f = fn_id (method_fn md)) && existsb is_Public (method_decorators md)
    then Some MTrue
    else Reflect_getMetadata "public" f st.
Proof.
  intros Hp. unfold declare_method.
  pose proof (parameter_decorators_keys (method_fn md) (parameter_decorators md) st Hp)
    as (P1 & P2). cbv zeta in P1, P2.
  pose proof (parameter_decorators_prototypes (method_fn md) (class_id target)
                (parameter_decorators md) st) as Hp1.
  set (st1 := foldl _ st (parameter_decorators md)) in *.
  pose proof (method_decorators_keys (method_fn md) (method_decorators md) st1)
    as (M1 & M2). { rewrite Hp1. exact Hp. } cbv zeta in M1, M2.
  rewrite M1, M2, P1, P2. split; reflexivity.
Qed.

Lemma declare_methods_keys : forall mds st md,
  prototypes st !! f = None ->
  NoDup (map (fun x => fn_id (method_fn x)) mds) ->
  In md mds -> f = fn_id (method_fn md) ->
  custom_decorators_of f (foldl (declare_method target) st mds) =
    custom_decorators_of f st ++ omap custom_binding (parameter_decorators md) /\
  Reflect_getMetadata "public" f (foldl (declare_method target) st mds) =
    if existsb is_Public (method_decorators md) then Some MTrue
    else Reflect_getMetadata "public" f st.
Proof.
  assert (forall mds st,
            prototypes st !! f = None ->
            ~ In f (map (fun x => fn_id (method_fn x)) mds) ->
            custom_decorators_of f (foldl (declare_method target) st mds) =
              custom_decorators_of f st /\
            Reflect_getMetadata "public" f (foldl (declare_method target) st mds) =
              Reflect_getMetadata "public" f st) as Hother.
  { induction mds as [| x mds IH]; intros st Hp Hnot; [split; reflexivity |].
    cbn [foldl]. destruct (IH (declare_method target st x)) as (H1 & H2).
    { rewrite declare_method_prototypes. exact Hp. }
    { intros Hin. apply Hnot. right. exact Hin. }
    rewrite H1, H2. destruct (declare_method_keys x st Hp) as (D1 & D2).
    assert (f <> fn_id (method_fn x)) as E.
    { intros E. apply Hnot. left. symmetry. exact E. }
    rewrite D1, D2, decide_False, bool_decide_eq_false_2 by exact E.
    rewrite app_nil_r. split; reflexivity. }
  induction mds as [| x mds IH]; intros st md Hp Hnd Hin Hf; [destruct Hin |].
  cbn [map] in Hnd. apply NoDup_cons in Hnd as [Hx Hnd]. cbn [foldl].
  assert (prototypes (declare_method target st x) !! f = None) as Hp'.
  { rewrite declare_method_prototypes. exact Hp. }
  destruct Hin as [-> | Hin].
  - destruct (Hother mds (declare_method target st md) Hp') as (H1 & H2).
    { rewrite Hf, <- list_elem_of_In. exact Hx. }
    rewrite H1, H2. destruct (declare_method_keys md st Hp) as (D1 & D2).
    rewrite D1, D2, decide_True, bool_decide_eq_true_2 by exact Hf.
    split; reflexivity.
  - destruct (IH (declare_method target st x) md Hp' Hnd Hin Hf) as (H1 & H2).
    rewrite H1, H2. destruct (declare_method_keys x st Hp) as (D1 & D2).
    assert (f <> fn_id (method_fn x)) as E.
    { intros E. apply Hx. rewrite <- E, Hf. apply list_elem_of_In, in_map_iff.
      exists md. split; [reflexivity | exact Hin]. }
    rewrite D1, D2, decide_False, bool_decide_eq_false_2 by exact E.
    rewrite app_nil_r. split; reflexivity.
Qed.

End MethodKeys.

(** ** Dependency injection and route registration *)

Lemma inject_registered target : forall l st,
  Forall (fun s => is_Some (ServicesMap st !! class_name s)) l ->
  exists instances, inject target l st = Returned instances st.
Proof.
  induction l as [| s l IH]; intros st Hl.
  - exists []. reflexivity.
  - apply Forall_cons in Hl as [[instance Hs] Hl]. destruct (IH st Hl) as (instances & Hi).
    exists (instance :: instances). simpl. boot_steps.
    rewrite Hs, Hi. reflexivity.
Qed.

(** A dependency that is not a registered service ends the process. *)
Lemma inject_missing target : forall l st,
  ~ Forall (fun s => is_Some (ServicesMap st !! class_name s)) l ->
  exists st', inject target l st = Exited (-1) st'.
Proof.
  induction l as [| s l IH]; intros st Hl.
  - destruct Hl. constructor.
  - simpl. boot_steps.
    destruct (ServicesMap st !! class_name s) as [instance |] eqn:Hs.
    + destruct (IH st) as (st' & Hst').
      * intros Hall. apply Hl. constructor; [rewrite Hs; eauto | exact Hall].
      * rewrite Hst'. eauto.
    + eexists. reflexivity.
Qed.

Lemma register_routes_fields prefix tag options controller : forall ms app,
  let app' := foldl (register_route prefix tag options (default noop (options ≫= auth))
                       (default noop (options ≫= response_hook)) controller) app ms in
  routes app' = routes app ++ flat_map (registered_by prefix tag options controller) ms /\
  sockets app' = sockets app /\
  middleware app' = middleware app /\
  errorHandlers app' = errorHandlers app.
Proof.
  induction ms as [| m ms IH]; intros app.
  - simpl. rewrite app_nil_r. repeat split.
  - cbn [foldl flat_map]. cbv zeta in IH |- *.
    destruct (IH (register_route prefix tag options (default noop (options ≫= auth))
                    (default noop (options ≫= response_hook)) controller app m))
      as (H1 & H2 & H3 & H4).
    rewrite H1, H2, H3, H4. simpl. rewrite <- app_assoc. repeat split.
Qed.


Lemma inject_Returned target : forall l st instances st',
  inject target l st = Returned instances st' ->
  st' = st /\ Forall2 (resolves_to st) l instances.
Proof.
  induction l as [| s l IH]; intros st instances st'.
  - intros [= <- <-]. split; [reflexivity | constructor].
  - simpl. boot_steps.
    destruct (ServicesMap st !! class_name s) as [instance |] eqn:Hs; [| discriminate].
    destruct (inject target l st) as [rest st1 | code st1 | err st1] eqn:Hrest; [| discriminate | discriminate].
    intros [= <- <-]. destruct (IH _ _ _ Hrest) as (-> & Hall).
    split; [reflexivity |]. constructor; [exact Hs | exact Hall].
Qed.

Lemma inject_resolved target : forall l st instances,
  Forall2 (resolves_to st) l instances -> inject target l st = Returned instances st.
Proof.
  induction l as [| s l IH]; intros st instances Hall.
  - apply Forall2_nil_inv_l in Hall as ->. reflexivity.
  - apply Forall2_cons_inv_l in Hall as (instance & rest & Hs & Hall & ->).
    simpl. boot_steps. unfold resolves_to in Hs. rewrite Hs, (IH _ _ Hall). reflexivity.
Qed.

Lemma resolved_omap st : forall l,
  Forall (registered st) l ->
  Forall2 (resolves_to st) l (omap (fun s => ServicesMap st !! class_name s) l).
Proof.
  induction l as [| s l IH]; intros Hl; [constructor |].
  apply Forall_cons in Hl as [[instance Hs] Hl]. cbn [omap list_omap]. rewrite Hs.
  constructor; [exact Hs | exact (IH Hl)].
Qed.

Lemma inject_first_missing target st s l2 : forall l1,
  Forall (registered st) l1 -> ServicesMap st !! class_name s = None ->
  inject target (l1 ++ s :: l2) st =
    Exited (-1)
      (console_error "Make sure injected service has @Service decorator"
         (console_error ("Injected service is undefined in " +:+ class_name target) st)).
Proof.
  induction l1 as [| x l1 IH]; intros Hl Hs.
  - simpl. boot_steps. rewrite Hs. reflexivity.
  - apply Forall_cons in Hl as [[instance Hx] Hl]. simpl. boot_steps.
    rewrite Hx. cbn [app] in IH. rewrite (IH Hl Hs). reflexivity.
Qed.

Lemma registered_by_serves prefix tag options controller : forall ms,
  Forall2 (serves prefix controller) ms
    (flat_map (registered_by prefix tag options controller) ms).
Proof.
  induction ms as [| m ms IH]; [constructor |].
  cbn [flat_map]. constructor; [| exact IH]. repeat split.
Qed.

(** *** What a class definition leaves of the metadata objects *)

Lemma parameter_decorators_objects fn cls : forall ds st,
  objects (foldl (fun st '(i, d) =>
                    record (ParameterAnnotation cls (fn_id fn))
                      (apply_parameter_decorator d fn i st)) st ds) = objects st.
Proof.
  induction ds as [| [i d] ds IH]; intros st; [reflexivity |].
  cbn [foldl]. rewrite IH. destruct d; reflexivity.
Qed.

Lemma method_decorators_objects target fn : forall ds st,
  Forall (fun x => socket_decorator x = false) ds ->
  objects (foldl (fun st d =>
                    record (MethodAnnotation (class_id target) (fn_id fn))
                      (apply_method_decorator d target fn st)) st ds) = objects st.
Proof.
  induction ds as [| d ds IH]; intros st Hds; [reflexivity |].
  apply Forall_cons in Hds as [Hd Hds]. cbn [foldl]. rewrite IH by exact Hds.
  destruct d; try discriminate Hd; reflexivity.
Qed.

Lemma declare_methods_objects target : forall mds st,
  Forall (fun md => Forall (fun x => socket_decorator x = false) (method_decorators md)) mds ->
  objects (foldl (declare_method target) st mds) = objects st.
Proof.
  induction mds as [| md mds IH]; intros st Hmds; [reflexivity |].
  apply Forall_cons in Hmds as [Hmd Hmds]. cbn [foldl]. rewrite IH by exact Hmds.
  unfold declare_method. rewrite method_decorators_objects by exact Hmd.
  apply parameter_decorators_objects.
Qed.

(** The class decorators change neither the metadata objects, nor the
    prototype chains, nor what is stored under ["metadata"]. *)
Lemma declare_class_decorators_store target : forall ds st st',
  declare_class_decorators target ds st = Returned tt st' ->
  objects st' = objects st /\
  prototypes st' = prototypes st /\
  forall id, Reflect_getMetadata "metadata" id st' = Reflect_getMetadata "metadata" id st.
Proof.
  induction ds as [| d ds IH]; intros st st'.
  - intros [= <-]. repeat split.
  - simpl. boot_steps.
    destruct (apply_class_decorator d target st) as [[] st1 | code st1 | err st1] eqn:Hd;
      try discriminate.
    intros Hrest. destruct (IH _ _ Hrest) as (H1 & H2 & H3).
    rewrite H1, H2. cbn [objects prototypes record].
    assert (objects st1 = objects st /\ prototypes st1 = prototypes st /\
            forall id, Reflect_getMetadata "metadata" id st1 =
                       Reflect_getMetadata "metadata" id st) as (A1 & A2 & A3).
    { destruct d as [cs | prefix | wspath options | tag |]; simpl in Hd;
        try (injection Hd as <-; repeat split; intros id;
             apply getMetadata_define_other_key; discriminate).
      destruct (ServicesMap st !! class_name target) as [old |] eqn:Hold.
      - rewrite apply_Service_duplicate in Hd by (rewrite Hold; eauto). discriminate Hd.
      - rewrite (apply_Service_fresh _ _ Hold) in Hd. injection Hd as <-. repeat split. }
    repeat split; [exact A1 | exact A2 |].
    intros id. rewrite H3.
    change (Reflect_getMetadata "metadata" id (record ?e ?s))
      with (Reflect_getMetadata "metadata" id s).
    apply A3.
Qed.

Lemma metadata_object_ext st st' id :
  objects st' = objects st ->
  Reflect_getMetadata "metadata" id st' = Reflect_getMetadata "metadata" id st ->
  metadata_object id st' = metadata_object id st.
Proof. intros Ho Hm. unfold metadata_object. rewrite Ho, Hm. reflexivity. Qed.

(** The definition of a controller class leaves the metadata objects, the
    prototype chains and what every class finds under ["metadata"]. *)
Lemma declare_controller_store prefix d st st1 :
  controller_declaration prefix d ->
  declare_class d st = Returned tt st1 ->
  objects st1 = objects st /\
  prototypes st1 = prototypes st /\
  forall id, metadata_object id st1 = metadata_object id st.
Proof.
  intros (Hsuper & Hmethods & _) Hrun.
  unfold declare_class in Hrun. rewrite Hsuper in Hrun. revert Hrun. boot_steps.
  cbn [extend].
  set (target := declared_class d).
  set (sta := foldl (declare_method target) st (methods d)).
  set (stb := match paramtypes d with
              | Some l => Reflect_defineMetadata "design:paramtypes" (MClasses l)
                            (class_id target) sta
              | None => sta
              end).
  intros Hrun. destruct (declare_class_decorators_store _ _ _ _ Hrun) as (H1 & H2 & H3).
  assert (objects stb = objects st) as Ho.
  { transitivity (objects sta); [unfold stb; destruct (paramtypes d); reflexivity |].
    apply declare_methods_objects, Hmethods. }
  assert (prototypes stb = prototypes st) as Hp.
  { transitivity (prototypes sta); [unfold stb; destruct (paramtypes d); reflexivity |].
    apply declare_methods_prototypes. }
  rewrite H1, H2, Ho, Hp. repeat split.
  intros id. apply metadata_object_ext; [rewrite H1; exact Ho |].
  rewrite H3. unfold stb.
  destruct (declare_methods_fields target (methods d) st Hmethods) as (_ & _ & _ & _ & A5).
  cbv zeta in A5. fold sta in A5.
  destruct (paramtypes d).
  - rewrite getMetadata_define_other_key by discriminate.
    apply A5. unfold function_keys. simpl. intuition discriminate.
  - apply A5. unfold function_keys. simpl. intuition discriminate.
Qed.

(** *** The initializers, with what they read spelled out *)

Lemma nextTick_setters st :
  Forall (fun t => is_Some (task_class t)) (tickQueue st) ->
  nextTick st = (publish_all (setters (tickQueue st));; modify (set_queue [])) st.
Proof.
  intros Hq. unfold nextTick. simpl. rewrite run_ticks_setters by exact Hq. reflexivity.
Qed.

Lemma end_of_turn_setters st :
  Forall (fun t => is_Some (task_class t)) (tickQueue st) ->
  end_of_turn st = (publish_all (setters (tickQueue st));; modify (set_queue [])) st.
Proof.
  intros Hq. unfold end_of_turn. rewrite <- (app_nil_r (tickQueue st)) at 1.
  rewrite run_ticks_setters by exact Hq. reflexivity.
Qed.

Lemma only_setters_all st :
  only_setters st -> Forall (fun t => is_Some (task_class t)) (tickQueue st).
Proof.
  intros H. eapply Forall_impl; [exact H |]. intros t (c & Hc & _). rewrite Hc. eauto.
Qed.

Lemma setters_routable st q :
  Forall (fun t => exists cls, task_class t = Some cls /\ routable cls st = true) q ->
  Forall (fun p => routable (class_id (controllerClass p)) st = true) (setters q).
Proof.
  induction q as [| t q IH]; intros Hq; [constructor |].
  apply Forall_cons in Hq as [(c & Hc & Hr) Hq].
  destruct t as [p |]; [| discriminate]. injection Hc as <-.
  change (setters (SetterTask p :: q)) with (p :: setters q).
  constructor; [exact Hr | exact (IH Hq)].
Qed.

(** The waiting callbacks run and none throws. *)
Lemma after_ticks_Returned st :
  only_setters st -> publish_all (setters (tickQueue st)) st = Returned tt (after_ticks st).
Proof.
  intros H. destruct (publish_all_returns _ _ (setters_routable _ _ H)) as (st' & Hst').
  unfold after_ticks. rewrite Hst'. reflexivity.
Qed.

Lemma nextTick_after_ticks st :
  only_setters st -> nextTick st = Returned tt (set_queue [] (after_ticks st)).
Proof.
  intros H. rewrite nextTick_setters by (apply only_setters_all, H).
  boot_steps. rewrite (after_ticks_Returned _ H). reflexivity.
Qed.

Lemma end_of_turn_after_ticks st :
  only_setters st -> end_of_turn st = Returned tt (set_queue [] (after_ticks st)).
Proof.
  intros H. rewrite end_of_turn_setters by (apply only_setters_all, H).
  boot_steps. rewrite (after_ticks_Returned _ H). reflexivity.
Qed.

Lemma after_ticks_keeps st :
  only_setters st ->
  ServicesMap (after_ticks st) = ServicesMap st /\
  console (after_ticks st) = console st /\
  forall key id, key <> "metadata" ->
    Reflect_getMetadata key id (after_ticks st) = Reflect_getMetadata key id st.
Proof.
  intros H. pose proof (after_ticks_Returned _ H) as Hrun.
  split; [apply (publish_all_fields _ _ _ Hrun) |].
  split; [apply (publish_all_fields _ _ _ Hrun) |].
  intros key id Hkey. eapply publish_all_other_key; eassumption.
Qed.

Lemma after_ticks_fields st :
  only_setters st ->
  tickQueue (after_ticks st) = tickQueue st /\
  prototypes (after_ticks st) = prototypes st /\
  trace (after_ticks st) = trace st ++ map publish_event (setters (tickQueue st)) /\
  forall cls, routable cls st = true -> routable cls (after_ticks st) = true.
Proof.
  intros H. pose proof (after_ticks_Returned _ H) as Hrun.
  split; [apply (publish_all_fields _ _ _ Hrun) |].
  split; [apply (publish_all_fields _ _ _ Hrun) |].
  split; [apply (publish_all_fields _ _ _ Hrun) |].
  intros cls. eapply publish_all_routable, Hrun.
Qed.

Lemma tag_of_after_ticks cls st :
  only_setters st -> tag_of cls (after_ticks st) = tag_of cls st.
Proof.
  intros H. unfold tag_of. destruct (after_ticks_keeps st H) as (_ & _ & Hkeys).
  rewrite Hkeys by discriminate. reflexivity.
Qed.

Lemma after_ticks_registered target st :
  only_setters st ->
  Forall (registered st) (paramtypes_of target st) ->
  paramtypes_of target (after_ticks st) = paramtypes_of target st /\
  Forall (registered (after_ticks st)) (paramtypes_of target (after_ticks st)).
Proof.
  intros H Hdeps. destruct (after_ticks_keeps st H) as (Hsm & _ & Hkeys).
  assert (Hpt : paramtypes_of target (after_ticks st) = paramtypes_of target st).
  { unfold paramtypes_of. rewrite Hkeys by discriminate. reflexivity. }
  split; [exact Hpt |]. rewrite Hpt. unfold registered. rewrite Hsm. exact Hdeps.
Qed.

Lemma controller_instance_after_ticks target st :
  only_setters st ->
  controller_instance target (after_ticks st) = controller_instance target st.
Proof.
  intros H. destruct (after_ticks_keeps st H) as (Hsm & _ & Hkeys).
  unfold controller_instance, paramtypes_of.
  rewrite Hkeys by discriminate. rewrite Hsm. reflexivity.
Qed.

(** What the controller's loop does, by what is found under
    ["metadata"]. *)
Lemma published_routable cls st :
  routable cls st = true ->
  match metadata_object cls st with
  | Some (_, metadata) => elements metadata = Some (published cls st)
  | None => published cls st = []
  end.
Proof.
  unfold routable, published.
  destruct (metadata_object cls st) as [[o obj] |]; [| reflexivity].
  destruct (elements obj); [reflexivity |].
  rewrite bool_decide_eq_false_2 by (intros [x Hx]; discriminate). discriminate.
Qed.

(** The controller's initializer, run on a state whose tick queue holds
    route callbacks only and where the dependencies are registered: the
    callbacks run, then the metadata is read and one route registered for
    each entry. *)
Lemma Controller_initializeController_explicit prefix target app options st :
  only_setters st ->
  Forall (registered st) (paramtypes_of target st) ->
  routable (class_id target) st = true ->
  Controller_initializeController prefix target app options st =
    Returned
      (foldl (register_route prefix (tag_of (class_id target) (after_ticks st)) options
                (default noop (options ≫= auth)) (default noop (options ≫= response_hook))
                (controller_instance target (after_ticks st)))
         app (published (class_id target) (after_ticks st)))
      (record (InitializerRead (class_id target)) (set_queue [] (after_ticks st))).
Proof.
  intros Hq Hdeps Hr. destruct (after_ticks_registered target st Hq Hdeps) as (_ & Hreg).
  pose proof (inject_resolved target _ (set_queue [] (after_ticks st)) _
                (resolved_omap (after_ticks st) _ Hreg)) as Hinj.
  destruct (after_ticks_fields st Hq) as (_ & _ & _ & Hrs).
  pose proof (published_routable _ _ (Hrs _ Hr)) as Hpub.
  unfold Controller_initializeController. boot_steps.
  rewrite (nextTick_after_ticks _ Hq).
  change (paramtypes_of target (set_queue [] (after_ticks st)))
    with (paramtypes_of target (after_ticks st)).
  rewrite Hinj.
  change (metadata_object (class_id target)
            (record (InitializerRead (class_id target)) (set_queue [] (after_ticks st))))
    with (metadata_object (class_id target) (after_ticks st)).
  destruct (metadata_object (class_id target) (after_ticks st)) as [[o obj] |].
  - rewrite Hpub. reflexivity.
  - rewrite Hpub. reflexivity.
Qed.


Lemma Websocket_initializeController_explicit wspath isPublic_ target app options st :
  only_setters st ->
  Forall (registered st) (paramtypes_of target st) ->
  exists r,
    Websocket_initializeController wspath isPublic_ target app options st =
      Returned (app_ws r app)
        (record (InitializerRead (class_id target)) (set_queue [] (after_ticks st))) /\
    ws_path r = wspath /\
    ws_open r =
      (fun fn => {| hook_fn := fn; hook_this := controller_instance target (after_ticks st) |})
        <$> socket_open (socket_metadata target (after_ticks st)) /\
    ws_close r =
      (fun fn => {| hook_fn := fn; hook_this := controller_instance target (after_ticks st) |})
        <$> socket_close (socket_metadata target (after_ticks st)) /\
    ws_message r =
      (fun fn => {| hook_fn := fn; hook_this := controller_instance target (after_ticks st) |})
        <$> socket_message (socket_metadata target (after_ticks st)) /\
    ws_body r = socket_body (socket_metadata target (after_ticks st)).
Proof.
  intros Hq Hdeps. destruct (after_ticks_registered target st Hq Hdeps) as (_ & Hreg).
  pose proof (inject_resolved target _ (set_queue [] (after_ticks st)) _
                (resolved_omap (after_ticks st) _ Hreg)) as Hinj.
  eexists. split.
  - unfold Websocket_initializeController. boot_steps.
    rewrite (nextTick_after_ticks _ Hq).
    change (paramtypes_of target (set_queue [] (after_ticks st)))
      with (paramtypes_of target (after_ticks st)).
    rewrite Hinj. reflexivity.
  - repeat split.
Qed.

Lemma setters_app q1 q2 : setters (q1 ++ q2) = setters q1 ++ setters q2.
Proof. apply omap_app. Qed.

Lemma setters_map_SetterTask ps : setters (map SetterTask ps) = ps.
Proof. induction ps as [| p ps IH]; simpl; [| rewrite IH]; reflexivity. Qed.

Lemma setters_other_class cls st q :
  Forall (fun t => exists c, task_class t = Some c /\ c <> cls /\ routable c st = true) q ->
  Forall (fun p => class_id (controllerClass p) <> cls) (setters q).
Proof.
  induction q as [| t q IH]; intros Hq; [constructor |].
  apply Forall_cons in Hq as [(c & Hc & Hne & _) Hq].
  destruct t as [p |]; [| discriminate]. injection Hc as <-.
  change (setters (SetterTask p :: q)) with (p :: setters q).
  constructor; [exact Hne | exact (IH Hq)].
Qed.

Lemma deferred_class target fn x p :
  deferred target fn x = Some p -> controllerClass p = target.
Proof. destruct x; intros [= <-]; reflexivity. Qed.

Lemma filter_all {A} (P : A -> Prop) `{forall x, Decision (P x)} (l : list A) :
  Forall P l -> filter P l = l.
Proof.
  induction l as [| x l IH]; intros Hl; [reflexivity |].
  apply Forall_cons in Hl as [Hx Hl]. rewrite filter_cons_True by exact Hx.
  rewrite IH by exact Hl. reflexivity.
Qed.

Lemma deferred_by_class_own d :
  Forall (fun p => class_id (controllerClass p) = class_id (declared_class d))
    (deferred_by_class d).
Proof.
  apply Forall_forall. intros p Hp.
  unfold deferred_by_class in Hp. apply list_elem_of_In, in_flat_map in Hp as (md & _ & Hp).
  unfold deferred_by_method in Hp. apply list_elem_of_In, list_elem_of_omap in Hp as (x & _ & Hx).
  rewrite (deferred_class _ _ _ _ Hx). reflexivity.
Qed.


Section DefinedThenInitialized.

(** A controller class is defined on a fresh class object, its
    dependencies being registered services. *)
Variables (prefix : string) (d : ClassDeclaration) (st0 : State).
Hypothesis Hd : controller_declaration prefix d.
Hypothesis Hfresh : fresh_class (declared_class d) st0.
Hypothesis Hdeps : dependencies_registered d st0.

(** The definition of the class: the route callbacks are queued behind
    the ones waiting, the initializer is stored, and nothing is found
    under ["metadata"] yet. *)
Lemma controller_defined :
  exists st1,
    declare_class d st0 = Returned tt st1 /\
    Reflect_getMetadata "initialize" (class_id (declared_class d)) st1 =
      Some (MInitialize (ControllerInitializer (slash prefix) (declared_class d))) /\
    Reflect_getMetadata "metadata" (class_id (declared_class d)) st1 = None /\
    tickQueue st1 = tickQueue st0 ++ map SetterTask (deferred_by_class d) /\
    trace st1 = trace st0 ++ flat_map (method_events (declared_class d)) (methods d) ++
                map (fun _ => ClassAnnotation (class_id (declared_class d)))
                    (class_decorators d) /\
    only_setters st1 /\
    Forall (registered st1) (paramtypes_of (declared_class d) st1) /\
    routable (class_id (declared_class d)) st1 = true /\
    prototypes st1 !! class_id (declared_class d) = None /\
    ServicesMap st1 = ServicesMap st0.
Proof.
  pose proof Hfresh as (Hproto & Hnone & Hqueue & _).
  set (target := declared_class d) in *.
  destruct (declare_controller_class prefix d st0 Hd)
    as (st1 & Hdecl & S1 & S2 & S3 & S4 & S5 & S6 & S7).
  destruct (declare_controller_store prefix d st0 st1 Hd Hdecl) as (So & Sp & Sm).
  fold target in S4, S5, S6, S7.
  assert (metadata_object (class_id target) st1 = None) as Hmo.
  { unfold metadata_object. rewrite S6, Hnone. reflexivity. }
  exists st1. split; [exact Hdecl |]. split; [exact S5 |].
  split; [rewrite S6; apply Hnone |]. split; [exact S3 |]. split; [exact S4 |].
  split; [| split; [| split; [| split]]].
  - unfold only_setters. rewrite S3. apply Forall_app. split.
    + eapply Forall_impl; [exact Hqueue |]. intros t (c & Hc & _ & Hr).
      exists c. split; [exact Hc |]. unfold routable in *. rewrite Sm. exact Hr.
    + apply Forall_forall. intros t Ht.
      apply list_elem_of_In, in_map_iff in Ht as (p & <- & Hp).
      exists (class_id target). split.
      * simpl. f_equal. pose proof (deferred_by_class_own d) as Hown.
        rewrite Forall_forall in Hown. apply Hown, list_elem_of_In, Hp.
      * unfold routable. rewrite Hmo. reflexivity.
  - rewrite S7. unfold registered. rewrite S1. unfold dependencies_registered in Hdeps.
    destruct (paramtypes d); [exact Hdeps |].
    unfold paramtypes_of. rewrite Hnone. constructor.
  - unfold routable. rewrite Hmo. reflexivity.
  - rewrite Sp. exact Hproto.
  - exact S1.
Qed.

(** From the definition of a controller class to its initialization,
    whether or not the turn of the definition ended in between. *)
Lemma controller_boot app options (turn_ended : bool) :
  exists st1 stx st2,
    declare_class d st0 = Returned tt st1 /\
    Reflect_getMetadata "initialize" (class_id (declared_class d)) st1 =
      Some (MInitialize (ControllerInitializer (slash prefix) (declared_class d))) /\
    Reflect_getMetadata "metadata" (class_id (declared_class d)) st1 = None /\
    tickQueue st1 = tickQueue st0 ++ map SetterTask (deferred_by_class d) /\
    trace st1 = trace st0 ++ flat_map (method_events (declared_class d)) (methods d) ++
                map (fun _ => ClassAnnotation (class_id (declared_class d)))
                    (class_decorators d) /\
    settle turn_ended st1 = Returned tt stx /\
    run_initializer (ControllerInitializer (slash prefix) (declared_class d)) app options
      stx =
      Returned
        (foldl (register_route (slash prefix) (tag_of (class_id (declared_class d)) st1)
                  options (default noop (options ≫= auth))
                  (default noop (options ≫= response_hook))
                  (controller_instance (declared_class d) st1))
           app (published (class_id (declared_class d)) st2))
        st2 /\
    published (class_id (declared_class d)) st2 =
      map (fun p => route_metadata p st1) (deferred_by_class d) /\
    trace st2 = trace st1 ++
      map publish_event (setters (tickQueue st0) ++ deferred_by_class d) ++
      [InitializerRead (class_id (declared_class d))].
Proof.
  destruct controller_defined
    as (st1 & Hdecl & Hinit & Hnone & S3 & S4 & Hq1 & Hreg1 & Hr1 & Hp1 & _).
  pose proof Hfresh as (_ & _ & Hqueue & _).
  set (target := declared_class d) in *.
  assert (setters (tickQueue st1) = setters (tickQueue st0) ++ deferred_by_class d) as Hps.
  { rewrite S3, setters_app, setters_map_SetterTask. reflexivity. }
  set (stp := after_ticks st1).
  pose proof (after_ticks_Returned _ Hq1) as Hrun. fold stp in Hrun.
  destruct (after_ticks_fields _ Hq1) as (F1 & F2 & F3 & F4). fold stp in F1, F2, F3, F4.
  assert (published (class_id target) stp =
          map (fun p => route_metadata p st1) (deferred_by_class d)) as Hpub.
  { rewrite Hps, publish_all_app in Hrun. revert Hrun. boot_steps.
    destruct (publish_all (setters (tickQueue st0)) st1) as [[] stf | code stf | err stf]
      eqn:Hforeign; try discriminate.
    intros Hown. unfold target.
    rewrite (publish_all_entries _ _ _ _ Hown (deferred_by_class_own d)). fold target.
    assert (published (class_id target) stf = []) as ->.
    { unfold published, metadata_object.
      rewrite getMetadata_own
        by (rewrite (proj1 (proj2 (proj2 (proj2 (publish_all_fields _ _ _ Hforeign)))));
            exact Hp1).
      rewrite (publish_all_registry_other _ _ _ _ _ Hforeign
                 (setters_other_class _ _ _ Hqueue)).
      rewrite <- getMetadata_own by exact Hp1. rewrite Hnone. reflexivity. }
    simpl. apply map_ext. intros p. apply route_metadata_ext. intros key Hkey.
    eapply publish_all_other_key; eassumption. }
  assert (only_setters (set_queue [] stp)) as Hqx by constructor.
  assert (after_ticks (set_queue [] stp) = set_queue [] stp) as Hax by reflexivity.
  set (stx := if turn_ended then set_queue [] stp else st1).
  assert (settle turn_ended st1 = Returned tt stx) as Hsettle.
  { unfold stx, settle. destruct turn_ended; [| reflexivity].
    apply end_of_turn_after_ticks, Hq1. }
  assert (only_setters stx /\
          Forall (registered stx) (paramtypes_of target stx) /\
          routable (class_id target) stx = true /\
          published (class_id target) (after_ticks stx) = published (class_id target) stp /\
          tag_of (class_id target) (after_ticks stx) = tag_of (class_id target) st1 /\
          controller_instance target (after_ticks stx) = controller_instance target st1 /\
          trace (after_ticks stx) = trace stp) as (Hq & Hreg & Hr & Hpx & Htag & Hci & Htr).
  { unfold stx. destruct turn_ended.
    - rewrite Hax.
      change (paramtypes_of target (set_queue [] stp)) with (paramtypes_of target stp).
      change (routable (class_id target) (set_queue [] stp))
        with (routable (class_id target) stp).
      change (tag_of (class_id target) (set_queue [] stp)) with (tag_of (class_id target) stp).
      change (controller_instance target (set_queue [] stp))
        with (controller_instance target stp).
      split; [exact Hqx |].
      split; [apply (after_ticks_registered target st1 Hq1 Hreg1) |].
      split; [apply F4, Hr1 |]. split; [reflexivity |].
      split; [apply tag_of_after_ticks, Hq1 |].
      split; [apply controller_instance_after_ticks, Hq1 | reflexivity].
    - fold stp. split; [exact Hq1 |]. split; [exact Hreg1 |]. split; [exact Hr1 |].
      split; [reflexivity |]. split; [apply tag_of_after_ticks, Hq1 |].
      split; [apply controller_instance_after_ticks, Hq1 | reflexivity]. }
  exists st1, stx, (record (InitializerRead (class_id target)) (set_queue [] (after_ticks stx))).
  split; [exact Hdecl |]. split; [exact Hinit |]. split; [exact Hnone |].
  split; [exact S3 |]. split; [exact S4 |]. split; [exact Hsettle |].
  change (published (class_id target)
            (record (InitializerRead (class_id target)) (set_queue [] (after_ticks stx))))
    with (published (class_id target) (after_ticks stx)).
  split; [| split].
  - cbn [run_initializer].
    rewrite (Controller_initializeController_explicit _ _ _ _ _ Hq Hreg Hr).
    rewrite Htag, Hci. reflexivity.
  - rewrite Hpx. exact Hpub.
  - cbn [trace record set_queue]. rewrite Htr, F3, Hps, <- app_assoc. reflexivity.
Qed.

End DefinedThenInitialized.


(** The class decorators of a controller leave what the decorators of its
    methods stored. *)
Lemma declare_class_function_keys prefix d st st1 :
  controller_declaration prefix d ->
  declare_class d st = Returned tt st1 ->
  forall id key, In key function_keys ->
    Reflect_getMetadata key id st1 =
    Reflect_getMetadata key id (foldl (declare_method (declared_class d)) st (methods d)).
Proof.
  intros (Hsuper & _ & before & after & Hds) Hrun id key Hkey.
  set (target := declared_class d) in *.
  set (sta := foldl (declare_method target) st (methods d)).
  set (stb := match paramtypes d with
              | Some l => Reflect_defineMetadata "design:paramtypes" (MClasses l)
                            (class_id target) sta
              | None => sta
              end).
  destruct (declare_controller_decorators target prefix before after stb)
    as (ste & He & _ & _ & _ & _ & _ & E6).
  rewrite <- Hds in He.
  assert (declare_class d st = Returned tt ste) as Hrun'.
  { unfold declare_class. fold target. rewrite Hsuper. boot_steps. exact He. }
  rewrite Hrun in Hrun'. injection Hrun' as ->.
  assert (key <> "tag" /\ key <> "initialize" /\ key <> "design:paramtypes") as (K1 & K2 & K3).
  { unfold function_keys in Hkey. simpl in Hkey.
    repeat split; intros ->; intuition discriminate. }
  rewrite E6 by assumption. unfold stb. destruct (paramtypes d); [| reflexivity].
  apply getMetadata_define_other_key, K3.
Qed.

Lemma deferred_by_method_handler target md p :
  In p (deferred_by_method target md) -> props_handler p = method_fn md.
Proof.
  unfold deferred_by_method. intros Hp.
  apply list_elem_of_In, list_elem_of_omap in Hp as (x & _ & Hx).
  destruct x; try discriminate Hx; injection Hx as <-; reflexivity.
Qed.

(** What is published for a controller follows the decorators of its
    methods, wherever the route decorator stands among them: a route is
    marked public exactly when its method carries [Public], and its custom
    extractors are those of the method's parameters, in the order their
    decorators were applied. *)
Lemma published_entries_follow_decorators prefix d st0 app options (turn_ended : bool) :
  controller_declaration prefix d ->
  fresh_class (declared_class d) st0 ->
  dependencies_registered d st0 ->
  NoDup (map (fun x => fn_id (method_fn x)) (methods d)) ->
  fresh_methods d st0 ->
  exists st1 stx st2 app',
    declare_class d st0 = Returned tt st1 /\
    settle turn_ended st1 = Returned tt stx /\
    run_initializer (ControllerInitializer (slash prefix) (declared_class d)) app options
      stx = Returned app' st2 /\
    forall m, In m (published (class_id (declared_class d)) st2) ->
      exists md, In md (methods d) /\ handler m = method_fn md /\
        isPublic m = existsb is_Public (method_decorators md) /\
        customDecorators m = omap custom_binding (parameter_decorators md).
Proof.
  intros Hd Hfresh Hdeps Hnd Hfm.
  destruct (controller_boot prefix d st0 Hd Hfresh Hdeps app options turn_ended)
    as (st1 & stx & st2 & Hdecl & _ & _ & _ & _ & Hsettle & Hrun & Hpub & _).
  eexists st1, stx, st2, _. split; [exact Hdecl |]. split; [exact Hsettle |].
  split; [exact Hrun |].
  intros m Hm. rewrite Hpub in Hm. apply in_map_iff in Hm as (p & <- & Hp).
  unfold deferred_by_class in Hp. apply in_flat_map in Hp as (md & Hmd & Hp).
  exists md. split; [exact Hmd |].
  pose proof (deferred_by_method_handler _ _ _ Hp) as Hh.
  split; [exact Hh |].
  destruct (Hfm md Hmd) as (Hproto & Hnone).
  destruct (declare_methods_keys (declared_class d) (fn_id (method_fn md))
              (methods d) st0 md Hproto Hnd Hmd eq_refl) as (K1 & K2).
  pose proof (declare_class_function_keys prefix d st0 st1 Hd Hdecl) as Hkeys.
  unfold route_metadata. cbn [isPublic customDecorators]. rewrite Hh. split.
  - rewrite Hkeys by (unfold function_keys; simpl; tauto). rewrite K2.
    rewrite Hnone. destruct (existsb is_Public (method_decorators md)); reflexivity.
  - rewrite Hkeys by (unfold function_keys; simpl; tauto).
    fold (custom_decorators_of (fn_id (method_fn md))
            (foldl (declare_method (declared_class d)) st0 (methods d))).
    rewrite K1. unfold custom_decorators_of. rewrite Hnone. reflexivity.
Qed.

(** In the sample class [Public] is applied after [Get]: the route is
    public all the same. *)
Example sample_public_after_route :
  map (fun m => (route_key m, isPublic m, bodySchema m)) (published 10 sample_published_state) =
  [((get, "/a"), true, Some {| schema := None; index := 0 |});
   ((post, "/b"), false, None)].
Proof. vm_compute. reflexivity. Qed.

Example sample_boot :
  observe ((declare_class sample_declaration;;
            Controller_initializeController "/users" sample_class new_Elysia None)
             initial_state) =
  Some ([("get", "/users/a"); ("post", "/users/b")],
        [ParameterAnnotation 10 11; MethodAnnotation 10 11; MethodAnnotation 10 11;
         MethodAnnotation 10 12; ClassAnnotation 10;
         Publish 10 11; Publish 10 12; InitializerRead 10]).
Proof. vm_compute. reflexivity. Qed.

(** ** Controller initialization *)



(** C1, as stated, fails for a controller class that extends a decorated
    class: the class below declares one route and its initializer
    registers two, the first being the route of its superclass. *)
Lemma inherited_routes_are_registered :
  exists app' st2,
    (declare_class base_declaration;; declare_class derived_declaration;;
     run_initializer (ControllerInitializer "/sub" derived_class) new_Elysia None)
      initial_state = Returned app' st2 /\
    declared_routes derived_declaration = [("get", "/b")] /\
    map registration (routes app') = [("get", "/sub/a"); ("get", "/sub/b")] /\
    length (routes app') <> length (declared_routes derived_declaration).
Proof.
  eexists _, _. split; [vm_compute; reflexivity |].
  split; [reflexivity |]. split; [reflexivity |]. simpl. lia.
Qed.

(** Two route decorators stacked on one method are applied from the one
    nearest to the method outwards, and the routes registered in that
    order: the reverse of the order of the text. *)
Example stacked_routes_register_bottom_up :
  routes_in_textual_order stacked_declaration = [("get", "/a"); ("post", "/b")] /\
  observe ((declare_class stacked_declaration;;
            run_initializer (ControllerInitializer "/users" sample_class) new_Elysia None)
             initial_state) =
  Some ([("post", "/users/b"); ("get", "/users/a")],
        [MethodAnnotation 10 11; MethodAnnotation 10 11; ClassAnnotation 10;
         Publish 10 11; Publish 10 11; InitializerRead 10]).
Proof. split; [reflexivity | vm_compute; reflexivity]. Qed.



(** A dependency that is not a registered service ends the process before
    any route is registered. *)
Lemma Controller_initializeController_missing_service prefix target app options st :
  only_setters st ->
  ~ Forall (fun s => is_Some (ServicesMap st !! class_name s)) (paramtypes_of target st) ->
  exists st', Controller_initializeController prefix target app options st = Exited (-1) st'.
Proof.
  intros Hq H. destruct (after_ticks_keeps st Hq) as (Hsm & _ & Hkeys).
  destruct (inject_missing target (paramtypes_of target st) (set_queue [] (after_ticks st)))
    as (st' & Hst').
  { cbn [ServicesMap set_queue]. rewrite Hsm. exact H. }
  exists st'. unfold Controller_initializeController. boot_steps.
  rewrite (nextTick_after_ticks _ Hq).
  change (paramtypes_of target (set_queue [] (after_ticks st)))
    with (paramtypes_of target (after_ticks st)).
  unfold paramtypes_of at 1. rewrite Hkeys by discriminate.
  fold (paramtypes_of target st). rewrite Hst'. reflexivity.
Qed.

(** ** The deferred publication *)

Lemma precedes_split (P Q : Event -> Prop) l1 l2 :
  Forall (fun e => ~ Q e) l1 -> Forall (fun e => ~ P e) l2 -> precedes P Q (l1 ++ l2).
Proof.
  intros H1 H2 i j e1 e2 Hi Hj HP HQ.
  destruct (decide (i < length l1)) as [Hlt | Hge].
  - destruct (decide (j < length l1)) as [Hjlt | Hjge]; [| lia].
    rewrite lookup_app_l in Hj by exact Hjlt.
    rewrite Forall_forall in H1. destruct (H1 e2); [| exact HQ].
    eapply list_elem_of_lookup_2, Hj.
  - rewrite lookup_app_r in Hi by lia.
    rewrite Forall_forall in H2. destruct (H2 e1); [| exact HP].
    eapply list_elem_of_lookup_2, Hi.
Qed.

Lemma method_events_members target md :
  Forall (member_annotation (class_id target)) (method_events target md).
Proof.
  unfold method_events. apply Forall_app. split; apply Forall_forall; intros e He;
    apply list_elem_of_In, in_map_iff in He as (x & <- & _); reflexivity.
Qed.

Lemma methods_events_members target mds :
  Forall (member_annotation (class_id target)) (flat_map (method_events target) mds).
Proof.
  induction mds as [| md mds IH]; [constructor |].
  simpl. apply Forall_app. split; [apply method_events_members | exact IH].
Qed.

(** C4, as stated, fails: the publication of a class's routes does not
    complete before the class annotation runs; in the sample program the
    class annotation is the fifth event and the publications come after
    it. *)
Lemma publication_follows_class_annotation :
  exists st1 app' st2,
    declare_class sample_declaration initial_state = Returned tt st1 /\
    Controller_initializeController "/users" sample_class new_Elysia None st1 =
      Returned app' st2 /\
    trace st2 =
      [ParameterAnnotation 10 11; MethodAnnotation 10 11; MethodAnnotation 10 11;
       MethodAnnotation 10 12; ClassAnnotation 10;
       Publish 10 11; Publish 10 12; InitializerRead 10] /\
    ~ precedes (publication 10) (class_annotation 10) (trace st2).
Proof.
  eexists _, _, _. split; [vm_compute; reflexivity |].
  split; [vm_compute; reflexivity |].
  split; [reflexivity |].
  intros H. specialize (H 5 4 (Publish 10 11) (ClassAnnotation 10) eq_refl eq_refl eq_refl eq_refl).
  lia.
Qed.

(** C4, amended: each route annotation only queues its metadata write, so
    right after the synchronous pass of the class definition nothing is
    published; the writes run after that pass, that is (a) after every
    parameter and method annotation of the class and after its class
    annotation, and (b) before the class's initializer, which waits for
    them, reads the metadata: what it reads is the entry of every declared
    route, and it registers one route for each of them. *)
Theorem route_metadata_published_before_read prefix d st0 app options (turn_ended : bool) :
  controller_declaration prefix d ->
  fresh_class (declared_class d) st0 ->
  dependencies_registered d st0 ->
  exists st1 stx st2 app' new,
    declare_class d st0 = Returned tt st1 /\
    Reflect_getMetadata "metadata" (class_id (declared_class d)) st1 = None /\
    tickQueue st1 = tickQueue st0 ++ map SetterTask (deferred_by_class d) /\
    settle turn_ended st1 = Returned tt stx /\
    run_initializer (ControllerInitializer (slash prefix) (declared_class d)) app options
      stx = Returned app' st2 /\
    map route_key (published (class_id (declared_class d)) st2) =
      map (fun p => (props_method p, slash (props_path p))) (deferred_by_class d) /\
    routes app' = routes app ++ new /\
    Forall2 (serves (slash prefix) (controller_instance (declared_class d) st1))
      (map (fun p => route_metadata p st1) (deferred_by_class d)) new /\
    last (trace st2) = Some (InitializerRead (class_id (declared_class d))) /\
    precedes (member_annotation (class_id (declared_class d)))
             (publication (class_id (declared_class d))) (trace st2) /\
    precedes (class_annotation (class_id (declared_class d)))
             (publication (class_id (declared_class d))) (trace st2) /\
    precedes (publication (class_id (declared_class d)))
             (initializer_read (class_id (declared_class d))) (trace st2).
Proof.
  intros Hd Hfresh Hdeps.
  destruct (controller_boot prefix d st0 Hd Hfresh Hdeps app options turn_ended)
    as (st1 & stx & st2 & Hdecl & _ & Hnone & Hqueue & Htr1 & Hsettle & Hrun & Hpub & Htr2).
  pose proof (register_routes_fields (slash prefix) (tag_of (class_id (declared_class d)) st1)
                options (controller_instance (declared_class d) st1)
                (published (class_id (declared_class d)) st2) app) as (Hroutes & _).
  cbv zeta in Hroutes.
  pose proof (registered_by_serves (slash prefix) (tag_of (class_id (declared_class d)) st1)
                options (controller_instance (declared_class d) st1)
                (published (class_id (declared_class d)) st2)) as Hserves.
  rewrite Hpub in Hserves at 1.
  apply (f_equal (map route_key)) in Hpub. rewrite route_keys_of_entries in Hpub.
  destruct Hfresh as (_ & _ & _ & Hold).
  set (cls := class_id (declared_class d)) in *.
  rewrite Htr1 in Htr2.
  assert (Forall (fun e => ~ publication cls e /\ ~ initializer_read cls e)
            (trace st0 ++ flat_map (method_events (declared_class d)) (methods d) ++
             map (fun _ => ClassAnnotation cls) (class_decorators d))) as Hfirst.
  { apply Forall_app. split; [| apply Forall_app; split].
    - eapply Forall_impl; [exact Hold |]. intros e He. destruct e; simpl in *; tauto.
    - eapply Forall_impl; [apply methods_events_members |].
      intros e He. destruct e; simpl in *; tauto.
    - apply Forall_forall. intros e He.
      apply list_elem_of_In, in_map_iff in He as (x & <- & _). simpl. tauto. }
  assert (Forall (fun e => ~ member_annotation cls e /\ ~ class_annotation cls e /\
                           ~ initializer_read cls e)
            (map publish_event (setters (tickQueue st0) ++ deferred_by_class d))) as Hsecond.
  { apply Forall_forall. intros e He.
    apply list_elem_of_In, in_map_iff in He as (x & <- & _). simpl. tauto. }
  eexists st1, stx, st2, _, _.
  split; [exact Hdecl |]. split; [exact Hnone |]. split; [exact Hqueue |].
  split; [exact Hsettle |]. split; [exact Hrun |]. split; [exact Hpub |].
  split; [exact Hroutes |]. split; [exact Hserves |].
  split; [| split; [| split]].
  - rewrite Htr2, !app_assoc. apply last_snoc.
  - rewrite Htr2. apply precedes_split.
    + eapply Forall_impl; [exact Hfirst |]. cbv beta. intros e He. tauto.
    + apply Forall_app. split.
      * eapply Forall_impl; [exact Hsecond |]. cbv beta. intros e He. tauto.
      * repeat constructor. simpl. tauto.
  - rewrite Htr2. apply precedes_split.
    + eapply Forall_impl; [exact Hfirst |]. cbv beta. intros e He. tauto.
    + apply Forall_app. split.
      * eapply Forall_impl; [exact Hsecond |]. cbv beta. intros e He. tauto.
      * repeat constructor. simpl. tauto.
  - rewrite Htr2, app_assoc. apply precedes_split.
    + apply Forall_app. split.
      * eapply Forall_impl; [exact Hfirst |]. cbv beta. intros e He. tauto.
      * eapply Forall_impl; [exact Hsecond |]. cbv beta. intros e He. tauto.
    + repeat constructor. simpl. tauto.
Qed.

Lemma route_metadata_published_before_read_witness :
  exists st1 stx st2 app' new,
    declare_class sample_declaration initial_state = Returned tt st1 /\
    Reflect_getMetadata "metadata" 10 st1 = None /\
    tickQueue st1 = [] ++ map SetterTask (deferred_by_class sample_declaration) /\
    settle true st1 = Returned tt stx /\
    run_initializer (ControllerInitializer "/users" sample_class) new_Elysia None stx =
      Returned app' st2 /\
    map route_key (published 10 st2) = [(get, "/a"); (post, "/b")] /\
    routes app' = [] ++ new /\
    Forall2 (serves "/users" (controller_instance sample_class st1))
      (map (fun p => route_metadata p st1) (deferred_by_class sample_declaration)) new /\
    last (trace st2) = Some (InitializerRead 10) /\
    precedes (member_annotation 10) (publication 10) (trace st2) /\
    precedes (class_annotation 10) (publication 10) (trace st2) /\
    precedes (publication 10) (initializer_read 10) (trace st2).
Proof.
  apply (route_metadata_published_before_read "users" sample_declaration initial_state
           new_Elysia None true).
  - split; [reflexivity |]. split; [repeat constructor | exists [], []; reflexivity].
  - split; [reflexivity |]. split; [intros key; reflexivity |]. split; constructor.
  - constructor.
Defined.

(** ** Public routes and the authentication hook *)

Lemma run_handler_phases r c :
  (exists rest, phases (run_handler r c) = HandlerBody :: rest) /\
  ~ In PreHandler (phases (run_handler r c)).
Proof.
  unfold run_handler, phases. destruct (route_handler r) as [h | w].
  - destruct (h c) as [c2 [v | e]].
    + destruct (afterHandle (route_hooks r)) as [a |].
      * destruct (a c2) as [c3 [[] | e]]; simpl; split; eauto; intuition discriminate.
      * simpl; split; eauto; intuition discriminate.
    + simpl; split; eauto; intuition discriminate.
  - simpl; split; eauto; intuition discriminate.
Qed.

Lemma registered_by_rule prefix tag options controller m :
  exists r, registered_by prefix tag options controller m = [r] /\ http_rule options m r.
Proof.
  eexists. split; [reflexivity |]. unfold http_rule. split.
  - intros Hpub. simpl. rewrite Hpub. split; [reflexivity |].
    intros c. unfold handle_request. simpl. rewrite ?Hpub.
    split; [reflexivity | apply run_handler_phases].
  - intros Hpub a Ha. simpl. rewrite Hpub, Ha. split; [reflexivity |].
    intros c. unfold pre_handler_first, handle_request. simpl. rewrite ?Hpub, ?Ha. simpl.
    destruct (a c) as [c1 [[] | e]]; try reflexivity.
    split; [reflexivity |].
    match goal with |- context [run_handler ?r c1] =>
      destruct (run_handler_phases r c1) as [[rest Hrest] _];
      destruct (run_handler r c1) as [[ran c2] resp] end.
    unfold phases in *. simpl in *. subst ran. eauto.
Qed.

Lemma registered_by_rules prefix tag options controller ms :
  Forall2 (http_rule options) ms
    (flat_map (registered_by prefix tag options controller) ms).
Proof.
  induction ms as [| m ms IH]; [constructor |].
  destruct (registered_by_rule prefix tag options controller m) as (r & Hr & Hrule).
  cbn [flat_map]. rewrite Hr. constructor; assumption.
Qed.

(** What the controller's initializer has done when it returns. *)
Lemma Controller_initializeController_routes prefix target app options st app' st' :
  Controller_initializeController prefix target app options st = Returned app' st' ->
  exists tag services,
    routes app' = routes app ++
      flat_map (registered_by prefix tag options (NewInstance target services))
        (published (class_id target) st').
Proof.
  unfold Controller_initializeController. boot_steps.
  destruct (nextTick st) as [[] st0 | code st0 | err st0]; try discriminate.
  destruct (inject target _ _) as [services st1 | code st1 | err st1] eqn:Hinj;
    try discriminate.
  destruct (metadata_object (class_id target) (record _ st1)) as [[o obj] |] eqn:Hmo.
  - destruct (elements obj) as [l |] eqn:Hl; [| discriminate].
    intros [= <- <-]. eexists _, services. unfold published. rewrite Hmo, Hl.
    apply register_routes_fields.
  - intros [= <- <-]. exists "", services. unfold published. rewrite Hmo.
    simpl. rewrite app_nil_r. reflexivity.
Qed.

(** C2: a route marked public is registered without a pre-handler, so the
    authentication hook is not run for its requests; a route not marked
    public, when an authentication hook is configured, is registered with
    that hook as pre-handler, and the hook runs on every request before the
    handler body.  The same holds for a socket class and its open hook. *)
Theorem public_routes_skip_authentication :
  (forall prefix target app options st app' st',
     Controller_initializeController prefix target app options st = Returned app' st' ->
     exists new,
       routes app' = routes app ++ new /\
       Forall2 (http_rule options) (published (class_id target) st') new) /\
  (forall wspath isPublic_ target app options st app' st',
     Websocket_initializeController wspath isPublic_ target app options st =
       Returned app' st' ->
     exists r, sockets app' = sockets app ++ [r] /\ ws_rule options isPublic_ r).
Proof.
  split.
  - intros prefix target app options st app' st' Hrun.
    destruct (Controller_initializeController_routes _ _ _ _ _ _ _ Hrun)
      as (tag & services & Hroutes).
    eexists. split; [exact Hroutes | apply registered_by_rules].
  - intros wspath isPublic_ target app options st app' st'.
    unfold Websocket_initializeController. boot_steps.
    destruct (nextTick st) as [[] st0 | code st0 | err st0]; try discriminate.
    destruct (inject target _ _) as [services st1 | code st1 | err st1] eqn:Hinj;
      try discriminate.
    intros [= <- <-]. eexists. split; [reflexivity |]. unfold ws_rule. split.
    + intros ->. split; [reflexivity |]. intros c. unfold ws_connect, phases. simpl.
      destruct (socket_open _); simpl; intuition discriminate.
    + intros -> a Ha. unfold mbind in Ha. cbn [ws_beforeHandle negb]. rewrite Ha.
      split; [reflexivity |].
      intros c. unfold ws_connect, phases. cbn [ws_beforeHandle ws_open negb].
      destruct (a c) as [c1 [[] | e]]; simpl; eexists; (split; [reflexivity |]);
        simpl; tauto.
Qed.

Lemma public_routes_skip_authentication_witness :
  exists new,
    routes (outcome_app
              (Controller_initializeController "/users" sample_class new_Elysia
                 sample_options sample_published_state)) = [] ++ new /\
    Forall2 (http_rule sample_options)
      (published 10
         (outcome_state
            (Controller_initializeController "/users" sample_class new_Elysia
               sample_options sample_published_state)))
      new.
Proof.
  apply (proj1 public_routes_skip_authentication "/users" sample_class new_Elysia
           sample_options sample_published_state).
  vm_compute. reflexivity.
Defined.

(** The sample application: the public route has no pre-handler, the other
    one has the authentication hook. *)
Example sample_app_pre_handlers :
  map (fun r => (route_method r, route_path r,
                 bool_decide (is_Some (beforeHandle (route_hooks r)))))
      (routes sample_app) =
  [("get", "/users/a", false); ("post", "/users/b", true)].
Proof. vm_compute. reflexivity. Qed.

(** What the pre-handler of a route decides: a value it returns is the
    response, a value it throws goes to the error hook, and in both cases
    the handler does not run. *)
Lemma pre_handler_decides r h c :
  beforeHandle (route_hooks r) = Some h ->
  match h c with
  | (c1, Normal v) => v <> VUndefined -> handle_request r c = ([PreHandler], c1, Single v)
  | (c1, Throw e) => handle_request r c = ([PreHandler], c1, Failed e)
  end.
Proof.
  intros Hh. unfold handle_request. rewrite Hh.
  destruct (h c) as [c1 [[] | e]]; try reflexivity. intros Hv. contradiction.
Qed.

(** A request with a rejected token: the public route runs its handler,
    the other one is answered by the hook with 401 and its handler does
    not run. *)
Example sample_app_rejected_token :
  request_to sample_app "/users/a" (bearer_request "xyz") =
    Some ([HandlerBody; PostHandler], None, Some (Normal VUndefined)) /\
  request_to sample_app "/users/b" (bearer_request "xyz") =
    Some ([PreHandler], Some 401%Z, Some (Normal UNAUTHORIZED_MESSAGE)).
Proof. split; vm_compute; reflexivity. Qed.

(** A request with an accepted token: the hook runs, then the handler. *)
Example sample_app_accepted_token :
  request_to sample_app "/users/b" (bearer_request "good") =
    Some ([PreHandler; HandlerBody; PostHandler], None, Some (Normal VUndefined)).
Proof. vm_compute. reflexivity. Qed.

(** A request with an accepted token for a user without the required
    role: status 403, the forbidden object thrown, the handler not run. *)
Example sample_app_forbidden :
  request_to (sample_app_for (Some ["admin"])) "/users/b" (bearer_request "good") =
    Some ([PreHandler], Some 403%Z, Some (Throw FORBIDDEN_MESSAGE)).
Proof. vm_compute. reflexivity. Qed.

(** ** Duplicate services *)

Lemma declare_method_services target st md :
  ServicesMap (declare_method target st md) = ServicesMap st.
Proof.
  unfold declare_method.
  assert (forall ds st0,
            ServicesMap (foldl (fun st d =>
                                  record (MethodAnnotation (class_id target)
                                            (fn_id (method_fn md)))
                                    (apply_method_decorator d target (method_fn md) st))
                           st0 ds) = ServicesMap st0) as Hm.
  { induction ds as [| d ds IH]; intros st0; [reflexivity |].
    cbn [foldl]. rewrite IH. destruct d; try reflexivity; apply set_socket_property_fields. }
  rewrite Hm. generalize (parameter_decorators md). intros ps. revert st.
  induction ps as [| [i d] ps IH]; intros st; [reflexivity |].
  cbn [foldl]. rewrite IH. destruct d; reflexivity.
Qed.

Lemma declare_methods_services target mds : forall st,
  ServicesMap (foldl (declare_method target) st mds) = ServicesMap st.
Proof.
  induction mds as [| md mds IH]; intros st; [reflexivity |].
  cbn [foldl]. rewrite IH. apply declare_method_services.
Qed.

(** A class decorated as a service whose name is taken ends the process
    while its definition is evaluated. *)
Lemma declare_class_decorators_duplicate target : forall ds st,
  In Service ds -> is_Some (ServicesMap st !! class_name target) ->
  exists st', declare_class_decorators target ds st = Exited (-1) st'.
Proof.
  induction ds as [| d ds IH]; intros st Hin Hsome; [destruct Hin |].
  assert (d = Service \/
          exists st1, apply_class_decorator d target st = Returned tt st1 /\
                      ServicesMap st1 = ServicesMap st) as [-> | (st1 & Hrun & Hsm)].
  { destruct d; [right | right | right | right | left; reflexivity];
      eexists; split; reflexivity. }
  - simpl. unfold mbind at 1, boot_bind.
    rewrite apply_Service_duplicate by exact Hsome. eauto.
  - destruct Hin as [-> | Hin].
    + simpl. unfold mbind at 1, boot_bind.
      rewrite apply_Service_duplicate by exact Hsome. eauto.
    + destruct (IH (record (ClassAnnotation (class_id target)) st1) Hin) as (st' & Hst').
      { simpl. rewrite Hsm. exact Hsome. }
      exists st'. simpl. unfold mbind at 1, boot_bind. rewrite Hrun.
      exact Hst'.
Qed.

Lemma declare_class_duplicate d st :
  In Service (class_decorators d) ->
  is_Some (ServicesMap st !! class_name (declared_class d)) ->
  exists st', declare_class d st = Exited (-1) st'.
Proof.
  intros Hin Hsome. unfold declare_class. boot_steps.
  apply declare_class_decorators_duplicate; [exact Hin |].
  assert (ServicesMap (extend (declared_class d) (superclass d) st) = ServicesMap st) as He.
  { destruct (superclass d); reflexivity. }
  destruct (paramtypes d); simpl; rewrite declare_methods_services, He; exact Hsome.
Qed.

Lemma declare_all_app ds1 ds2 : forall st st1,
  declare_all ds1 st = Returned tt st1 ->
  declare_all (ds1 ++ ds2) st = declare_all ds2 st1.
Proof.
  induction ds1 as [| d ds1 IH]; intros st st1.
  - simpl. intros [= <-]. reflexivity.
  - simpl. unfold mbind, boot_bind.
    destruct (declare_class d st) as [[] st' | code st' | err st']; [| discriminate | discriminate].
    apply IH.
Qed.

(** C6, as stated, fails: a class whose identity is new to the services
    map is refused when another class of the same name is registered. *)
Lemma Service_fresh_identity_refused :
  apply_Service first_service initial_state = Returned tt one_service_state /\
  class_id namesake_service <> class_id first_service /\
  ~ holds_instance_of one_service_state namesake_service /\
  exists st', apply_Service namesake_service one_service_state = Exited (-1) st'.
Proof.
  split; [reflexivity |]. split; [discriminate |]. split.
  - intros (key & services & Hkey). unfold one_service_state in Hkey. simpl in Hkey.
    apply lookup_singleton_Some in Hkey as [_ [=]].
  - eexists. apply apply_Service_duplicate. simpl. rewrite lookup_singleton_eq. eauto.
Qed.

(** C6, amended: the services map is keyed by class name.  Registering a
    class whose name is not yet present succeeds and stores one instance
    under that name; registering a class whose name is present (the same
    class again, or another class of that name) writes the diagnostic and
    ends the process with code -1; and since services register while the
    class definitions are evaluated, the process ends before [create] runs,
    so before any route is initialized. *)
Theorem Service_registration target st :
  (ServicesMap st !! class_name target = None ->
   exists st1,
     apply_Service target st = Returned tt st1 /\
     st1 = set_services (<[class_name target := NewInstance target []]> (ServicesMap st)) st /\
     ServicesMap st1 !! class_name target = Some (NewInstance target []) /\
     size (ServicesMap st1) = S (size (ServicesMap st)) /\
     forall other, class_name other = class_name target ->
       apply_Service other st1 =
         Exited (-1)
           (console_error ("Service " +:+ class_name target +:+ " already exists") st1)) /\
  (is_Some (ServicesMap st !! class_name target) ->
   apply_Service target st =
     Exited (-1) (console_error ("Service " +:+ class_name target +:+ " already exists") st)) /\
  (forall ds1 d ds2 module options st0,
     declare_all ds1 st0 = Returned tt st ->
     declared_class d = target -> In Service (class_decorators d) ->
     is_Some (ServicesMap st !! class_name target) ->
     exists st2,
       declare_class d st = Exited (-1) st2 /\
       boot (ds1 ++ d :: ds2) module options st0 = Exited (-1) st2).
Proof.
  split; [| split].
  - intros Hnone. eexists. split; [apply apply_Service_fresh, Hnone |].
    split; [reflexivity |]. simpl. rewrite lookup_insert_eq.
    split; [reflexivity |]. split; [apply map_size_insert_None, Hnone |].
    intros other Hname. rewrite <- Hname. apply apply_Service_duplicate.
    simpl. rewrite Hname, lookup_insert_eq. eauto.
  - apply apply_Service_duplicate.
  - intros ds1 d ds2 module options st0 Hds1 <- Hin Hsome.
    destruct (declare_class_duplicate d st Hin Hsome) as (st2 & Hst2).
    exists st2. split; [exact Hst2 |].
    unfold boot. unfold mbind at 1, boot_bind.
    rewrite (declare_all_app _ _ _ _ Hds1). simpl. unfold mbind at 1, boot_bind.
    rewrite Hst2. reflexivity.
Qed.

Lemma Service_registration_witness :
  (exists st1,
     apply_Service first_service initial_state = Returned tt st1 /\
     st1 = set_services (<["UserService" := NewInstance first_service []]> ∅) initial_state /\
     ServicesMap st1 !! "UserService" = Some (NewInstance first_service []) /\
     size (ServicesMap st1) = 1 /\
     forall other, class_name other = "UserService" ->
       apply_Service other st1 =
         Exited (-1) (console_error "Service UserService already exists" st1)) /\
  (exists st2,
     declare_class (service_declaration first_service) one_service_declared =
       Exited (-1) st2 /\
     boot [service_declaration first_service; service_declaration first_service]
       sample_module None initial_state = Exited (-1) st2).
Proof.
  split.
  - apply (proj1 (Service_registration first_service initial_state)). reflexivity.
  - apply (proj2 (proj2 (Service_registration first_service one_service_declared))
             [service_declaration first_service] (service_declaration first_service) []
             sample_module None initial_state).
    + reflexivity.
    + reflexivity.
    + left. reflexivity.
    + exists (NewInstance first_service []). vm_compute. reflexivity.
Defined.

(** * Further properties *)

(** ** The exception hierarchy, for every argument *)

(** X1: the status of an exception is never falsy: a truthy status given
    to [HttpException] is kept as it is, whatever number it is, and any other
    becomes 500; each subclass has its own name and its fixed status whatever
    the message, and keeps a message given to it, the empty one included. *)
Theorem HttpException_status_is_truthy msg st :
  number_truthy (status (HttpException msg st)) = true /\
  (forall n, st = Some n -> number_truthy n = true -> status (HttpException msg st) = n) /\
  message (HttpException msg st) = msg /\
  name (HttpException msg st) = "HttpException" /\
  (forall given,
     (name (ForbiddenException given), status (ForbiddenException given)) =
       ("ForbiddenException", Num 403) /\
     (name (BadRequestException given), status (BadRequestException given)) =
       ("BadRequestException", Num 400) /\
     (name (UnauthorizedException given), status (UnauthorizedException given)) =
       ("UnauthorizedException", Num 401) /\
     (name (NotFoundException given), status (NotFoundException given)) =
       ("NotFoundException", Num 404) /\
     (name (MethodNotAllowedException given), status (MethodNotAllowedException given)) =
       ("MethodNotAllowedException", Num 405)) /\
  (forall text,
     message (ForbiddenException (Some text)) = text /\
     message (BadRequestException (Some text)) = text /\
     message (UnauthorizedException (Some text)) = text /\
     message (NotFoundException (Some text)) = text /\
     message (MethodNotAllowedException (Some text)) = text).
Proof.
  repeat split.
  - unfold HttpException, HttpException_ctor, status_or_default. cbn [status].
    destruct st as [n |]; [| reflexivity].
    destruct (number_truthy n) eqn:Hn; [exact Hn | reflexivity].
  - intros n -> Hn. unfold HttpException, HttpException_ctor, status_or_default.
    cbn [status]. rewrite Hn. reflexivity.
Qed.

Lemma HttpException_status_is_truthy_witness :
  status (HttpException "teapot" (Some (Num 418))) = Num 418.
Proof.
  refine (proj1 (proj2 (HttpException_status_is_truthy "teapot" (Some (Num 418))))
            (Num 418) eq_refl eq_refl).
Defined.

(** ** The authentication hook, on every request *)

(** X2: the hook writes nothing but the status and the stored user, and
    ends in one of three ways: it returns [undefined] with the status
    untouched; it returns the unauthorized response with status 401 and the
    stored user untouched; or it throws the forbidden response with status
    403, the verified user staying in the store. *)
Theorem onHandleAuthentication_effects roles c :
  let c' := fst (onHandleAuthentication roles c) in
  let out := snd (onHandleAuthentication roles c) in
  body c' = body c /\ query c' = query c /\ params c' = params c /\
  authorization c' = authorization c /\ jwt c' = jwt c /\
  ((out = Normal VUndefined /\ set_status c' = set_status c) \/
   (out = Normal UNAUTHORIZED_MESSAGE /\ set_status c' = Some 401%Z /\
    store_user c' = store_user c) \/
   (out = Throw FORBIDDEN_MESSAGE /\ set_status c' = Some 403%Z /\
    is_Some (store_user c') /\ is_Some roles)) /\
  (store_user c' = store_user c \/
   exists verify token, jwt c = Some verify /\ authorization c = Some token /\
     store_user c' = verify (bearer token)).
Proof.
  unfold onHandleAuthentication.
  destruct (jwt c) as [verify |] eqn:Hjwt; [| cbn; rewrite Hjwt; intuition].
  destruct (token_missing (authorization c)) eqn:Hmissing;
    [cbn; rewrite Hjwt; intuition |].
  destruct (authorization c) as [token |] eqn:Htoken; [| discriminate Hmissing].
  cbn [default from_option id]. fold (bearer token).
  destruct (verify (bearer token)) as [user |] eqn:Hverify;
    [| cbn; rewrite Hjwt, Htoken; intuition].
  assert (Hstored : exists verify0 token0, Some verify = Some verify0 /\
            Some token = Some token0 /\ Some user = verify0 (bearer token0)).
  { exists verify, token. rewrite Hverify. repeat split. }
  destruct roles as [rs |]; [destruct (existsb (role_is user) rs) |];
    cbn; rewrite ?Hjwt, ?Htoken; repeat split; eauto 10.
Qed.

(** X3: when a role list is given, a verified user passes exactly when the
    role claim is, as a string, one of the listed roles; so an empty list,
    or a token without a role claim, is forbidden. *)
Theorem onHandleAuthentication_role_check c verify token user rs :
  jwt c = Some verify -> authorization c = Some token -> token <> "" ->
  verify (bearer token) = Some user ->
  (onHandleAuthentication (Some rs) c = (with_user user c, Normal VUndefined) <->
   exists r, In r rs /\ payload_role user = Some r) /\
  (onHandleAuthentication (Some rs) c =
     (with_status 403 (with_user user c), Throw FORBIDDEN_MESSAGE) <->
   forall r, In r rs -> payload_role user <> Some r) /\
  (rs = [] \/ payload_role user = None ->
   onHandleAuthentication (Some rs) c =
     (with_status 403 (with_user user c), Throw FORBIDDEN_MESSAGE)).
Proof.
  intros Hjwt Htoken Hne Hverify.
  assert (Hmissing : token_missing (Some token) = false).
  { cbn. apply String.eqb_neq. exact Hne. }
  assert (Hrun : onHandleAuthentication (Some rs) c =
            if existsb (role_is user) rs then (with_user user c, Normal VUndefined)
            else (with_status 403 (with_user user c), Throw FORBIDDEN_MESSAGE)).
  { unfold onHandleAuthentication. rewrite Hjwt, Htoken, Hmissing.
    cbn [default from_option id]. fold (bearer token). rewrite Hverify.
    destruct (existsb (role_is user) rs); reflexivity. }
  assert (Hexists : existsb (role_is user) rs = true <->
            exists r, In r rs /\ payload_role user = Some r).
  { rewrite existsb_exists. unfold role_is. split.
    - intros (r & Hin & Hr). exists r. split; [exact Hin |].
      destruct (payload_role user) as [r' |]; [| discriminate Hr].
      apply String.eqb_eq in Hr. congruence.
    - intros (r & Hin & Hr). exists r. split; [exact Hin |].
      rewrite Hr. apply String.eqb_refl. }
  assert (Hnone : existsb (role_is user) rs = false <->
            forall r, In r rs -> payload_role user <> Some r).
  { split.
    - intros Hf r Hin Hr. assert (existsb (role_is user) rs = true) as Ht.
      { apply Hexists. eauto. }
      congruence.
    - intros Hall. destruct (existsb (role_is user) rs) eqn:He; [| reflexivity].
      destruct (proj1 Hexists eq_refl) as (r & Hin & Hr). destruct (Hall r Hin Hr). }
  rewrite Hrun. repeat split.
  - intros H. apply Hexists. destruct (existsb (role_is user) rs); [reflexivity |].
    discriminate H.
  - intros H. apply Hexists in H. rewrite H. reflexivity.
  - intros H. apply Hnone. destruct (existsb (role_is user) rs); [| reflexivity].
    discriminate H.
  - intros H. apply Hnone in H. rewrite H. reflexivity.
  - intros H. assert (existsb (role_is user) rs = false) as ->; [| reflexivity].
    apply Hnone. intros r Hin Hr. destruct H as [-> | Hrole]; [destruct Hin | congruence].
Qed.

Lemma onHandleAuthentication_role_check_witness :
  onHandleAuthentication (Some []) (bearer_request "good") =
    (with_status 403
       (with_user {| payload_id := Some "1"; payload_email := None;
                     payload_role := Some "user"; payload_iat := None;
                     payload_exp := None |} (bearer_request "good")),
     Throw FORBIDDEN_MESSAGE).
Proof.
  refine (proj2 (proj2 (onHandleAuthentication_role_check (bearer_request "good")
                          sample_verify "Bearer good" _ [] eq_refl eq_refl _ eq_refl))
            (or_introl eq_refl)).
  discriminate.
Defined.

(** *** The token the verifier is given *)

Lemma append_empty_r s : s +:+ "" = s.
Proof.
  induction s as [| ch s IH]; [reflexivity |].
  change (String ch s +:+ "") with (String ch (s +:+ "")). rewrite IH. reflexivity.
Qed.

Lemma append_assoc s1 s2 s3 : (s1 +:+ s2) +:+ s3 = s1 +:+ (s2 +:+ s3).
Proof.
  induction s1 as [| ch s1 IH]; [reflexivity |].
  change (String ch ((s1 +:+ s2) +:+ s3) = String ch (s1 +:+ (s2 +:+ s3))).
  rewrite IH. reflexivity.
Qed.

Lemma prefix_append p s : String.prefix p (p +:+ s) = true.
Proof.
  induction p as [| ch p IH]; [destruct s; reflexivity |].
  change (String ch p +:+ s) with (String ch (p +:+ s)). cbn [String.prefix].
  destruct (Ascii.ascii_dec ch ch); [exact IH | congruence].
Qed.

(** A string the separator does not occur in is one piece. *)
Lemma split_go_one_piece sep : forall s acc,
  includes sep s = false -> split_go sep s 0 acc = [acc +:+ s].
Proof.
  induction s as [| ch s IH]; intros acc Hs.
  - cbn [split_go]. rewrite append_empty_r. reflexivity.
  - cbn [includes] in Hs. apply orb_false_iff in Hs as [Hp Hs].
    cbn [split_go]. rewrite Hp. rewrite (IH _ Hs), append_assoc. reflexivity.
Qed.

(** The rest of a matched separator is dropped. *)
Lemma split_go_skip sep t : forall r acc,
  split_go sep (r +:+ t) (String.length r) acc = split_go sep t 0 acc.
Proof.
  induction r as [| ch r IH]; intros acc; [reflexivity |].
  change (String ch r +:+ t) with (String ch (r +:+ t)). cbn [String.length split_go].
  apply IH.
Qed.

Lemma split_after_separator ch r t :
  includes (String ch r) t = false -> split (String ch r) (String ch r +:+ t) = [""; t].
Proof.
  intros Ht. unfold split.
  pose proof (prefix_append (String ch r) t) as Hp.
  change (String ch r +:+ t) with (String ch (r +:+ t)) in Hp |- *.
  cbn [split_go]. rewrite Hp.
  replace (String.length (String ch r) - 1) with (String.length r) by (cbn; lia).
  rewrite split_go_skip, (split_go_one_piece _ _ _ Ht). reflexivity.
Qed.

Lemma bearer_of_scheme t :
  includes "Bearer " t = false -> bearer ("Bearer " +:+ t) = Some t.
Proof.
  intros Ht. unfold bearer. rewrite (split_after_separator _ _ _ Ht). reflexivity.
Qed.

Lemma bearer_without_scheme token :
  includes "Bearer " token = false -> bearer token = None.
Proof.
  intros Ht. unfold bearer, split. rewrite (split_go_one_piece _ _ _ Ht). reflexivity.
Qed.

(** X4: the verifier is given the text that follows the scheme word
    ["Bearer "], and [undefined] when the header does not contain the scheme
    word; with no role required, what it answers decides the request. *)
Theorem onHandleAuthentication_verifies_bearer_token c verify :
  jwt c = Some verify ->
  (forall t, authorization c = Some ("Bearer " +:+ t) -> includes "Bearer " t = false ->
     onHandleAuthentication None c = verdict_outcome c (verify (Some t))) /\
  (forall token, authorization c = Some token -> token <> "" ->
     includes "Bearer " token = false ->
     onHandleAuthentication None c = verdict_outcome c (verify None)).
Proof.
  intros Hjwt. split.
  - intros t Htoken Ht. unfold onHandleAuthentication. rewrite Hjwt, Htoken.
    change (token_missing (Some ("Bearer " +:+ t))) with false. cbv iota.
    cbn [default from_option id].
    fold (bearer ("Bearer " +:+ t)). rewrite (bearer_of_scheme _ Ht).
    destruct (verify (Some t)); reflexivity.
  - intros token Htoken Hne Ht. unfold onHandleAuthentication. rewrite Hjwt, Htoken.
    assert (Hmissing : token_missing (Some token) = false).
    { cbn. apply String.eqb_neq. exact Hne. }
    rewrite Hmissing. cbn [default from_option id]. fold (bearer token).
    rewrite (bearer_without_scheme _ Ht). destruct (verify None); reflexivity.
Qed.

Lemma onHandleAuthentication_verifies_bearer_token_witness :
  onHandleAuthentication None (bearer_request "good") =
    verdict_outcome (bearer_request "good") (sample_verify (Some "good")).
Proof.
  refine (proj1 (onHandleAuthentication_verifies_bearer_token (bearer_request "good")
                   sample_verify eq_refl) "good" eq_refl eq_refl).
Defined.

(** ** The argument list, its length, and a failing extractor *)

Lemma apply_writes_length ws : forall a,
  length (apply_writes a ws) = Nat.max (length a) (list_max (map (fun w => S (fst w)) ws)).
Proof.
  induction ws as [| [j v] ws IH]; intros a.
  - simpl. lia.
  - change (apply_writes a ((j, v) :: ws)) with (apply_writes (array_set a j v) ws).
    rewrite IH, array_set_length. simpl. lia.
Qed.

Lemma writes_indices m c c' ws :
  custom_writes (customDecorators m) c = (c', Normal ws) ->
  map fst (static_writes m c ++ ws) = binding_indices m.
Proof.
  intros Hws. rewrite map_app, (custom_writes_indices _ _ _ _ Hws).
  unfold static_writes, binding_indices. rewrite !map_app, <- !app_assoc.
  destruct (rawContext m), (bodySchema m), (querySchema m), (paramSlug m); reflexivity.
Qed.

Lemma list_max_attained l : l <> [] -> In (list_max l) l.
Proof.
  induction l as [| x l IH]; [congruence |]. intros _.
  destruct l as [| y l].
  - left. simpl. lia.
  - change (list_max (x :: y :: l)) with (Nat.max x (list_max (y :: l))).
    destruct (Nat.max_spec x (list_max (y :: l))) as [[_ ->] | [_ ->]].
    + right. apply IH. discriminate.
    + left. reflexivity.
Qed.

(** X5: the argument list [getParameters] returns is exactly as long as
    the largest bound index requires: one more than that index, empty when
    the handler has no binding; its last slot is filled, and every index
    from its length on reads as unset. *)
Theorem getParameters_arity m c c' ps :
  getParameters m c = (c', Normal ps) ->
  length ps = arity m /\
  (forall i, arity m <= i -> array_get ps i = None) /\
  (binding_indices m <> [] -> is_Some (array_get ps (arity m - 1))) /\
  (binding_indices m = [] -> ps = []).
Proof.
  intros Hget. rewrite getParameters_writes in Hget.
  destruct (custom_writes (customDecorators m) c) as [c1 [ws | e]] eqn:Hws;
    [| discriminate Hget].
  injection Hget as -> <-.
  pose proof (writes_indices m c c' ws Hws) as Hidx.
  assert (Hlen : length (apply_writes [] (static_writes m c ++ ws)) = arity m).
  { rewrite apply_writes_length. unfold arity. rewrite <- Hidx, map_map. reflexivity. }
  repeat split.
  - exact Hlen.
  - intros i Hi. unfold array_get. rewrite lookup_ge_None_2; [reflexivity | lia].
  - intros Hne.
    assert (Hin : In (arity m) (map S (binding_indices m))).
    { apply list_max_attained. destruct (binding_indices m); [congruence | discriminate]. }
    apply in_map_iff in Hin as (i & Hi & Hin). rewrite <- Hi.
    replace (S i - 1) with i by lia.
    rewrite array_get_apply_writes.
    destruct (last_write (static_writes m c ++ ws) i) eqn:Hlast; [eauto |].
    exfalso. rewrite <- Hidx in Hin. clear - Hin Hlast.
    induction (static_writes m c ++ ws) as [| [j v] l IH]; [destruct Hin |].
    simpl in Hlast, Hin. destruct (last_write l i); [discriminate |].
    case_decide as E; [discriminate |]. destruct Hin as [Hj | Hin]; [congruence |].
    apply IH; [exact Hin | reflexivity].
  - intros Hnil. apply length_zero_iff_nil. rewrite Hlen. unfold arity. rewrite Hnil.
    reflexivity.
Qed.

Lemma getParameters_arity_witness :
  length [Some (ArgValue (VStr "body")); None;
          Some (ArgValue (VStr "42")); Some (ArgValue (VStr "custom"))] =
  arity sparse_metadata.
Proof.
  refine (proj1 (getParameters_arity sparse_metadata sample_request sample_request _ _)).
  vm_compute. reflexivity.
Defined.

Lemma custom_writes_app ds1 ds2 : forall c,
  custom_writes (ds1 ++ ds2) c =
    match custom_writes ds1 c with
    | (c1, Normal ws1) =>
        match custom_writes ds2 c1 with
        | (c2, Normal ws2) => (c2, Normal (ws1 ++ ws2))
        | (c2, Throw e) => (c2, Throw e)
        end
    | (c1, Throw e) => (c1, Throw e)
    end.
Proof.
  induction ds1 as [| d ds1 IH]; intros c.
  - simpl. destruct (custom_writes ds2 c) as [c2 [ws2 | e]]; reflexivity.
  - simpl. destruct (custom_handler d c) as [c1 [v | e]]; [| reflexivity].
    rewrite IH. destruct (custom_writes ds1 c1) as [c2 [ws1 | e]]; [| reflexivity].
    destruct (custom_writes ds2 c2) as [c3 [ws2 | e]]; reflexivity.
Qed.

(** X6: when a custom extractor throws, the ones after it are not run and
    the method is not called: [getParameters] throws that error on the
    context the failing extractor left; the wrapper of an ordinary method
    throws it too, and the wrapper of a generator method yields it as its
    only unit and ends. *)
Theorem failing_extractor_ends_the_request m c ds1 d ds2 c1 ws1 c2 e :
  customDecorators m = ds1 ++ d :: ds2 ->
  custom_writes ds1 c = (c1, Normal ws1) ->
  custom_handler d c1 = (c2, Throw e) ->
  getParameters m c = (c2, Throw e) /\
  (forall f controller, fn_body (handler m) = PlainFunction f ->
     exists h, getHandler m (bind (handler m) controller) = AsyncFunction h /\
               h c = (c2, Throw e)) /\
  (forall g controller k, fn_body (handler m) = GeneratorFunction g ->
     exists w, getHandler m (bind (handler m) controller) = AsyncGeneratorFunction w /\
               consume (w c) (2 + k) = ([e], Finished)).
Proof.
  intros Hds H1 Hd.
  assert (Hget : getParameters m c = (c2, Throw e)).
  { rewrite getParameters_writes, Hds, custom_writes_app, H1. simpl. rewrite Hd.
    reflexivity. }
  split; [exact Hget |]. split.
  - intros f controller Hf. unfold bind. rewrite Hf. eexists. split; [reflexivity |].
    cbv beta. rewrite Hget. reflexivity.
  - intros g controller k Hg. unfold bind. rewrite Hg.
    apply streaming_handler_extractor_throws with (c1 := c2). exact Hget.
Qed.

Lemma failing_extractor_ends_the_request_witness :
  getParameters failing_metadata sample_request =
    (with_status 400 sample_request, Throw (VStr "bad")).
Proof.
  refine (proj1 (failing_extractor_ends_the_request failing_metadata sample_request
                   [{| custom_handler := constant_extractor (VStr "first");
                       custom_index := 0 |}]
                   {| custom_handler := rejecting_extractor; custom_index := 1 |}
                   [{| custom_handler := constant_extractor (VStr "third");
                       custom_index := 2 |}]
                   sample_request [(0, ArgValue (VStr "first"))]
                   (with_status 400 sample_request) (VStr "bad") eq_refl eq_refl eq_refl)).
Defined.

(** ** Dependency injection, in order and by name *)

(** X7: the dependencies of a class are resolved by class name, in the
    order of the constructor's parameter types, and the state is left as it
    was; the first one that is not registered ends the process with code -1
    after two diagnostics, the first naming the class being built. *)
Theorem inject_resolves_in_order target l st :
  (forall instances st',
     inject target l st = Returned instances st' <->
     st' = st /\ Forall2 (resolves_to st) l instances) /\
  (forall l1 s l2, l = l1 ++ s :: l2 ->
     Forall (registered st) l1 -> ServicesMap st !! class_name s = None ->
     inject target l st =
       Exited (-1)
         (console_error "Make sure injected service has @Service decorator"
            (console_error ("Injected service is undefined in " +:+ class_name target) st))).
Proof.
  split.
  - intros instances st'. split; [apply inject_Returned |].
    intros (-> & Hall). apply inject_resolved. exact Hall.
  - intros l1 s l2 -> Hl Hs. apply inject_first_missing; assumption.
Qed.

Lemma inject_resolves_in_order_witness :
  inject sample_class [first_service; sample_module] one_service_state =
    Exited (-1)
      (console_error "Make sure injected service has @Service decorator"
         (console_error "Injected service is undefined in UserController"
            one_service_state)).
Proof.
  refine (proj2 (inject_resolves_in_order sample_class [first_service; sample_module]
                   one_service_state) [first_service] sample_module [] eq_refl _ _).
  - constructor; [| constructor]. eexists. reflexivity.
  - reflexivity.
Defined.



(** ** The initializers, with what they read spelled out *)

(** ** ElysiaFactory.create *)

Lemma plugins_installed ps : forall app,
  middleware (foldl (fun a p => app_use (Plugin p) a) app ps) =
    middleware app ++ map Plugin ps /\
  errorHandlers (foldl (fun a p => app_use (Plugin p) a) app ps) = errorHandlers app /\
  routes (foldl (fun a p => app_use (Plugin p) a) app ps) = routes app /\
  sockets (foldl (fun a p => app_use (Plugin p) a) app ps) = sockets app.
Proof.
  induction ps as [| p ps IH]; intros app.
  - simpl. rewrite app_nil_r. repeat split.
  - cbn [foldl map]. destruct (IH (app_use (Plugin p) app)) as (H1 & H2 & H3 & H4).
    rewrite H1, H2, H3, H4. cbn. rewrite <- app_assoc. repeat split.
Qed.

(** The application [create] hands to the first initializer. *)
Lemma create_first_app options :
  let app := new_Elysia in
  let app := if default false (cors <$> options) then app_use CorsMiddleware app else app in
  let app := foldl (fun a p => app_use (Plugin p) a) app (default [] (options ≫= plugins)) in
  let app := if default false (swagger <$> options) then app_use SwaggerMiddleware app
             else app in
  let app := match options ≫= error with Some h => app_onError h app | None => app end in
  middleware app = installed_middleware options /\
  errorHandlers app = match options ≫= error with Some h => [h] | None => [] end /\
  routes app = [] /\ sockets app = [].
Proof.
  cbv zeta. unfold installed_middleware.
  set (app1 := if default false (cors <$> options) then app_use CorsMiddleware new_Elysia
               else new_Elysia).
  destruct (plugins_installed (default [] (options ≫= plugins)) app1) as (H1 & H2 & H3 & H4).
  set (app2 := foldl _ app1 _) in *.
  assert (Hm : middleware app1 =
            if default false (cors <$> options) then [CorsMiddleware] else []).
  { unfold app1. destruct (default false (cors <$> options)); reflexivity. }
  assert (He : errorHandlers app1 = [] /\ routes app1 = [] /\ sockets app1 = []).
  { unfold app1. destruct (default false (cors <$> options)); repeat split. }
  destruct He as (He & Hr & Hs). rewrite Hm in H1. rewrite He in H2. rewrite Hr in H3.
  rewrite Hs in H4.
  destruct (default false (swagger <$> options)), (options ≫= error);
    cbn; rewrite ?H1, ?H2, ?H3, ?H4, ?app_nil_r, <- ?app_assoc; repeat split.
Qed.

Lemma run_initializer_frame i app io st app' st' :
  run_initializer i app io st = Returned app' st' ->
  middleware app' = middleware app /\ errorHandlers app' = errorHandlers app.
Proof.
  destruct i as [prefix target | wspath isPublic_ target]; cbn [run_initializer].
  - unfold Controller_initializeController. boot_steps.
    destruct (nextTick st) as [[] st0 | code st0 | err st0]; try discriminate.
    destruct (inject target _ _) as [services st1 | code st1 | err st1]; try discriminate.
    destruct (metadata_object (class_id target) _) as [[o obj] |].
    + destruct (elements obj) as [l |]; [| discriminate].
      intros [= <- <-]. split; apply register_routes_fields.
    + intros [= <- <-]. split; reflexivity.
  - unfold Websocket_initializeController. boot_steps.
    destruct (nextTick st) as [[] st0 | code st0 | err st0]; try discriminate.
    destruct (inject target _ _) as [services st1 | code st1 | err st1]; try discriminate.
    intros [= <- <-]. split; reflexivity.
Qed.

Lemma initialize_all_frame options : forall cs app st app' st',
  initialize_all cs app options st = Returned app' st' ->
  middleware app' = middleware app /\ errorHandlers app' = errorHandlers app.
Proof.
  induction cs as [| c cs IH]; intros app st app' st'.
  - intros [= <- <-]. split; reflexivity.
  - cbn [initialize_all]. boot_steps.
    destruct (Reflect_getMetadata "initialize" (class_id c) st) as [[| | | | | | | i |] |];
      try discriminate.
    destruct (run_initializer i app _ st) as [app1 st1 | code st1 | err st1] eqn:Hrun; [| discriminate | discriminate].
    intros Hrest. destruct (IH _ _ _ _ Hrest) as (H1 & H2).
    destruct (run_initializer_frame _ _ _ _ _ _ Hrun) as (H3 & H4).
    rewrite H1, H2, H3, H4. split; reflexivity.
Qed.

Lemma create_steps module options st :
  ElysiaFactory_create module options st =
    match run_beforeStart (default [] (options ≫= beforeStart)) st with
    | Returned _ st1 =>
        let app := new_Elysia in
        let app := if default false (cors <$> options) then app_use CorsMiddleware app
                   else app in
        let app := foldl (fun a p => app_use (Plugin p) a) app
                     (default [] (options ≫= plugins)) in
        let app := if default false (swagger <$> options) then app_use SwaggerMiddleware app
                   else app in
        let app := match options ≫= error with Some h => app_onError h app | None => app end in
        match Reflect_getMetadata "controllers" (class_id module) st1 with
        | Some (MClasses controllers) => initialize_all controllers app options st1
        | _ => Exited (-1) (console_error "Invalid class module" st1)
        end
    | Exited code st1 => Exited code st1
    | Threw e st1 => Threw e st1
    end.
Proof.
  unfold ElysiaFactory_create. boot_steps.
  destruct (run_beforeStart _ st) as [[] st1 | code st1 | err st1]; [| reflexivity | reflexivity].
  cbv zeta.
  destruct (Reflect_getMetadata "controllers" (class_id module) st1)
    as [[| | | | | | l | |] |]; reflexivity.
Qed.

(** X9: when [create] returns, the application carries the middleware the
    options ask for and nothing else, in the order cors, the plugins in
    their order, swagger; and the error hook, if one is given. *)
Theorem create_installs_middleware_in_order module options st app st' :
  ElysiaFactory_create module options st = Returned app st' ->
  middleware app = installed_middleware options /\
  errorHandlers app = match options ≫= error with Some h => [h] | None => [] end.
Proof.
  rewrite create_steps.
  destruct (run_beforeStart _ st) as [[] st1 | code st1 | err st1]; [| discriminate | discriminate].
  destruct (create_first_app options) as (Hm & He & _). cbv zeta in Hm, He |- *.
  destruct (Reflect_getMetadata "controllers" (class_id module) st1)
    as [[| | | | | | l | |] |]; try discriminate.
  intros Hrun. destruct (initialize_all_frame _ _ _ _ _ _ Hrun) as (H1 & H2).
  rewrite H1, H2. split; assumption.
Qed.

Lemma create_installs_middleware_in_order_witness :
  middleware
    (outcome_app (ElysiaFactory_create sample_module sample_create_options
                    sample_program_state)) =
  [CorsMiddleware; Plugin 1; Plugin 2; SwaggerMiddleware].
Proof.
  refine (proj1 (create_installs_middleware_in_order sample_module sample_create_options
                   sample_program_state _
                   (outcome_state (ElysiaFactory_create sample_module sample_create_options
                                     sample_program_state)) _)).
  vm_compute. reflexivity.
Defined.

Lemma after_ticks_idle st : tickQueue st = [] -> after_ticks st = st.
Proof. intros Hq. unfold after_ticks. rewrite Hq. reflexivity. Qed.

Lemma readable_after_ticks i st :
  only_setters st -> readable i st -> readable i (after_ticks st).
Proof.
  intros Hq. destruct i as [prefix target | wspath isPublic_ target]; [| trivial].
  apply (after_ticks_fields st Hq).
Qed.

Lemma initializable_after_ticks st c :
  only_setters st -> initializable st c -> initializable (after_ticks st) c.
Proof.
  intros Hq (i & Hi & Hdeps & Hread). exists i.
  destruct (after_ticks_keeps st Hq) as (_ & _ & Hkeys).
  rewrite Hkeys by discriminate. split; [exact Hi |].
  split; [apply after_ticks_registered; assumption | apply readable_after_ticks; assumption].
Qed.

(** The loop over the controllers, as far as every class it meets can be
    initialized. *)
Lemma initialize_all_app options : forall cs1 app st,
  only_setters st ->
  Forall (initializable st) cs1 ->
  exists app1 st1,
    (forall cs2,
       initialize_all (cs1 ++ cs2) app options st = initialize_all cs2 app1 options st1) /\
    routes app1 = routes app ++
      flat_map (routes_of (initialize_options options) (after_ticks st)) cs1 /\
    map ws_path (sockets app1) = map ws_path (sockets app) ++
      flat_map (socket_paths_of (after_ticks st)) cs1 /\
    only_setters st1 /\
    ServicesMap st1 = ServicesMap st /\
    console st1 = console st /\
    (forall key id, key <> "metadata" ->
       Reflect_getMetadata key id st1 = Reflect_getMetadata key id st).
Proof.
  induction cs1 as [| c cs1 IH]; intros app st Hq Hall.
  - exists app, st. simpl. rewrite !app_nil_r. repeat split. exact Hq.
  - apply Forall_cons in Hall as [Hc Hall].
    pose proof Hc as (i & Hi & Hdeps & Hread).
    destruct (after_ticks_keeps st Hq) as (Hsm & Hcon & Hkeys).
    set (st_c := record (InitializerRead (class_id (initializer_target i)))
                   (set_queue [] (after_ticks st))).
    assert (Hidle : after_ticks st_c = st_c) by (apply after_ticks_idle; reflexivity).
    assert (Hrun : exists app_c,
              run_initializer i app (initialize_options options) st = Returned app_c st_c /\
              routes app_c = routes app ++
                routes_of (initialize_options options) (after_ticks st) c /\
              map ws_path (sockets app_c) = map ws_path (sockets app) ++
                socket_paths_of (after_ticks st) c).
    { unfold routes_of, socket_paths_of. rewrite Hkeys by discriminate. rewrite Hi.
      destruct i as [prefix target | wspath isPublic_ target];
        cbn [run_initializer readable initializer_target] in *.
      - rewrite Controller_initializeController_explicit by assumption.
        eexists. split; [reflexivity |].
        destruct (register_routes_fields prefix (tag_of (class_id target) (after_ticks st))
                    (initialize_options options) (controller_instance target (after_ticks st))
                    (published (class_id target) (after_ticks st)) app) as (R1 & R2 & _).
        cbv zeta in R1, R2. split; [exact R1 |]. rewrite R2, app_nil_r. reflexivity.
      - destruct (Websocket_initializeController_explicit wspath isPublic_ target app
                    (initialize_options options) st Hq Hdeps) as (r & Hr & Hpath & _).
        rewrite Hr. eexists. split; [reflexivity |]. split.
        * cbn. rewrite app_nil_r. reflexivity.
        * cbn [sockets app_ws]. rewrite map_app. cbn [map]. rewrite Hpath. reflexivity. }
    destruct Hrun as (app_c & Hrun & Hroutes & Hsockets).
    destruct (IH app_c st_c) as (app1 & st1 & Hrest & R & S & Q & M & C & K).
    { constructor. }
    { eapply Forall_impl; [exact Hall |]. intros x Hx.
      exact (initializable_after_ticks st x Hq Hx). }
    exists app1, st1. split.
    { intros cs2. change ((c :: cs1) ++ cs2) with (c :: (cs1 ++ cs2)).
      cbn [initialize_all]. boot_steps. rewrite Hi.
      unfold initialize_options in Hrun. unfold mbind in Hrun. rewrite Hrun. apply Hrest. }
    rewrite Hidle in R, S.
    split; [| split; [| split; [exact Q |]]].
    { rewrite R, Hroutes, <- app_assoc. reflexivity. }
    { rewrite S, Hsockets, <- app_assoc. reflexivity. }
    split; [rewrite M; exact Hsm |].
    split; [rewrite C; exact Hcon |].
    intros key id Hkey. rewrite (K key id Hkey). unfold st_c.
    change (Reflect_getMetadata key id
              (record (InitializerRead (class_id (initializer_target i)))
                 (set_queue [] (after_ticks st))))
      with (Reflect_getMetadata key id (after_ticks st)).
    apply Hkeys. exact Hkey.
Qed.



(** X11: a module that cannot be built ends the process with code -1 and
    the one diagnostic ["Invalid class module"]: when the class given to
    [create] carries no controller list (it was not decorated with
    [Module]), and when a listed class carries no initializer (it was
    decorated with neither [Controller] nor [Websocket]); in the second case
    the classes listed before it have been initialized by then, in their
    order: the loop over them has returned, their routes and sockets
    registered on the application that is then given up. *)
Theorem create_invalid_module module options st st1 :
  run_beforeStart (default [] (options ≫= beforeStart)) st = Returned tt st1 ->
  (Reflect_getMetadata "controllers" (class_id module) st1 = None ->
   ElysiaFactory_create module options st =
     Exited (-1) (console_error "Invalid class module" st1)) /\
  (forall cs1 c cs2,
     Reflect_getMetadata "controllers" (class_id module) st1 =
       Some (MClasses (cs1 ++ c :: cs2)) ->
     only_setters st1 ->
     Forall (initializable st1) cs1 ->
     Reflect_getMetadata "initialize" (class_id c) st1 = None ->
     exists app1 st2,
       initialize_all cs1 (configured_app options) options st1 = Returned app1 st2 /\
       routes app1 =
         flat_map (routes_of (initialize_options options) (after_ticks st1)) cs1 /\
       map ws_path (sockets app1) = flat_map (socket_paths_of (after_ticks st1)) cs1 /\
       ElysiaFactory_create module options st =
         Exited (-1) (console_error "Invalid class module" st2) /\
       console st2 = console st1).
Proof.
  intros Hstart. split.
  - intros Hnone. rewrite create_steps, Hstart. cbv zeta. rewrite Hnone. reflexivity.
  - intros cs1 c cs2 Hmeta Hq Hall Hc. rewrite create_steps, Hstart. cbv zeta.
    rewrite Hmeta.
    destruct (create_first_app options) as (_ & _ & Hr & Hs). cbv zeta in Hr, Hs.
    change (match options ≫= error with Some h => app_onError h _ | None => _ end)
      with (configured_app options) in *.
    destruct (initialize_all_app options cs1 (configured_app options) st1 Hq Hall)
      as (app1 & st2 & Hrun & R & S & Q & _ & C & K).
    exists app1, st2.
    split; [specialize (Hrun []); rewrite app_nil_r in Hrun; exact Hrun |].
    split; [rewrite R, Hr; reflexivity |].
    split; [rewrite S, Hs; reflexivity |].
    split; [| exact C].
    rewrite Hrun. cbn [initialize_all]. boot_steps. rewrite K by discriminate.
    rewrite Hc. reflexivity.
Qed.

Lemma create_invalid_module_witness :
  ElysiaFactory_create plain_class None initial_state =
    Exited (-1) (console_error "Invalid class module" initial_state) /\
  exists app1 st2,
    initialize_all [sample_class] new_Elysia None unfinished_program_state =
      Returned app1 st2 /\
    map registration (routes app1) = [("get", "/users/a"); ("post", "/users/b")] /\
    ElysiaFactory_create sample_module None unfinished_program_state =
      Exited (-1) (console_error "Invalid class module" st2).
Proof.
  split.
  - refine (proj1 (create_invalid_module plain_class None initial_state initial_state
                     eq_refl) eq_refl).
  - destruct (proj2 (create_invalid_module sample_module None unfinished_program_state
                       _ eq_refl) [sample_class] plain_class [])
      as (app1 & st2 & Hloop & Hroutes & _ & Hrun & _).
    + vm_compute. reflexivity.
    + unfold only_setters. vm_compute tickQueue.
      repeat constructor; eexists; (split; [reflexivity | vm_compute; reflexivity]).
    + constructor; [| constructor].
      exists (ControllerInitializer "/users" sample_class). split; [| split].
      * vm_compute. reflexivity.
      * vm_compute. constructor.
      * vm_compute. reflexivity.
    + reflexivity.
    + exists app1, st2. split; [exact Hloop |]. split; [| exact Hrun].
      rewrite Hroutes. vm_compute. reflexivity.
Defined.

(** ** How each route is configured *)

Lemma registered_by_post_handler prefix tag options controller m :
  exists r, registered_by prefix tag options controller m = [r] /\
            post_handler_rule options m r.
Proof.
  eexists. split; [reflexivity |]. unfold post_handler_rule, streaming, bind.
  cbn [route_hooks afterHandle route_handler].
  destruct (fn_body (handler m)) as [f | g]; cbn [isGenerator getHandler]; split;
    try discriminate; intros _.
  - split; [reflexivity |]. eexists. split; [reflexivity |].
    intros c c2 v Hh. unfold run_handler, phases. cbn [route_handler route_hooks afterHandle].
    rewrite Hh. destruct (default noop (options ≫= response_hook) c2) as [c3 [[] | e]];
      reflexivity.
  - split; [reflexivity |]. split; [eexists; reflexivity |].
    intros c. unfold handle_request, run_handler, phases.
    cbn [route_handler route_hooks beforeHandle].
    destruct (isPublic m); cbn.
    + intros [H | []]. discriminate H.
    + destruct (default noop (options ≫= auth) c) as [c1 [[] | e]]; cbn;
        intuition discriminate.
Qed.

(** X12: a route whose method is a generator function is registered
    without a post-handler, so the response hook never runs on a stream;
    every other route is registered with the configured response hook, or
    with a no-op when none is configured, and the hook runs after a handler
    that returned. *)
Theorem streaming_routes_skip_the_response_hook prefix target app options st app' st' :
  Controller_initializeController prefix target app options st = Returned app' st' ->
  exists new,
    routes app' = routes app ++ new /\
    Forall2 (post_handler_rule options) (published (class_id target) st') new.
Proof.
  intros Hrun.
  destruct (Controller_initializeController_routes _ _ _ _ _ _ _ Hrun)
    as (tag & services & Hroutes).
  eexists. split; [exact Hroutes |]. clear.
  induction (published (class_id target) st') as [| m ms IH]; [constructor |].
  destruct (registered_by_post_handler prefix tag options (NewInstance target services) m)
    as (r & Hr & Hrule).
  cbn [flat_map]. rewrite Hr. constructor; assumption.
Qed.

Lemma streaming_routes_skip_the_response_hook_witness :
  exists new,
    routes (outcome_app
              (Controller_initializeController "/users" sample_class new_Elysia
                 sample_options sample_published_state)) = [] ++ new /\
    Forall2 (post_handler_rule sample_options)
      (published 10
         (outcome_state
            (Controller_initializeController "/users" sample_class new_Elysia
               sample_options sample_published_state)))
      new.
Proof.
  apply (streaming_routes_skip_the_response_hook "/users" sample_class new_Elysia
           sample_options sample_published_state).
  vm_compute. reflexivity.
Defined.

Lemma registered_by_security prefix tag options controller m :
  exists r, registered_by prefix tag options controller m = [r] /\ security_rule options m r.
Proof.
  eexists. split; [reflexivity |]. unfold security_rule, announces_bearer.
  cbn [route_hooks detail beforeHandle].
  destruct (detailSchema m) as [d |]; [repeat split; try discriminate; intuition congruence |].
  destruct (options ≫= auth) as [a |] eqn:Ha.
  - rewrite bool_decide_eq_true_2 by eauto. cbn [negb orb].
    destruct (isPublic m); repeat split; try discriminate; try tauto; eauto.
    + intros (_ & H & _). discriminate H.
  - rewrite bool_decide_eq_false_2 by (intros [x Hx]; discriminate Hx). cbn [negb orb].
    repeat split; try discriminate; try tauto.
    intros (_ & _ & [x Hx]). discriminate Hx.
Qed.

(** X13: the documentation of a route asks for a bearer token exactly when
    the route has no documented detail of its own, is not public, and an
    authentication hook is configured, and then that hook is the route's
    pre-handler: protection is never announced without being enforced.  A
    documented detail replaces the security requirement altogether. *)
Theorem announced_security_is_enforced prefix target app options st app' st' :
  Controller_initializeController prefix target app options st = Returned app' st' ->
  exists new,
    routes app' = routes app ++ new /\
    Forall2 (security_rule options) (published (class_id target) st') new.
Proof.
  intros Hrun.
  destruct (Controller_initializeController_routes _ _ _ _ _ _ _ Hrun)
    as (tag & services & Hroutes).
  eexists. split; [exact Hroutes |]. clear.
  induction (published (class_id target) st') as [| m ms IH]; [constructor |].
  destruct (registered_by_security prefix tag options (NewInstance target services) m)
    as (r & Hr & Hrule).
  cbn [flat_map]. rewrite Hr. constructor; assumption.
Qed.

Lemma announced_security_is_enforced_witness :
  exists new,
    routes (outcome_app
              (Controller_initializeController "/users" sample_class new_Elysia
                 sample_options sample_published_state)) = [] ++ new /\
    Forall2 (security_rule sample_options)
      (published 10
         (outcome_state
            (Controller_initializeController "/users" sample_class new_Elysia
               sample_options sample_published_state)))
      new.
Proof.
  apply (announced_security_is_enforced "/users" sample_class new_Elysia
           sample_options sample_published_state).
  vm_compute. reflexivity.
Defined.

(** ** From the decorators of a class to its published routes *)

Section FixedBinding.

(** One kind of fixed binding: the key it is stored under, how it is
    stored, and which parameter decorators declare one. *)
Context {A : Type} (key : string) (inj : A -> MetaValue)
  (pick : nat * ParameterDecorator -> option A).
Hypothesis Hpublic : key <> "public".
Hypothesis Hmetadata : key <> "metadata".
Hypothesis Hwrite : forall d fn i st f,
  prototypes st !! f = None ->
  Reflect_getMetadata key f (apply_parameter_decorator d fn i st) =
    match pick (i, d) with
    | Some a => if decide (f = fn_id fn) then Some (inj a) else Reflect_getMetadata key f st
    | None => Reflect_getMetadata key f st
    end.

Variables (target : ClassLike) (f : nat).





End FixedBinding.










(** ** The label of a controller *)






(** ** Socket classes *)












(** ** Publication *)







(** ** A whole program *)



(** ** One instance for all the routes of a controller *)



(** ** The cache providers *)

Lemma EnvCache_get_memory reply key w :
  EnvCache.isRedis (EnvCache.this w) = false ->
  EnvCache.get reply key w =
    (default VUndefined (EnvCache.memoryCache (EnvCache.this w) !! key), w).
Proof. intros H. unfold EnvCache.get. rewrite H. reflexivity. Qed.


Lemma EnvCache_set_fields stringify key value ttl w :
  EnvCache.isRedis (EnvCache.this w) = false ->
  let w1 := EnvCache.set stringify key value ttl w in
  let seconds := default (EnvCache.ttlSeconds (EnvCache.this w)) ttl in
  EnvCache.isRedis (EnvCache.this w1) = false /\
  EnvCache.ttlSeconds (EnvCache.this w1) = EnvCache.ttlSeconds (EnvCache.this w) /\
  EnvCache.memoryCache (EnvCache.this w1) =
    <[key := CacheRuntime.string_or_undefined (stringify value)]>
      (EnvCache.memoryCache (EnvCache.this w)) /\
  EnvCache.timers w1 =
    EnvCache.timers w ++
    (if CacheRuntime.greater_than_zero seconds
     then [{| CacheRuntime.timer_key := key;
              CacheRuntime.timer_delay := CacheRuntime.times seconds 1000 |}]
     else []) /\
  EnvCache.sent w1 = EnvCache.sent w.
Proof.
  intros Hmem w1 seconds. unfold w1, EnvCache.set. rewrite Hmem. fold seconds.
  destruct (CacheRuntime.greater_than_zero seconds); cbn; rewrite ?app_nil_r; repeat split;
    exact Hmem.
Qed.

Lemma EnvCache_del_fields key w :
  EnvCache.isRedis (EnvCache.this w) = false ->
  let w1 := EnvCache.del key w in
  EnvCache.isRedis (EnvCache.this w1) = false /\
  EnvCache.ttlSeconds (EnvCache.this w1) = EnvCache.ttlSeconds (EnvCache.this w) /\
  EnvCache.memoryCache (EnvCache.this w1) =
    base.delete key (EnvCache.memoryCache (EnvCache.this w)) /\
  EnvCache.timers w1 = EnvCache.timers w /\
  EnvCache.sent w1 = EnvCache.sent w.
Proof.
  intros Hmem w1. unfold w1, EnvCache.del. rewrite Hmem. cbn. repeat split. exact Hmem.
Qed.

(** X20: in memory mode a value set under a key is what [get] returns for
    that key, as its JSON text; the other keys keep their values, nothing is
    sent to redis, and without a positive time to live no expiry is
    scheduled. *)
Theorem EnvCache_set_then_get stringify reply key value ttl w :
  EnvCache.isRedis (EnvCache.this w) = false ->
  let w1 := EnvCache.set stringify key value ttl w in
  EnvCache.get reply key w1 = (CacheRuntime.string_or_undefined (stringify value), w1) /\
  (forall other, other <> key ->
     fst (EnvCache.get reply other w1) = fst (EnvCache.get reply other w)) /\
  EnvCache.sent w1 = EnvCache.sent w /\
  (CacheRuntime.greater_than_zero
     (default (EnvCache.ttlSeconds (EnvCache.this w)) ttl) = false ->
   EnvCache.timers w1 = EnvCache.timers w).
Proof.
  intros Hmem w1.
  assert (Hmem1 : EnvCache.isRedis (EnvCache.this w1) = false).
  { unfold w1, EnvCache.set. rewrite Hmem.
    destruct (CacheRuntime.greater_than_zero _); exact Hmem. }
  assert (Hcache : EnvCache.memoryCache (EnvCache.this w1) =
            <[key := CacheRuntime.string_or_undefined (stringify value)]>
              (EnvCache.memoryCache (EnvCache.this w))).
  { unfold w1, EnvCache.set. rewrite Hmem.
    destruct (CacheRuntime.greater_than_zero _); reflexivity. }
  repeat split.
  - rewrite (EnvCache_get_memory _ _ _ Hmem1), Hcache, lookup_insert_eq. reflexivity.
  - intros other Hother.
    rewrite (EnvCache_get_memory _ _ _ Hmem1), (EnvCache_get_memory _ _ _ Hmem), Hcache.
    cbn [fst]. rewrite lookup_insert_ne by congruence. reflexivity.
  - unfold w1, EnvCache.set. rewrite Hmem.
    destruct (CacheRuntime.greater_than_zero _); reflexivity.
  - intros Httl. unfold w1, EnvCache.set. rewrite Hmem, Httl. reflexivity.
Qed.

Lemma EnvCache_set_then_get_witness :
  EnvCache.get (fun _ => None) "k"
    (EnvCache.set (fun _ => Some "1") "k" (VNum 1) (Some (Num 0))
       {| EnvCache.this := {| EnvCache.memoryCache := ∅; EnvCache.isRedis := false;
                              EnvCache.ttlSeconds := Num 60 |};
          EnvCache.timers := []; EnvCache.sent := [] |}) =
  (VStr "1",
   EnvCache.set (fun _ => Some "1") "k" (VNum 1) (Some (Num 0))
       {| EnvCache.this := {| EnvCache.memoryCache := ∅; EnvCache.isRedis := false;
                              EnvCache.ttlSeconds := Num 60 |};
          EnvCache.timers := []; EnvCache.sent := [] |}).
Proof.
  refine (proj1 (EnvCache_set_then_get (fun _ => Some "1") (fun _ => None) "k" (VNum 1)
                   (Some (Num 0)) _ _)).
  reflexivity.
Defined.

(** X21: in memory mode [del] removes the key and nothing else; it does not
    cancel an expiry scheduled for the key. *)
Theorem EnvCache_del_then_get reply key w :
  EnvCache.isRedis (EnvCache.this w) = false ->
  let w1 := EnvCache.del key w in
  EnvCache.get reply key w1 = (VUndefined, w1) /\
  (forall other, other <> key ->
     fst (EnvCache.get reply other w1) = fst (EnvCache.get reply other w)) /\
  EnvCache.timers w1 = EnvCache.timers w /\
  EnvCache.sent w1 = EnvCache.sent w.
Proof.
  intros Hmem w1.
  assert (Hmem1 : EnvCache.isRedis (EnvCache.this w1) = false).
  { unfold w1, EnvCache.del. rewrite Hmem. exact Hmem. }
  assert (Hcache : EnvCache.memoryCache (EnvCache.this w1) =
            base.delete key (EnvCache.memoryCache (EnvCache.this w))).
  { unfold w1, EnvCache.del. rewrite Hmem. reflexivity. }
  repeat split.
  - rewrite (EnvCache_get_memory _ _ _ Hmem1), Hcache, lookup_delete_eq. reflexivity.
  - intros other Hother.
    rewrite (EnvCache_get_memory _ _ _ Hmem1), (EnvCache_get_memory _ _ _ Hmem), Hcache.
    cbn [fst]. rewrite lookup_delete_ne by congruence. reflexivity.
  - unfold w1, EnvCache.del. rewrite Hmem. reflexivity.
  - unfold w1, EnvCache.del. rewrite Hmem. reflexivity.
Qed.

Lemma EnvCache_del_then_get_witness :
  EnvCache.get (fun _ => None) "k"
    (EnvCache.del "k"
       {| EnvCache.this := {| EnvCache.memoryCache := {[ "k" := VStr "1" ]};
                              EnvCache.isRedis := false; EnvCache.ttlSeconds := Num 60 |};
          EnvCache.timers := []; EnvCache.sent := [] |}) =
  (VUndefined,
   EnvCache.del "k"
       {| EnvCache.this := {| EnvCache.memoryCache := {[ "k" := VStr "1" ]};
                              EnvCache.isRedis := false; EnvCache.ttlSeconds := Num 60 |};
          EnvCache.timers := []; EnvCache.sent := [] |}).
Proof.
  refine (proj1 (EnvCache_del_then_get (fun _ => None) "k" _ _)).
  reflexivity.
Defined.

(** An integer below 2^53 in absolute value is a double. *)
Lemma to_double_exact z : (Z.abs z < 2 ^ 53)%Z -> CacheRuntime.to_double z = Num z.
Proof.
  intros H. unfold CacheRuntime.to_double.
  destruct (Z.ltb_spec (Z.abs z) (2 ^ 53)) as [_ | Hge]; [reflexivity | lia].
Qed.

(** Beyond 2^53 the product is rounded: 72057594037929 seconds are not
    72057594037929000 milliseconds. *)
Example times_rounds_to_a_double :
  CacheRuntime.times (Num 72057594037929) 1000 = Num 72057594037928992.
Proof. vm_compute. reflexivity. Qed.

(** X22: an expiry is tied to the key, not to the value: the timer a [set]
    with a positive time to live schedules stays pending when the key is
    deleted and set again without expiry, and when it comes due it removes
    the value the key holds then.  The delay of the timer is the product of
    the seconds and 1000 as a double: the exact product as long as it is
    below 2^53, the nearest double beyond. *)
Theorem EnvCache_expiry_outlives_the_value stringify reply key v1 v2 z w :
  EnvCache.isRedis (EnvCache.this w) = false ->
  (0 < z)%Z ->
  let w1 := EnvCache.set stringify key v1 (Some (Num z)) w in
  let w2 := EnvCache.set stringify key v2 (Some (Num 0)) (EnvCache.del key w1) in
  EnvCache.timers w2 =
    EnvCache.timers w ++
    [{| CacheRuntime.timer_key := key;
        CacheRuntime.timer_delay := CacheRuntime.to_double (z * 1000) |}] /\
  ((z * 1000 < 2 ^ 53)%Z -> CacheRuntime.to_double (z * 1000) = Num (z * 1000)) /\
  fst (EnvCache.get reply key w2) = CacheRuntime.string_or_undefined (stringify v2) /\
  fst (EnvCache.get reply key (EnvCache.fire (length (EnvCache.timers w)) w2)) = VUndefined.
Proof.
  intros Hmem Hz w1 w2.
  assert (Hpos : (0 <? z)%Z = true) by (apply Z.ltb_lt; exact Hz).
  destruct (EnvCache_set_fields stringify key v1 (Some (Num z)) w Hmem)
    as (Hm1 & _ & Hc1 & Ht1 & _).
  fold w1 in Hm1, Hc1, Ht1. cbn in Ht1. rewrite Hpos in Ht1.
  destruct (EnvCache_del_fields key w1 Hm1) as (Hm2 & _ & Hc2 & Ht2 & _).
  destruct (EnvCache_set_fields stringify key v2 (Some (Num 0)) _ Hm2)
    as (Hm3 & _ & Hc3 & Ht3 & _).
  fold w2 in Hm3, Hc3, Ht3. cbn in Ht3. rewrite app_nil_r, Ht2, Ht1 in Ht3.
  split; [exact Ht3 |]. split; [| split].
  - intros Hsafe. apply to_double_exact. lia.
  - rewrite (EnvCache_get_memory _ _ _ Hm3), Hc3, lookup_insert_eq. reflexivity.
  - unfold EnvCache.fire. rewrite Ht3.
    rewrite lookup_app_r by lia. rewrite Nat.sub_diag. cbn [lookup list_lookup].
    unfold EnvCache.get. cbn. rewrite Hm3. cbn. rewrite lookup_delete_eq. reflexivity.
Qed.

Lemma EnvCache_expiry_outlives_the_value_witness :
  fst (EnvCache.get (fun _ => None) "k"
         (EnvCache.fire 0
            (EnvCache.set (fun _ => Some "2") "k" (VNum 2) (Some (Num 0))
               (EnvCache.del "k"
                  (EnvCache.set (fun _ => Some "2") "k" (VNum 1) (Some (Num 5))
                     {| EnvCache.this :=
                          {| EnvCache.memoryCache := ∅; EnvCache.isRedis := false;
                             EnvCache.ttlSeconds := Num 60 |};
                        EnvCache.timers := []; EnvCache.sent := [] |}))))) = VUndefined.
Proof.
  refine (proj2 (proj2 (proj2 (EnvCache_expiry_outlives_the_value (fun _ => Some "2")
                          (fun _ => None) "k" (VNum 1) (VNum 2) 5
                          {| EnvCache.this :=
                               {| EnvCache.memoryCache := ∅; EnvCache.isRedis := false;
                                  EnvCache.ttlSeconds := Num 60 |};
                             EnvCache.timers := []; EnvCache.sent := [] |} _ _)))).
  - reflexivity.
  - lia.
Defined.

(** X23: the mode of the provider is fixed when it is built, whatever
    calls follow.  In redis mode every call is exactly one command to redis
    ([set] a SETEX when the time to live is positive and a SET otherwise),
    and the memory cache and the timers are left alone; in memory mode
    nothing is ever sent to redis. *)
Theorem EnvCache_mode_is_fixed stringify cs w :
  let w' := EnvCache.calls stringify cs w in
  EnvCache.isRedis (EnvCache.this w') = EnvCache.isRedis (EnvCache.this w) /\
  EnvCache.ttlSeconds (EnvCache.this w') = EnvCache.ttlSeconds (EnvCache.this w) /\
  (EnvCache.isRedis (EnvCache.this w) = true ->
     EnvCache.this w' = EnvCache.this w /\
     EnvCache.timers w' = EnvCache.timers w /\
     length (EnvCache.sent w') = length (EnvCache.sent w) + length cs /\
     forall key value ttl,
       EnvCache.sent (EnvCache.set stringify key value ttl w') =
         EnvCache.sent w' ++
         [let seconds := default (EnvCache.ttlSeconds (EnvCache.this w)) ttl in
          let text := CacheRuntime.string_or_undefined (stringify value) in
          if CacheRuntime.greater_than_zero seconds
          then CacheRuntime.RedisSetex key seconds text
          else CacheRuntime.RedisSet key text]) /\
  (EnvCache.isRedis (EnvCache.this w) = false -> EnvCache.sent w' = EnvCache.sent w).
Proof.
  revert w. induction cs as [| c cs IH]; intros w.
  - cbv zeta. cbn [EnvCache.calls foldl length]. repeat split.
    + lia.
    + intros key value ttl. unfold EnvCache.set. rewrite H.
      destruct (CacheRuntime.greater_than_zero _); reflexivity.
  - cbv zeta in IH |- *.
    change (EnvCache.calls stringify (c :: cs) w)
      with (EnvCache.calls stringify cs (EnvCache.call stringify w c)).
    destruct (IH (EnvCache.call stringify w c)) as (I1 & I2 & I3 & I4).
    set (w1 := EnvCache.call stringify w c) in *.
    assert (Hstep : EnvCache.isRedis (EnvCache.this w1) = EnvCache.isRedis (EnvCache.this w) /\
              EnvCache.ttlSeconds (EnvCache.this w1) = EnvCache.ttlSeconds (EnvCache.this w) /\
              (EnvCache.isRedis (EnvCache.this w) = true ->
                 EnvCache.this w1 = EnvCache.this w /\
                 EnvCache.timers w1 = EnvCache.timers w /\
                 length (EnvCache.sent w1) = S (length (EnvCache.sent w))) /\
              (EnvCache.isRedis (EnvCache.this w) = false ->
                 EnvCache.sent w1 = EnvCache.sent w)).
    { unfold w1, EnvCache.call, EnvCache.get, EnvCache.set, EnvCache.del.
      destruct c as [reply key | key value ttl | key];
        destruct (EnvCache.isRedis (EnvCache.this w)) eqn:Hmode;
        try destruct (CacheRuntime.greater_than_zero _);
        cbn; rewrite ?length_app; cbn; repeat split; try discriminate; try lia;
        try exact Hmode. }
    destruct Hstep as (S1 & S2 & S3 & S4).
    rewrite I1, I2, S1, S2. split; [reflexivity |]. split; [reflexivity |]. split.
    + intros Hmode. destruct (S3 Hmode) as (T1 & T2 & T3).
      rewrite S1 in I3. destruct (I3 Hmode) as (J1 & J2 & J3 & J4).
      rewrite J1, J2, J3, T1, T2, T3. repeat split; [cbn; lia |].
      intros key value ttl. rewrite J4, S2. reflexivity.
    + intros Hmode. rewrite S1 in I4. rewrite (I4 Hmode). exact (S4 Hmode).
Qed.

Lemma EnvCache_mode_is_fixed_witness :
  EnvCache.sent
    (EnvCache.calls (fun _ => Some "1")
       [EnvCache.CallSet "k" (VNum 1) None; EnvCache.CallDel "k"]
       {| EnvCache.this := {| EnvCache.memoryCache := ∅; EnvCache.isRedis := false;
                              EnvCache.ttlSeconds := Num 60 |};
          EnvCache.timers := []; EnvCache.sent := [] |}) = [].
Proof.
  refine (proj2 (proj2 (proj2 (EnvCache_mode_is_fixed (fun _ => Some "1")
                                 [EnvCache.CallSet "k" (VNum 1) None; EnvCache.CallDel "k"]
                                 {| EnvCache.this :=
                                      {| EnvCache.memoryCache := ∅;
                                         EnvCache.isRedis := false;
                                         EnvCache.ttlSeconds := Num 60 |};
                                    EnvCache.timers := []; EnvCache.sent := [] |}))) eq_refl).
Defined.

(** X24: with neither [REDIS_URL] nor [REDIS_TTL] in the environment the
    provider built at load time keeps its entries in memory and lets each
    entry set without a time to live expire after 60 seconds; an instance
    that exists already is returned as it is, whatever the environment. *)
Theorem EnvCache_default_expiry parseInt stringify env key value :
  CacheRuntime.string_truthy (EnvCache.REDIS_URL env) = false ->
  CacheRuntime.string_truthy (EnvCache.REDIS_TTL env) = false ->
  let w := {| EnvCache.this := EnvCache.constructor parseInt env None;
              EnvCache.timers := []; EnvCache.sent := [] |} in
  EnvCache.memoryCache (EnvCache.this w) = ∅ /\
  EnvCache.timers (EnvCache.set stringify key value None w) =
    [{| CacheRuntime.timer_key := key; CacheRuntime.timer_delay := Num 60000 |}] /\
  EnvCache.sent (EnvCache.set stringify key value None w) = [] /\
  forall existing, EnvCache.constructor parseInt env (Some existing) = existing.
Proof.
  intros Hurl Httl w. unfold w, EnvCache.set, EnvCache.constructor. cbn.
  rewrite Hurl, Httl. cbn. repeat split.
Qed.

Lemma EnvCache_default_expiry_witness :
  EnvCache.timers
    (EnvCache.set (fun _ => Some "1") "k" (VNum 1) None
       {| EnvCache.this :=
            EnvCache.constructor (fun _ => NaN)
              {| EnvCache.REDIS_URL := None; EnvCache.REDIS_TTL := Some "" |} None;
          EnvCache.timers := []; EnvCache.sent := [] |}) =
  [{| CacheRuntime.timer_key := "k"; CacheRuntime.timer_delay := Num 60000 |}].
Proof.
  refine (proj1 (proj2 (EnvCache_default_expiry (fun _ => NaN) (fun _ => Some "1")
                          {| EnvCache.REDIS_URL := None; EnvCache.REDIS_TTL := Some "" |}
                          "k" (VNum 1) _ _))); reflexivity.
Defined.

(** X25: the provider that asks the client at every call keeps the value
    itself while disconnected, with no expiry unless one is asked for; once
    the client is connected [get] answers what redis holds, not what was
    written while disconnected. *)
Theorem ConnectedCache_mode_is_read_per_call stringify reply key value w :
  let w1 := ConnectedCache.set stringify false key value None w in
  ConnectedCache.get false reply key w1 = (value, w1) /\
  (forall other, other <> key ->
     fst (ConnectedCache.get false reply other w1) =
     fst (ConnectedCache.get false reply other w)) /\
  ConnectedCache.timers w1 = ConnectedCache.timers w /\
  ConnectedCache.sent w1 = ConnectedCache.sent w /\
  fst (ConnectedCache.get true reply key w1) = CacheRuntime.string_or_null (reply key).
Proof.
  intros w1. unfold w1, ConnectedCache.set, ConnectedCache.get. cbn.
  repeat split.
  - rewrite lookup_insert_eq. reflexivity.
  - intros other Hother. rewrite lookup_insert_ne by congruence. reflexivity.
Qed.


Lemma ConnectedCache_mode_is_read_per_call_witness :
  fst (ConnectedCache.get false (fun _ => None) "other"
         (ConnectedCache.set (fun _ => Some "1") false "k" (VNum 1) None
            {| ConnectedCache.this := {| ConnectedCache.memoryCache := {[ "other" := VNum 2 ]} |};
               ConnectedCache.timers := []; ConnectedCache.sent := [] |})) = VNum 2.
Proof.
  rewrite (proj1 (proj2 (ConnectedCache_mode_is_read_per_call (fun _ => Some "1")
                           (fun _ => None) "k" (VNum 1)
                           {| ConnectedCache.this :=
                                {| ConnectedCache.memoryCache := {[ "other" := VNum 2 ]} |};
                              ConnectedCache.timers := []; ConnectedCache.sent := [] |}))
             "other" ltac:(discriminate)).
  reflexivity.
Defined.
